(** * YouTube Music Analytics: a shallow embedding of the pipeline

    The development follows [youtube_music_analytics.py]: the class
    [YouTubeMusicAnalytics] keeps a pandas frame in [self.df], a list of
    insight strings in [self.insights], and runs five stages one after the
    other inside [run_analysis].

    - Numbers are IEEE binary64 values ([spec_float] at precision 53), the
      representation pandas gives a column once [pd.to_numeric] has run.
    - A frame is a header and a list of labelled rows; a row maps column
      names to cells.
    - Methods run in a state-and-exception monad over the object and the
      outside world (console, files). *)

From Stdlib Require Import ZArith QArith Qpower Qabs Lia Lqa List Sorting.Sorted.
From Stdlib Require Import Floats.SpecFloat.
From stdpp Require Import base option list strings gmap.

Local Open Scope Z_scope.

(** ** Binary64 numbers *)

Module F64.

Definition t := spec_float.

Definition prec : Z := 53.
Definition emax : Z := 1024.

Definition nan : t := S754_nan.

(** Python converts an [int] operand to the nearest double. *)
Definition of_Z (z : Z) : t := binary_normalize prec emax z 0 false.

Definition div (x y : t) : t := SFdiv prec emax x y.
Definition mul (x y : t) : t := SFmul prec emax x y.
Definition add (x y : t) : t := SFadd prec emax x y.

Definition is_nan (x : t) : bool :=
  match x with S754_nan => true | _ => false end.

(** [x >= y], [x < y] and [x == y] on doubles: false as soon as one side
    is NaN. *)
Definition geb (x y : t) : bool := SFleb y x.
Definition ltb (x y : t) : bool := SFltb x y.
Definition gtb (x y : t) : bool := SFltb y x.
Definition eqb (x y : t) : bool := SFeqb x y.

Definition c60 : t := Eval vm_compute in of_Z 60.
Definition c100 : t := Eval vm_compute in of_Z 100.
Definition c1e6 : t := Eval vm_compute in of_Z 1000000.
Definition c1e8 : t := Eval vm_compute in of_Z 100000000.
Definition c1e9 : t := Eval vm_compute in of_Z 1000000000.

(** A position on the extended real line for every value that is not NaN:
    a class (the two infinities, the two signs, zero), then the exponent
    and the mantissa, both negated for negative values. *)
Definition key (x : t) : Z * Z * Z :=
  match x with
  | S754_nan => (0, 0, 0)
  | S754_zero _ => (0, 0, 0)
  | S754_infinity true => (-2, 0, 0)
  | S754_infinity false => (2, 0, 0)
  | S754_finite true m e => (-1, - e, - Zpos m)
  | S754_finite false m e => (1, e, Zpos m)
  end.

Definition key_lt (a b : Z * Z * Z) : Prop :=
  let '(a1, a2, a3) := a in
  let '(b1, b2, b3) := b in
  a1 < b1 \/ (a1 = b1 /\ (a2 < b2 \/ (a2 = b2 /\ a3 < b3))).

(** The rational number a finite double stands for (0 for the others). *)
Definition to_Q (x : t) : Q :=
  match x with
  | S754_finite s m e => ((if s then -1 else 1) * (inject_Z (Z.pos m) * 2 ^ e))%Q
  | _ => 0%Q
  end.

Definition is_finite (x : t) : bool :=
  match x with
  | S754_zero _ | S754_finite _ _ _ => true
  | _ => false
  end.

(** The relative error of one rounding in the range of the normal numbers
    is at most [eps], which is [2 ^ -52]. *)
Definition eps : Q := 1 # 4503599627370496.

(** [r] is [x] up to one rounding. *)
Definition close (x r : Q) : Prop :=
  (x * (1 - eps) <= r /\ r <= x * (1 + eps))%Q.

End F64.

Abbreviation float64 := F64.t.

(** ** Cells, rows and frames *)

(** A cell read from the CSV file is a number or a string.  A missing value
    is the double NaN, as in pandas, also in a column of strings.  A number
    is a double: pandas keeps a column of integers without a missing value
    as int64, and such a column is read here through [F64.of_Z], which
    keeps the order and the ties of integers below [2 ^ 53]. *)
Inductive cell :=
| Num (x : float64)
| Str (s : string).

Definition isna (c : cell) : bool :=
  match c with
  | Num x => F64.is_nan x
  | Str _ => false
  end.

Definition notna (c : cell) : bool := negb (isna c).

(** A row carries its index label (the line of the file it came from) and
    its cells by column name. *)
Record DataFrame := mkDataFrame {
  columns : list string;
  rows : list (nat * gmap string cell)
}.

(** A row that is shorter than the header reads as NaN there. *)
Definition cell_at (r : nat * gmap string cell) (c : string) : cell :=
  default (Num F64.nan) (r.2 !! c).

Definition len (df : DataFrame) : Z := Z.of_nat (length (rows df)).

(** ** Exceptions *)

Inductive exn :=
| FileNotFoundError
| PermissionError
| UnicodeDecodeError
| EmptyDataError
| ParserError
| OSError
| KeyError (keys : list string)
| TypeError
| AttributeError
| ValueError
| IndexError
| ZeroDivisionError
| RuntimeError
| UnicodeEncodeError
| BrokenPipeError
| KeyboardInterrupt
| SystemExit.

Definition class_name (e : exn) : string :=
  match e with
  | FileNotFoundError => "FileNotFoundError"
  | PermissionError => "PermissionError"
  | UnicodeDecodeError => "UnicodeDecodeError"
  | EmptyDataError => "EmptyDataError"
  | ParserError => "ParserError"
  | OSError => "OSError"
  | KeyError _ => "KeyError"
  | TypeError => "TypeError"
  | AttributeError => "AttributeError"
  | ValueError => "ValueError"
  | IndexError => "IndexError"
  | ZeroDivisionError => "ZeroDivisionError"
  | RuntimeError => "RuntimeError"
  | UnicodeEncodeError => "UnicodeEncodeError"
  | BrokenPipeError => "BrokenPipeError"
  | KeyboardInterrupt => "KeyboardInterrupt"
  | SystemExit => "SystemExit"
  end.

(** The classes below [Exception], which [except Exception] catches;
    [KeyboardInterrupt] and [SystemExit] derive from [BaseException] only. *)
Definition is_exception (e : exn) : bool :=
  match e with
  | KeyboardInterrupt | SystemExit => false
  | _ => true
  end.

(** ** Frame operations (pandas) *)

(** [df[c]]: the column as a series of cells. *)
Definition getitem (df : DataFrame) (c : string) : exn + list cell :=
  if decide (c ∈ columns df)
  then inr (map (λ r, cell_at r c) (rows df))
  else inl (KeyError [c]).

Definition add_column (c : string) (header : list string) : list string :=
  if decide (c ∈ header) then header else header ++ [c].

Definition set_cell (c : string) (v : cell) (r : nat * gmap string cell)
    : nat * gmap string cell :=
  (r.1, <[c := v]> r.2).

(** [df[c] = values]: replaces the column, or appends it to the header. *)
Definition setitem (df : DataFrame) (c : string) (values : list cell) : DataFrame :=
  {| columns := add_column c (columns df);
     rows := zip_with (λ r v, set_cell c v r) (rows df) values |}.

(** [pd.to_numeric(series, errors='coerce')]: numbers stay, a string becomes
    the number it spells, or NaN when it spells none. *)
Definition coerce (parse_float : string → float64) (c : cell) : cell :=
  match c with
  | Num x => Num x
  | Str t => Num (parse_float t)
  end.

Definition to_numeric (parse_float : string → float64) (s : list cell) : list cell :=
  map (coerce parse_float) s.

(** [series / k]: element by element; a string operand raises. *)
Fixpoint series_div (s : list cell) (k : float64) : exn + list cell :=
  match s with
  | [] => inr []
  | Num x :: s' =>
      match series_div s' k with
      | inr ys => inr (Num (F64.div x k) :: ys)
      | inl e => inl e
      end
  | Str _ :: _ => inl TypeError
  end.

Definition complete (subset : list string) (r : nat * gmap string cell) : bool :=
  forallb (λ c, notna (cell_at r c)) subset.

(** [df.dropna(subset=...)]: keeps the rows without NaN in the listed
    columns; the listed columns must exist. *)
Definition dropna (subset : list string) (df : DataFrame) : exn + DataFrame :=
  match List.filter (λ c, bool_decide (c ∉ columns df)) subset with
  | [] => inr {| columns := columns df;
                 rows := List.filter (complete subset) (rows df) |}
  | missing => inl (KeyError missing)
  end.

(** A column selection [df[[c1, c2, ...]]]. *)
Definition select (cs : list string) (df : DataFrame) : exn + DataFrame :=
  match List.filter (λ c, bool_decide (c ∉ columns df)) cs with
  | [] => inr {| columns := cs;
                 rows := map (λ r, (r.1, filter (λ kv, kv.1 ∈ cs) r.2)) (rows df) |}
  | missing => inl (KeyError missing)
  end.

(** The values of a numeric column.  A column that still holds strings has
    no float64 values; arithmetic and ranking on it raise. *)
Fixpoint floats (s : list cell) : exn + list float64 :=
  match s with
  | [] => inr []
  | Num x :: s' =>
      match floats s' with
      | inr xs => inr (x :: xs)
      | inl e => inl e
      end
  | Str _ :: _ => inl TypeError
  end.

(** [df[mask]] for a boolean series [mask]. *)
Definition boolean_index (df : DataFrame) (mask : list bool) : DataFrame :=
  {| columns := columns df;
     rows := map fst (List.filter snd (zip (rows df) mask)) |}.

(** ** Ranking *)

(** Stable insertion in descending order of the key: the new element, which
    comes from an earlier row, goes in front of the first element that is
    not strictly greater. *)
Fixpoint insert_desc {A} (x : float64 * A) (l : list (float64 * A)) : list (float64 * A) :=
  match l with
  | [] => [x]
  | y :: l' => if F64.gtb y.1 x.1 then y :: insert_desc x l' else x :: y :: l'
  end.

Definition sort_desc {A} (l : list (float64 * A)) : list (float64 * A) :=
  foldr insert_desc [] l.

(** Descending order with NaN keys last ([na_position='last']). *)
Definition order_desc {A} (l : list (float64 * A)) : list (float64 * A) :=
  sort_desc (List.filter (λ x, negb (F64.is_nan x.1)) l)
    ++ List.filter (λ x, F64.is_nan x.1) l.

(** [df.nlargest(n, c)] with the default [keep='first']: the [n] rows with
    the largest values of [c], largest first, rows of equal value in the
    order of the frame. *)
Definition nlargest (n : nat) (c : string) (df : DataFrame) : exn + DataFrame :=
  match getitem df c with
  | inl e => inl e
  | inr s =>
      match floats s with
      | inl e => inl e
      | inr ks =>
          inr {| columns := columns df;
                 rows := map snd (take n (order_desc (zip ks (rows df)))) |}
      end
  end.

(** ** Grouping *)

#[export] Instance result_ret : MRet (sum exn) := λ A x, inr x.
#[export] Instance result_bind : MBind (sum exn) := λ A B f m,
  match m with
  | inl e => inl e
  | inr x => f x
  end.

(** Equality and order of group keys: by value for numbers, by code points
    for strings. *)
Definition cell_eqb (a b : cell) : bool :=
  match a, b with
  | Num x, Num y => F64.eqb x y
  | Str s, Str t => String.eqb s t
  | _, _ => false
  end.

Definition cell_ltb (a b : cell) : bool :=
  match a, b with
  | Num x, Num y => F64.ltb x y
  | Str s, Str t => String.ltb s t
  | _, _ => false
  end.

(** The distinct values of a series that are not NaN, by first appearance. *)
Fixpoint group_keys (s : list cell) : list cell :=
  match s with
  | [] => []
  | c :: s' =>
      if isna c then group_keys s'
      else c :: List.filter (λ k, negb (cell_eqb k c)) (group_keys s')
  end.

Fixpoint insert_key (k : cell) (l : list cell) : list cell :=
  match l with
  | [] => [k]
  | y :: l' => if cell_ltb k y then k :: y :: l' else y :: insert_key k l'
  end.

(** [groupby] arranges the groups by ascending key ([sort=True]). *)
Definition sort_keys (l : list cell) : list cell := foldr insert_key [] l.

Definition group_of {A} (k : cell) (keyed : list (cell * A)) : list A :=
  map snd (List.filter (λ kv, cell_eqb kv.1 k) keyed).

(** [df.groupby(by)[value].sum()]: one entry per group, keyed by the group;
    [summation] is the library's sum of a group's values. *)
Definition groupby_sum (summation : list float64 → float64) (by_ value : string)
    (df : DataFrame) : exn + list (float64 * cell) :=
  ks ← getitem df by_;
  vs ← getitem df value;
  xs ← floats vs;
  mret (map (λ k, (summation (group_of k (zip ks xs)), k)) (sort_keys (group_keys ks))).

(** [df.groupby('channel').agg({'view_count': 'sum', 'title': 'count'})]:
    the total of the views and the number of titles that are not NaN. *)
Definition groupby_agg (summation : list float64 → float64) (df : DataFrame)
    : exn + list (float64 * (cell * Z)) :=
  ks ← getitem df "channel";
  vs ← getitem df "view_count";
  ts ← getitem df "title";
  xs ← floats vs;
  mret (map (λ k, (summation (group_of k (zip ks xs)),
                   (k, Z.of_nat (length (List.filter notna (group_of k (zip ks ts)))))))
            (sort_keys (group_keys ks))).

(** [series.idxmax()]: the key of the first largest value, NaN values
    skipped; an empty series raises. *)
Fixpoint argmax_from (best : float64 * cell) (l : list (float64 * cell)) : cell :=
  match l with
  | [] => best.2
  | y :: l' => argmax_from (if F64.gtb y.1 best.1 then y else best) l'
  end.

Definition idxmax (l : list (float64 * cell)) : exn + cell :=
  match l with
  | [] => inl ValueError
  | _ =>
      match List.filter (λ x, negb (F64.is_nan x.1)) l with
      | [] => inr (Num F64.nan)
      | x :: l' => inr (argmax_from x l')
      end
  end.

(** ** The object, the outside world and the method monad *)

Inductive chart :=
| TopSongs
| TopChannels
| ViewDistribution
| DurationVsViews
| DurationDistribution
| FollowersVsViews
| PopularityDistribution
| TopChannelsByCount
| CorrelationHeatmap.

Definition chart_file (c : chart) : string :=
  match c with
  | TopSongs => "analytics_output/01_top_15_songs.png"
  | TopChannels => "analytics_output/02_top_10_channels.png"
  | ViewDistribution => "analytics_output/03_view_distribution.png"
  | DurationVsViews => "analytics_output/04_duration_vs_views.png"
  | DurationDistribution => "analytics_output/05_duration_distribution.png"
  | FollowersVsViews => "analytics_output/06_followers_vs_views.png"
  | PopularityDistribution => "analytics_output/07_popularity_distribution.png"
  | TopChannelsByCount => "analytics_output/08_top_channels_by_count.png"
  | CorrelationHeatmap => "analytics_output/09_correlation_heatmap.png"
  end.

(** What the run cannot see from the code: the file system behind
    [pd.read_csv], the number a string spells, the library's summation, the
    order in which the library's default sort leaves rows of equal key, and
    whether drawing a chart or opening the report file succeeds. *)
Record Env := mkEnv {
  csv_contents : string → exn + (list string * list (gmap string cell));
  parse_float : string → float64;
  series_sum : list float64 → float64;
  tie_break : list (float64 * (cell * Z)) → list (float64 * (cell * Z));
  render : chart → DataFrame → option exn;
  open_report : string → option exn
}.

(** [sort_values(by, ascending=False)] with the default [kind='quicksort'],
    which is not stable: the result is a descending arrangement of the
    table, and which one it is among rows of equal key is the library's
    choice.  Every descending arrangement is the stable sort of some
    rearrangement of the table; [tie_break] is that rearrangement. *)
Definition sort_values (env : Env) (l : list (float64 * (cell * Z)))
    : list (float64 * (cell * Z)) :=
  order_desc (tie_break env l).

(** Entries of [self.insights]; each stands for the formatted string and
    holds the values the string is formatted from. *)
Inductive insight :=
| DatasetSize (songs : Z) (channels : list cell)
| CombinedViews (views : list float64)
| MostViewed (title : cell)
| MegaHits (count : Z)
| AverageDuration (minutes : list float64).

(** Messages written to the console.  A message stands for the [print]
    calls that make it up (the rules of 80 signs and the blank lines around
    a heading are not kept), and for the text without its pictograph.  A
    message that shows an aggregate of a series (mean, median, Pearson
    coefficient, ...) holds the series. *)
Inductive event :=
| Line (s : string)
| Loaded (records columns : Z)
| Removed (count : Z)
| Count (name : string) (count : Z)
| Distinct (name : string) (series : list cell)
| Statistic (name : string) (series : list float64)
| MostPopularChannel (channel : cell)
| TopSongLine (idx : Z) (title : string) (views : float64)
| TopChannelLine (idx : Z) (channel : string) (views : float64) (songs : Z)
| Correlation (name : string) (xs ys : list float64)
| Category (name : string) (count : Z) (percent : float64)
| Created (count : Z) (c : chart)
| AllSaved (count : Z)
| Report (insights : list insight)
| ErrorDuringAnalysis (e : exn)
| Traceback (e : exn).

(** The messages whose text in the script holds a character outside ASCII:
    a check mark, a cross, a pictograph, the sign for "at least". *)
Definition glyph (ev : event) : bool :=
  match ev with
  | Loaded _ _ | Removed _ | Created _ _ | AllSaved _ | Report _
  | ErrorDuringAnalysis _ => true
  | Category name _ _ => String.eqb name "Mega Hits (>=1B views)"
  | Line s =>
      bool_decide (s ∈ ["Data cleaning completed"; "EDA completed";
                        "View Count Distribution:";
                        "Duration Distribution (minutes):";
                        "Correlation Analysis:"; "Popularity Categories:";
                        "Statistical analysis completed";
                        "Report saved to 'analytics_output/INSIGHTS_REPORT.txt'";
                        "ANALYSIS COMPLETED SUCCESSFULLY"])
  | _ => false
  end.

Record World := mkWorld {
  self_df : option DataFrame;
  self_insights : list insight;
  stdout : list event;
  stderr : list event;
  files : list string
}.

(** A method either returns or raises, and leaves a world behind in both
    cases. *)
Definition M (A : Type) : Type := World → (exn + A) * World.

#[export] Instance M_ret : MRet M := λ A x w, (inr x, w).
#[export] Instance M_bind : MBind M := λ A B f m w,
  match m w with
  | (inl e, w') => (inl e, w')
  | (inr x, w') => f x w'
  end.

Definition raise {A} (e : exn) : M A := λ w, (inl e, w).

Definition lift {A} (r : exn + A) : M A := λ w, (r, w).

Definition with_df (df : DataFrame) (w : World) : World :=
  {| self_df := Some df; self_insights := self_insights w;
     stdout := stdout w; stderr := stderr w; files := files w |}.

Definition with_insight (i : insight) (w : World) : World :=
  {| self_df := self_df w; self_insights := self_insights w ++ [i];
     stdout := stdout w; stderr := stderr w; files := files w |}.

Definition with_output (evs : list event) (w : World) : World :=
  {| self_df := self_df w; self_insights := self_insights w;
     stdout := stdout w ++ evs; stderr := stderr w; files := files w |}.

Definition with_error (evs : list event) (w : World) : World :=
  {| self_df := self_df w; self_insights := self_insights w;
     stdout := stdout w; stderr := stderr w ++ evs; files := files w |}.

Definition with_file (p : string) (w : World) : World :=
  {| self_df := self_df w; self_insights := self_insights w;
     stdout := stdout w; stderr := stderr w;
     files := if decide (p ∈ files w) then files w else files w ++ [p] |}.

(** ** The console

    [print] encodes a line for the stream and writes it, and both steps can
    fail: a console whose encoding lacks a character of the line raises
    [UnicodeEncodeError] (the script rewraps [sys.stdout] on win32 for this
    reason, lines 10 to 12), a pipe that the reader closed raises
    [BrokenPipeError].  A console decides from what the stream already
    holds and from the line whether the write raises. *)
Class Console := console : list event → event → option exn.

(** The console that takes every line.  A statement that names no console
    is about a run on this one. *)
#[export] Instance quiet : Console := λ _ _, None.

Definition print {tty : Console} (ev : event) : M unit := λ w,
  match console (stdout w) ev with
  | Some e => (inl e, w)
  | None => (inr tt, with_output [ev] w)
  end.

(** [traceback.print_exc()]: the traceback goes to [sys.stderr]. *)
Definition print_exc {tty : Console} (e : exn) : M unit := λ w,
  match console (stderr w) (Traceback e) with
  | Some e' => (inl e', w)
  | None => (inr tt, with_error [Traceback e] w)
  end.

Definition set_df (df : DataFrame) : M unit := λ w, (inr tt, with_df df w).

(** Reading [self.df]: before the load it is [None], and [len(None)] or
    [None[...]] raise [TypeError], [None.nlargest] raises [AttributeError]. *)
Definition get_df_or (e : exn) : M DataFrame := λ w,
  match self_df w with
  | Some df => (inr df, w)
  | None => (inl e, w)
  end.

Definition get_df : M DataFrame := get_df_or TypeError.

Definition append_insight (i : insight) : M unit := λ w,
  (inr tt, with_insight i w).

Definition get_insights : M (list insight) := λ w, (inr (self_insights w), w).

Definition path_exists (p : string) : M bool := λ w,
  (inr (bool_decide (p ∈ files w)), w).

Definition create_file (p : string) : M unit := λ w, (inr tt, with_file p w).

(** [try: body except Exception as e: handler(e)]: an exception that is
    not an [Exception] passes the clause. *)
Definition try_except {A} (body : M A) (handler : exn → M A) : M A := λ w,
  match body w with
  | (inl e, w') => if is_exception e then handler e w' else (inl e, w')
  | (inr x, w') => (inr x, w')
  end.

Fixpoint for_each {A} (l : list A) (body : A → M unit) : M unit :=
  match l with
  | [] => mret tt
  | x :: l' => body x;; for_each l' body
  end.

(** [a / b] on Python integers. *)
Definition truediv (a b : Z) : exn + float64 :=
  if b =? 0 then inl ZeroDivisionError
  else inr (F64.div (F64.of_Z a) (F64.of_Z b)).

Definition str_of (c : cell) : exn + string :=
  match c with
  | Str s => inr s
  | Num _ => inl TypeError
  end.

Definition float_of (c : cell) : exn + float64 :=
  match c with
  | Num x => inr x
  | Str _ => inl TypeError
  end.

(** [s[:n] + '...' if len(s) > n else s].  A string is the sequence of its
    characters, one [ascii] a character: titles and channel names are read
    in an 8-bit alphabet, so that [String.length] is Python's [len] and
    [String.substring] its slice. *)
Definition shorten (n : nat) (s : string) : string :=
  if (n <? String.length s)%nat then String.append (String.substring 0 n s) "..." else s.

Definition enumerate {A} (start : Z) (l : list A) : list (Z * A) :=
  zip (map (λ i, start + Z.of_nat i) (seq 0 (length l))) l.

(** ** The class [YouTubeMusicAnalytics] *)

Section YouTubeMusicAnalytics.

Context {tty : Console} (env : Env) (csv_file : string).

(** [pd.read_csv(path)]: the parsed header and lines, labelled 0, 1, 2, ... *)
Definition read_csv (path : string) : exn + DataFrame :=
  '(header, lines) ← csv_contents env path;
  mret {| columns := header; rows := zip (seq 0 (length lines)) lines |}.

(** [self.df[c] = f(self.df)]. *)
Definition assign (c : string) (f : DataFrame → exn + list cell) : M unit :=
  df ← get_df;
  s ← lift (f df);
  set_df (setitem df c s).

(** The derived features (lines 62 to 65 of the script), one assignment
    each. *)
Definition add_duration_minutes : M unit :=
  assign "duration_minutes"
    (λ df, s ← getitem df "duration"; series_div s F64.c60).

Definition add_views_in_billions : M unit :=
  assign "views_in_billions"
    (λ df, s ← getitem df "view_count"; series_div s F64.c1e9).

Definition add_views_in_millions : M unit :=
  assign "views_in_millions"
    (λ df, s ← getitem df "view_count"; series_div s F64.c1e6).

Definition add_derived_features : M unit :=
  add_duration_minutes;;
  add_views_in_billions;;
  add_views_in_millions.

Definition load_and_clean_data : M DataFrame :=
  print (Line "YOUTUBE MUSIC ANALYTICS DASHBOARD");;
  print (Line "[1/6] Loading and cleaning data...");;
  df ← lift (read_csv csv_file);
  set_df df;;
  print (Loaded (len df) (Z.of_nat (length (columns df))));;
  assign "view_count"
    (λ df, s ← getitem df "view_count"; mret (to_numeric (parse_float env) s));;
  assign "duration"
    (λ df, s ← getitem df "duration"; mret (to_numeric (parse_float env) s));;
  assign "channel_follower_count"
    (λ df, s ← getitem df "channel_follower_count"; mret (to_numeric (parse_float env) s));;
  df ← get_df;
  let original_count := len df in
  df ← lift (dropna ["view_count"; "duration"; "channel"] df);
  set_df df;;
  let removed_count := original_count - len df in
  (if 0 <? removed_count then print (Removed removed_count) else mret tt);;
  add_derived_features;;
  print (Line "Data cleaning completed");;
  get_df.

(** [self.df.nlargest(20, 'view_count')[[...]]]. *)
Definition top_songs (df : DataFrame) : exn + DataFrame :=
  top ← nlargest 20 "view_count" df;
  select ["title"; "channel"; "view_count"; "duration_string"] top.

(** [self.df.groupby('channel').agg(...).sort_values('view_count',
    ascending=False).head(10)]. *)
Definition top_channels (df : DataFrame) : exn + list (float64 * (cell * Z)) :=
  agg ← groupby_agg (series_sum env) df;
  mret (take 10 (sort_values env agg)).

Definition exploratory_data_analysis
    : M (DataFrame * list (float64 * (cell * Z))) :=
  print (Line "[2/6] Performing Exploratory Data Analysis...");;
  print (Line "DATASET STATISTICS");;
  (* the [stats] dictionary, entry by entry *)
  df ← get_df;
  channels ← lift (getitem df "channel");
  views ← lift (vs ← getitem df "view_count"; floats vs);
  minutes ← lift (ms ← getitem df "duration_minutes"; floats ms);
  totals ← lift (groupby_sum (series_sum env) "channel" "view_count" df);
  most_popular ← lift (idxmax totals);
  print (Count "Total Songs" (len df));;
  print (Distinct "Total Channels" channels);;
  print (Statistic "Total Views (Billions)" views);;
  print (Statistic "Average Views per Song" views);;
  print (Statistic "Median Views per Song" views);;
  print (Statistic "Average Duration" minutes);;
  print (MostPopularChannel most_popular);;
  print (Line "TOP 20 MOST VIEWED SONGS");;
  top_songs ← lift (top_songs df);
  for_each (enumerate 1 (rows top_songs)) (λ '(idx, row),
    title ← lift (str_of (cell_at row "title"));
    views ← lift (float_of (cell_at row "view_count"));
    print (TopSongLine idx (shorten 50 title) views));;
  print (Line "TOP 10 CHANNELS BY TOTAL VIEWS");;
  top_channels ← lift (top_channels df);
  for_each (enumerate 1 top_channels) (λ '(idx, (views, (channel, songs))),
    channel ← lift (str_of channel);
    print (TopChannelLine idx (shorten 40 channel) views songs));;
  print (Line "EDA completed");;
  append_insight (DatasetSize (len df) channels);;
  append_insight (CombinedViews views);;
  first ← lift (nlargest 1 "view_count" df);
  titles ← lift (getitem first "title");
  match titles with
  | [] => raise IndexError
  | title :: _ => append_insight (MostViewed title)
  end;;
  mret (top_songs, top_channels).

(** The three popularity masks over the values of [view_count]. *)
Definition is_mega_hit (x : float64) : bool := F64.geb x F64.c1e9.
Definition is_popular (x : float64) : bool := F64.geb x F64.c1e8 && F64.ltb x F64.c1e9.
Definition is_moderate (x : float64) : bool := F64.ltb x F64.c1e8.

(** [len(self.df[mask])] for each of the three masks. *)
Definition category_counts (df : DataFrame) : exn + (Z * Z * Z) :=
  vs ← getitem df "view_count";
  xs ← floats vs;
  mret (len (boolean_index df (map is_mega_hit xs)),
        len (boolean_index df (map is_popular xs)),
        len (boolean_index df (map is_moderate xs))).

(** [count / len(self.df) * 100]. *)
Definition percentage (count : Z) (df : DataFrame) : exn + float64 :=
  q ← truediv count (len df);
  mret (F64.mul q F64.c100).

(** [self.df[['view_count', 'duration', 'channel_follower_count']].dropna()]:
    without [subset], a NaN in any column of the selection drops the row. *)
Definition correlation_data (df : DataFrame) : exn + DataFrame :=
  sub ← select ["view_count"; "duration"; "channel_follower_count"] df;
  dropna (columns sub) sub.

(** The correlation block of [statistical_analysis] (lines 158 to 169). *)
Definition correlation_analysis (df : DataFrame) : M unit :=
  print (Line "Correlation Analysis:");;
  correlation_data ← lift (correlation_data df);
  if 0 <? len correlation_data then
    ds ← lift (s ← getitem correlation_data "duration"; floats s);
    vs ← lift (s ← getitem correlation_data "view_count"; floats s);
    print (Correlation "Duration vs Views" ds vs);;
    followers ← lift (getitem correlation_data "channel_follower_count");
    if existsb notna followers then
      fs ← lift (floats followers);
      print (Correlation "Channel Followers vs Views" fs vs)
    else mret tt
  else mret tt.

Definition statistical_analysis : M unit :=
  print (Line "[3/6] Performing Statistical Analysis...");;
  print (Line "STATISTICAL ANALYSIS");;
  print (Line "View Count Distribution:");;
  df ← get_df;
  views ← lift (vs ← getitem df "view_count"; floats vs);
  for_each ["Mean"; "Median"; "Std Dev"; "Min"; "Max"; "25th %ile"; "75th %ile"]
    (λ name, print (Statistic name views));;
  print (Line "Duration Distribution (minutes):");;
  minutes ← lift (ms ← getitem df "duration_minutes"; floats ms);
  for_each ["Mean"; "Median"; "Std Dev"; "Min"; "Max"]
    (λ name, print (Statistic name minutes));;
  correlation_analysis df;;
  '(mega_hits, popular, moderate) ← lift (category_counts df);
  print (Line "Popularity Categories:");;
  p ← lift (percentage mega_hits df);
  print (Category "Mega Hits (>=1B views)" mega_hits p);;
  p ← lift (percentage popular df);
  print (Category "Popular (100M-1B views)" popular p);;
  p ← lift (percentage moderate df);
  print (Category "Moderate (<100M views)" moderate p);;
  print (Line "Statistical analysis completed");;
  append_insight (MegaHits mega_hits);;
  append_insight (AverageDuration minutes).

(** One chart block, from [plt.figure] to [plt.close]: the drawing either
    raises or leaves the image file behind; then the counter goes up and
    the line is printed. *)
Definition draw (c : chart) (data : DataFrame) (viz_count : Z) : M Z :=
  match render env c data with
  | Some e => raise e
  | None =>
      create_file (chart_file c);;
      print (Created (viz_count + 1) c);;
      mret (viz_count + 1)
  end.

Definition create_visualizations : M unit :=
  print (Line "[4/6] Creating Visualizations...");;
  present ← path_exists "analytics_output";
  (if present : bool then mret tt else create_file "analytics_output");;
  let viz_count := 0 in
  df ← get_df_or AttributeError;
  viz_count ← draw TopSongs df viz_count;
  viz_count ← draw TopChannels df viz_count;
  viz_count ← draw ViewDistribution df viz_count;
  viz_count ← draw DurationVsViews df viz_count;
  viz_count ← draw DurationDistribution df viz_count;
  followers ← lift (getitem df "channel_follower_count");
  let followers_data := boolean_index df (map notna followers) in
  viz_count ← (if 100 <? len followers_data
               then draw FollowersVsViews followers_data viz_count
               else mret viz_count);
  viz_count ← draw PopularityDistribution df viz_count;
  viz_count ← draw TopChannelsByCount df viz_count;
  viz_count ← draw CorrelationHeatmap df viz_count;
  print (AllSaved viz_count).

Definition generate_insights_report : M unit :=
  print (Line "[5/6] Generating Insights Report...");;
  df ← get_df;
  _ ← lift (getitem df "channel");
  views ← lift (vs ← getitem df "view_count"; floats vs);
  first ← lift (nlargest 1 "view_count" df);
  match rows first with
  | [] => raise IndexError
  | _ => mret tt
  end;;
  _ ← lift (getitem first "title");
  totals ← lift (groupby_sum (series_sum env) "channel" "view_count" df);
  _ ← lift (idxmax totals);
  insights ← get_insights;
  minutes ← lift (ms ← getitem df "duration_minutes"; floats ms);
  let short_songs :=
    len (boolean_index df (map (λ x, F64.ltb x (F64.of_Z 3)) minutes)) in
  _ ← lift (percentage short_songs df);
  '(mega_hits, popular, _) ← lift (category_counts df);
  _ ← lift (percentage mega_hits df);
  _ ← lift (percentage popular df);
  match open_report env "analytics_output/INSIGHTS_REPORT.txt" with
  | Some e => raise e
  | None => create_file "analytics_output/INSIGHTS_REPORT.txt"
  end;;
  print (Report insights);;
  print (Line "Report saved to 'analytics_output/INSIGHTS_REPORT.txt'").

Definition run_analysis : M unit :=
  try_except
    (load_and_clean_data;;
     exploratory_data_analysis;;
     statistical_analysis;;
     create_visualizations;;
     generate_insights_report;;
     print (Line "[6/6] Analysis Complete!");;
     print (Line "ANALYSIS COMPLETED SUCCESSFULLY"))
    (λ e,
     print (ErrorDuringAnalysis e);;
     print_exc e).

End YouTubeMusicAnalytics.

(** [YouTubeMusicAnalytics(csv_file)]: no frame and no insight yet; [fs] is
    what the file system holds when the run starts. *)
Definition new_dashboard (fs : list string) : World :=
  {| self_df := None; self_insights := []; stdout := []; stderr := [];
     files := fs |}.

Definition main {tty : Console} (env : Env) (fs : list string)
    : (exn + unit) * World :=
  run_analysis env "youtube-top-100-songs-2025.csv" (new_dashboard fs).

(** The status the interpreter exits with: 0 when [main] returns, 1 when an
    exception leaves it. *)
Definition exit_status (r : (exn + unit) * World) : Z :=
  match r.1 with
  | inr _ => 0
  | inl _ => 1
  end.

(** ** The loader, row by row

    What [load_and_clean_data] leaves in [self.df], written as one pass over
    the lines of the file; the loader is shown equal to it below. *)

Definition is_num (c : cell) : Prop := ∃ x, c = Num x.

Definition num_value (c : cell) : float64 :=
  match c with
  | Num x => x
  | Str _ => F64.nan
  end.

Definition coerce_column (parse : string → float64) (c : string)
    (r : nat * gmap string cell) : nat * gmap string cell :=
  set_cell c (coerce parse (cell_at r c)) r.

Definition coerce_row (parse : string → float64) (r : nat * gmap string cell)
    : nat * gmap string cell :=
  coerce_column parse "channel_follower_count"
    (coerce_column parse "duration" (coerce_column parse "view_count" r)).

Definition quotient_column (c src : string) (k : float64)
    (r : nat * gmap string cell) : nat * gmap string cell :=
  set_cell c (Num (F64.div (num_value (cell_at r src)) k)) r.

Definition derive_row (r : nat * gmap string cell) : nat * gmap string cell :=
  quotient_column "views_in_millions" "view_count" F64.c1e6
    (quotient_column "views_in_billions" "view_count" F64.c1e9
       (quotient_column "duration_minutes" "duration" F64.c60 r)).

Definition required : list string := ["view_count"; "duration"; "channel"].

Definition cleaned_rows (parse : string → float64) (lines : list (gmap string cell))
    : list (nat * gmap string cell) :=
  map derive_row
    (List.filter (complete required)
       (map (coerce_row parse) (zip (seq 0 (length lines)) lines))).

Definition cleaned_frame (parse : string → float64) (header : list string)
    (lines : list (gmap string cell)) : DataFrame :=
  {| columns := add_column "views_in_millions"
                  (add_column "views_in_billions"
                     (add_column "duration_minutes" header));
     rows := cleaned_rows parse lines |}.

(** ** Statements about the loader *)

(** The result of the loader, read off the file: the exception
    [pd.read_csv] raises; or a [KeyError] for the first column the loader
    reads that the header lacks; or the cleaned frame. *)
Definition load_outcome (env : Env) (path : string) : exn + DataFrame :=
  match csv_contents env path with
  | inl e => inl e
  | inr (header, lines) =>
      match List.filter (λ c, bool_decide (c ∉ header))
              ["view_count"; "duration"; "channel_follower_count"; "channel"] with
      | [] => inr (cleaned_frame (parse_float env) header lines)
      | c :: _ => inl (KeyError [c])
      end
  end.

(** A line lacks a column when, after the conversions of the loader, the
    cell is NaN. *)
Definition lacks (parse : string → float64) (c : string) (line : gmap string cell) : bool :=
  isna (cell_at (coerce_row parse (0%nat, line)) c).

Definition raises_class {A} (cls : string) (r : (exn + A) * World) : Prop :=
  ∃ e, r.1 = inl e ∧ class_name e = cls.

Definition unreadable (env : Env) (path : string) : Prop :=
  ∃ e, csv_contents env path = inl e.

Definition column_absent (env : Env) (path : string) : Prop :=
  ∃ header lines c,
    csv_contents env path = inr (header, lines) ∧ c ∈ required ∧ c ∉ header.

(** The error taxonomy of the specification, as a statement about one run
    of the loader. *)
Definition error_taxonomy (env : Env) (path : string) (w : World) : Prop :=
  (raises_class "DataLoadError" (load_and_clean_data env path w)
   ↔ unreadable env path) ∧
  (raises_class "SchemaError" (load_and_clean_data env path w)
   ↔ column_absent env path).

(** ** Statements about the cleaned frame *)

(** [view_count] as the loader leaves it: a numeric column without NaN. *)
Definition views_clean (df : DataFrame) : Prop :=
  "view_count" ∈ columns df ∧
  Forall (λ r, ∃ x, cell_at r "view_count" = Num x ∧ F64.is_nan x = false)
         (rows df).

(** The share of [count] rows among [n] rows in percent, as a fraction; the
    double that [percentage] prints is its rounding. *)
Definition exact_percentage (count n : Z) : Q :=
  (inject_Z count / inject_Z n * 100)%Q.

(** ** Statements about the rankings *)

(** [a] may stand before [b] in a ranking: [b] is not greater, and when the
    two keys are equal the entries are in the order [T]. *)
Definition ranked_before {A} (T : A → A → Prop) (a b : float64 * A) : Prop :=
  F64.gtb b.1 a.1 = false ∧ (F64.eqb a.1 b.1 = true → T a.2 b.2).

Definition views (r : nat * gmap string cell) : float64 :=
  num_value (cell_at r "view_count").

(** The labels of a frame grow along its rows, as they do in a frame read
    from a file and filtered. *)
Definition in_file_order (df : DataFrame) : Prop :=
  StronglySorted (λ a b : nat * gmap string cell, (a.1 < b.1)%nat) (rows df).

(** Songs of equal view count are ranked in the order of the frame. *)
Definition songs_stable (df : DataFrame) : Prop :=
  ∀ top i j ri rj,
    top_songs df = inr top →
    rows top !! i = Some ri → rows top !! j = Some rj → (i < j)%nat →
    F64.eqb (views ri) (views rj) = true →
    (ri.1 < rj.1)%nat.

(** The label of the first row of a channel. *)
Definition first_row (channel : cell) (df : DataFrame) : option nat :=
  fst <$> head (List.filter (λ r, cell_eqb (cell_at r "channel") channel) (rows df)).

(** Channels of equal total are ranked in the order in which they first
    appear in the frame. *)
Definition channels_stable (env : Env) (df : DataFrame) : Prop :=
  ∀ top i j a b,
    top_channels env df = inr top →
    top !! i = Some a → top !! j = Some b → (i < j)%nat →
    F64.eqb a.1 b.1 = true →
    ∃ la lb, first_row a.2.1 df = Some la ∧ first_row b.2.1 df = Some lb ∧
             (la < lb)%nat.

(** The rankings as the specification describes them. *)
Definition rankings_stable (env : Env) (df : DataFrame) : Prop :=
  songs_stable df ∧ channels_stable env df.

(** A library whose sort returns the rows it was given. *)
Definition rearranges (env : Env) : Prop := ∀ l, tie_break env l ≡ₚ l.

(** No channel of the ranking has a greater total than one before it. *)
Definition channels_descending (env : Env) (df : DataFrame) : Prop :=
  ∀ top i j a b,
    top_channels env df = inr top →
    top !! i = Some a → top !! j = Some b → (i < j)%nat →
    F64.gtb b.1 a.1 = false.

(** ** Statements about the pipeline *)

(** The handler of [run_analysis], entered for an [Exception] only: the
    error goes to the console, the traceback to the error stream. *)
Definition report_failure {tty : Console} (e : exn) (w : World)
    : (exn + unit) * World :=
  if is_exception e then
    match console (stdout w) (ErrorDuringAnalysis e) with
    | Some e' => (inl e', w)
    | None =>
        let w' := with_output [ErrorDuringAnalysis e] w in
        match console (stderr w') (Traceback e) with
        | Some e' => (inl e', w')
        | None => (inr tt, with_error [Traceback e] w')
        end
    end
  else (inl e, w).

(** The pipeline stage by stage: the first stage that raises ends the run,
    and the stages after it are not entered. *)
Definition orchestrate {tty : Console} (env : Env) (csv_file : string)
    (w : World) : (exn + unit) * World :=
  match load_and_clean_data env csv_file w with
  | (inl e, w1) => report_failure e w1
  | (inr _, w1) =>
  match exploratory_data_analysis env w1 with
  | (inl e, w2) => report_failure e w2
  | (inr _, w2) =>
  match statistical_analysis w2 with
  | (inl e, w3) => report_failure e w3
  | (inr _, w3) =>
  match create_visualizations env w3 with
  | (inl e, w4) => report_failure e w4
  | (inr _, w4) =>
  match generate_insights_report env w4 with
  | (inl e, w5) => report_failure e w5
  | (inr _, w5) =>
  match print (Line "[6/6] Analysis Complete!") w5 with
  | (inl e, w6) => report_failure e w6
  | (inr _, w6) =>
  match print (Line "ANALYSIS COMPLETED SUCCESSFULLY") w6 with
  | (inl e, w7) => report_failure e w7
  | (inr _, w7) => (inr tt, w7)
  end end end end end end end.

(** The method as the specification describes it: whatever happens, it
    returns to its caller, and the process ends with status 0. *)
Definition never_propagates (tty : Console) (env : Env) : Prop :=
  ∀ path w fs,
    (run_analysis env path w).1 = inr tt ∧ exit_status (main env fs) = 0.

(** Libraries that raise nothing but [Exception]s. *)
Definition only_exceptions (env : Env) : Prop :=
  (∀ path e, csv_contents env path = inl e → is_exception e = true) ∧
  (∀ c data e, render env c data = Some e → is_exception e = true) ∧
  (∀ path e, open_report env path = Some e → is_exception e = true).

(** A console that raises nothing but [Exception]s, and takes the two
    messages of the handler. *)
Definition polite (tty : Console) : Prop :=
  (∀ hist ev e, @console tty hist ev = Some e → is_exception e = true) ∧
  (∀ hist e, @console tty hist (ErrorDuringAnalysis e) = None) ∧
  (∀ hist e, @console tty hist (Traceback e) = None).

(** Computations that raise nothing but [Exception]s. *)
Definition fails_with_exception {A} (r : exn + A) : Prop :=
  ∀ e, r = inl e → is_exception e = true.

Definition raises_exceptions {A} (m : M A) : Prop :=
  ∀ w e w', m w = (inl e, w') → is_exception e = true.

(** ** Statements about the charts *)

(** The charts of [create_visualizations] in the order of the script, each
    with the frame it is drawn from; the sixth is on the list only when more
    than 100 rows have a follower count. *)
Definition planned_charts (df : DataFrame) (followers : list cell)
    : list (chart * DataFrame) :=
  let followers_data := boolean_index df (map notna followers) in
  [(TopSongs, df); (TopChannels, df); (ViewDistribution, df);
   (DurationVsViews, df); (DurationDistribution, df)]
  ++ (if 100 <? len followers_data then [(FollowersVsViews, followers_data)] else [])
  ++ [(PopularityDistribution, df); (TopChannelsByCount, df);
      (CorrelationHeatmap, df)].

(** The world after the charts of [l] were drawn and saved, the counter
    standing at [viz_count] before. *)
Fixpoint saved (l : list (chart * DataFrame)) (viz_count : Z) (w : World) : World :=
  match l with
  | [] => w
  | (c, _) :: l' =>
      saved l' (viz_count + 1)
        (with_output [Created (viz_count + 1) c] (with_file (chart_file c) w))
  end.

(** The chart blocks of a list run one after the other: the first drawing
    that raises ends the run. *)
Fixpoint draw_all (env : Env) (l : list (chart * DataFrame)) (viz_count : Z)
    (w : World) : (exn + Z) * World :=
  match l with
  | [] => (inr viz_count, w)
  | (c, data) :: l' =>
      match render env c data with
      | Some e => (inl e, w)
      | None =>
          draw_all env l' (viz_count + 1)
            (with_output [Created (viz_count + 1) c] (with_file (chart_file c) w))
      end
  end.

Definition draws (env : Env) (cd : chart * DataFrame) : Prop :=
  render env cd.1 cd.2 = None.

(** The lines printed for the charts of [l]. *)
Fixpoint created (l : list (chart * DataFrame)) (viz_count : Z) : list event :=
  match l with
  | [] => []
  | (c, _) :: l' => Created (viz_count + 1) c :: created l' (viz_count + 1)
  end.

(** The eight charts that are drawn whatever the data. *)
Definition unconditional_charts (df : DataFrame) : list (chart * DataFrame) :=
  [(TopSongs, df); (TopChannels, df); (ViewDistribution, df);
   (DurationVsViews, df); (DurationDistribution, df);
   (PopularityDistribution, df); (TopChannelsByCount, df);
   (CorrelationHeatmap, df)].

(** The world when the first chart is about to be drawn. *)
Definition studio (w : World) : World :=
  with_file "analytics_output"
    (with_output [Line "[4/6] Creating Visualizations..."] w).

(** Charts as the specification describes them: the stage returns, and
    every chart of the list whose drawing succeeds is saved. *)
Definition charts_independent (env : Env) (w : World) : Prop :=
  (create_visualizations env w).1 = inr tt ∧
  ∀ df followers c data,
    self_df w = Some df →
    getitem df "channel_follower_count" = inr followers →
    (c, data) ∈ planned_charts df followers →
    render env c data = None →
    chart_file c ∈ files (create_visualizations env w).2.

(** The sixth chart as the specification describes it: with fewer than 100
    rows that have a follower count, the chart of followers is not made and
    each of the eight others is. *)
Definition followers_chart_only_skipped (env : Env) (w : World) : Prop :=
  ∀ df followers,
    self_df w = Some df →
    getitem df "channel_follower_count" = inr followers →
    len (boolean_index df (map notna followers)) < 100 →
    (chart_file FollowersVsViews ∉ files (create_visualizations env w).2) ∧
    ∀ c, c ≠ FollowersVsViews →
         chart_file c ∈ files (create_visualizations env w).2.

(** The first three stages of the pipeline. *)
Definition analysis (env : Env) (csv_file : string) : M unit :=
  load_and_clean_data env csv_file;;
  exploratory_data_analysis env;;
  statistical_analysis.

(** ** Statements about the correlations *)

Definition numeric (c : string) (df : DataFrame) : Prop :=
  c ∈ columns df ∧ Forall (λ r, is_num (cell_at r c)) (rows df).

(** The three columns of the correlation block. *)
Definition three : list string :=
  ["view_count"; "duration"; "channel_follower_count"].

(** The rows without NaN in any of the three columns, and the values of a
    column on them. *)
Definition paired_rows (df : DataFrame) : list (nat * gmap string cell) :=
  List.filter (complete three) (rows df).

Definition values (c : string) (l : list (nat * gmap string cell)) : list float64 :=
  map (λ r, num_value (cell_at r c)) l.

(** A coefficient is reported as undefined: the console shows a line for
    the pair, over fewer than two observations (the coefficient of which is
    NaN). *)
Definition reported_undefined (name : string) (w : World) : Prop :=
  ∃ xs ys, Correlation name xs ys ∈ stdout w ∧ (length xs < 2)%nat.

(** Correlations as the specification describes them: with fewer than two
    paired observations both coefficients are reported as undefined. *)
Definition correlation_guarded (df : DataFrame) (w : World) : Prop :=
  ∀ data,
    correlation_data df = inr data → len data < 2 →
    reported_undefined "Duration vs Views" (correlation_analysis df w).2 ∧
    reported_undefined "Channel Followers vs Views"
      (correlation_analysis df w).2.

(** ** Statements about what a method leaves behind *)

(** [w'] extends [w]: the files, the console and the insight list of [w]
    are still there, and anything new comes after them. *)
Definition extends (w w' : World) : Prop :=
  files w `prefix_of` files w' ∧
  stdout w `prefix_of` stdout w' ∧
  self_insights w `prefix_of` self_insights w'.

(** A method that only ever extends the world, whether it returns or
    raises. *)
Definition grows {A} (m : M A) : Prop := ∀ w, extends w (m w).2.

(** ** Sample data *)

Module Sample.

Definition header : list string :=
  ["title"; "channel"; "view_count"; "duration"; "duration_string";
   "channel_follower_count"].

Definition song (title channel : string) (views duration followers : cell)
    (duration_string : string) : gmap string cell :=
  <["title" := Str title]> (<["channel" := Str channel]>
  (<["view_count" := views]> (<["duration" := duration]>
  (<["duration_string" := Str duration_string]>
  (<["channel_follower_count" := followers]> ∅))))).

Definition int (z : Z) : cell := Num (F64.of_Z z).

(** Five songs; the third one has no view count. *)
Definition five_songs : list (gmap string cell) :=
  [ song "Song One" "Channel B" (int 8400000000) (int 282) (int 31000000) "4:42";
    song "Song Two" "Channel A" (int 6200000000) (int 263) (int 53000000) "4:23";
    song "Song Three" "Channel A" (Num F64.nan) (int 279) (int 53000000) "4:39";
    song "Song Four" "Channel C" (int 250000000) (int 204) (Num F64.nan) "3:24";
    song "Song Five" "Channel C" (int 90000000) (int 260) (Num F64.nan) "4:20" ].

(** A file system with one readable file, a conversion under which no
    string spells a number, left-to-right summation, a sort that leaves
    equal keys in the order of the table, and a library that draws and
    writes without failure. *)
Definition env : Env :=
  {| csv_contents := λ path,
       if String.eqb path "songs.csv" then inr (header, five_songs)
       else inl FileNotFoundError;
     parse_float := λ _, F64.nan;
     series_sum := foldl F64.add (F64.of_Z 0);
     tie_break := λ l, l;
     render := λ _ _, None;
     open_report := λ _, None |}.

Definition world : World := new_dashboard [].

(** The frame the loader makes of the five songs. *)
Definition cleaned : DataFrame := cleaned_frame (parse_float env) header five_songs.

Definition views_tied : float64 := Eval vm_compute in F64.of_Z 500000000.

(** Two songs with the same view count, the one of channel B first. *)
Definition tied_songs : list (gmap string cell) :=
  [ song "Song One" "Channel B" (int 500000000) (int 200) (int 1000000) "3:20";
    song "Song Two" "Channel A" (int 500000000) (int 210) (int 2000000) "3:30" ].

Definition tied : DataFrame := cleaned_frame (parse_float env) header tied_songs.

(** One song, with every column filled in. *)
Definition single : DataFrame :=
  cleaned_frame (parse_float env) header
    [song "Song One" "Channel B" (int 8400000000) (int 282) (int 31000000) "4:42"].

(** A file of which no line survives the cleaning. *)
Definition empty : DataFrame :=
  cleaned_frame (parse_float env) header
    [song "Song Three" "Channel A" (Num F64.nan) (int 279) (int 53000000) "4:39"].

(** A file system whose file holds one line, which the cleaning drops. *)
Definition blank_env : Env :=
  {| csv_contents := λ _,
       inr (header,
            [song "Song Three" "Channel A" (Num F64.nan) (int 279) (int 53000000) "4:39"]);
     parse_float := parse_float env;
     series_sum := series_sum env;
     tie_break := tie_break env;
     render := render env;
     open_report := open_report env |}.

(** The dashboard after the five songs were loaded. *)
Definition loaded : World := with_df cleaned world.

(** A library whose trend line fails: the fourth chart raises. *)
Definition failing_env : Env :=
  {| csv_contents := csv_contents env;
     parse_float := parse_float env;
     series_sum := series_sum env;
     tie_break := tie_break env;
     render := λ c _, match c with DurationVsViews => Some ValueError | _ => None end;
     open_report := open_report env |}.

(** The same two songs in the other order. *)
Definition tied_swapped : DataFrame :=
  cleaned_frame (parse_float env) header (reverse tied_songs).

(** The grouped table of both frames: one song a channel, equal totals. *)
Definition tied_totals : list (float64 * (cell * Z)) :=
  [(views_tied, (Str "Channel A", 1)); (views_tied, (Str "Channel B", 1))].

(** The library with another sort. *)
Definition sorting (tb : list (float64 * (cell * Z)) → list (float64 * (cell * Z)))
    : Env :=
  {| csv_contents := csv_contents env;
     parse_float := parse_float env;
     series_sum := series_sum env;
     tie_break := tb;
     render := render env;
     open_report := open_report env |}.

(** One song whose view count is infinite ([inf] in the file). *)
Definition boundless : DataFrame :=
  cleaned_frame (parse_float env) header
    [song "Song One" "Channel B" (Num (S754_infinity false)) (int 282)
       (int 31000000) "4:42"].

Definition is_infinite (c : cell) : bool :=
  match c with
  | Num (S754_infinity _) => true
  | _ => false
  end.

(** A library whose histogram refuses a range that is not finite: the third
    chart raises when a view count is infinite. *)
Definition histogram_env : Env :=
  {| csv_contents := csv_contents env;
     parse_float := parse_float env;
     series_sum := series_sum env;
     tie_break := tie_break env;
     render := λ c df,
       match c with
       | ViewDistribution =>
           if existsb (λ r, is_infinite (cell_at r "views_in_millions")) (rows df)
           then Some ValueError else None
       | _ => None
       end;
     open_report := open_report env |}.

(** Two songs of a channel without a follower count. *)
Definition unfollowed : DataFrame :=
  cleaned_frame (parse_float env) header
    [ song "Song Four" "Channel C" (int 250000000) (int 204) (Num F64.nan) "3:24";
      song "Song Five" "Channel C" (int 90000000) (int 260) (Num F64.nan) "4:20" ].

(** A console whose encoding is ASCII. *)
Definition ascii_console : Console :=
  λ _ ev, if glyph ev then Some UnicodeEncodeError else None.

End Sample.

(** * Properties *)

(** ** The order of doubles *)

Lemma key_lt_irrefl a : ¬ F64.key_lt a a.
Proof. destruct a as [[a1 a2] a3]. unfold F64.key_lt. lia. Qed.

Lemma key_lt_trans a b c : F64.key_lt a b → F64.key_lt b c → F64.key_lt a c.
Proof.
  destruct a as [[a1 a2] a3], b as [[b1 b2] b3], c as [[c1 c2] c3].
  unfold F64.key_lt. lia.
Qed.

Lemma key_lt_total a b : F64.key_lt a b ∨ a = b ∨ F64.key_lt b a.
Proof.
  destruct a as [[a1 a2] a3], b as [[b1 b2] b3]. unfold F64.key_lt.
  destruct (Z.lt_trichotomy a1 b1) as [?|[->|?]]; [lia| |lia].
  destruct (Z.lt_trichotomy a2 b2) as [?|[->|?]]; [lia| |lia].
  destruct (Z.lt_trichotomy a3 b3) as [?|[->|?]]; [lia|auto|lia].
Qed.

Ltac key_close :=
  solve [ eexists; (split; [reflexivity|]); unfold F64.key_lt;
          split; split; intros H;
          first [ discriminate H | reflexivity | lia | injection H; lia
                | f_equal; lia ] ].

Lemma SFcompare_key x y :
  F64.is_nan x = false → F64.is_nan y = false →
  ∃ c, SFcompare x y = Some c ∧
       (c = Lt ↔ F64.key_lt (F64.key x) (F64.key y)) ∧
       (c = Eq ↔ F64.key x = F64.key y).
Proof.
  intros Hx Hy.
  destruct x as [sx|sx| |sx mx ex], y as [sy|sy| |sy my ey]; try discriminate;
    try (destruct sx); try (destruct sy); simpl; try key_close.
  all: destruct (Z.compare_spec ex ey) as [->|He|He]; try key_close.
  all: change (Pos.compare_cont Eq mx my) with (Pos.compare mx my);
      destruct (Pos.compare_spec mx my) as [->|Hm|Hm]; simpl; try key_close.
Qed.

Lemma ltb_key x y :
  F64.is_nan x = false → F64.is_nan y = false →
  F64.ltb x y = true ↔ F64.key_lt (F64.key x) (F64.key y).
Proof.
  intros Hx Hy. destruct (SFcompare_key x y Hx Hy) as (c & Hc & Hlt & _).
  unfold F64.ltb, SFltb. rewrite Hc. rewrite <- Hlt.
  destruct c; split; congruence.
Qed.

Lemma eqb_key x y :
  F64.is_nan x = false → F64.is_nan y = false →
  F64.eqb x y = true ↔ F64.key x = F64.key y.
Proof.
  intros Hx Hy. destruct (SFcompare_key x y Hx Hy) as (c & Hc & _ & Heq).
  unfold F64.eqb, SFeqb. rewrite Hc. rewrite <- Heq.
  destruct c; split; congruence.
Qed.

Lemma geb_key x y :
  F64.is_nan x = false → F64.is_nan y = false →
  F64.geb x y = true ↔ ¬ F64.key_lt (F64.key x) (F64.key y).
Proof.
  intros Hx Hy. destruct (SFcompare_key y x Hy Hx) as (c & Hc & Hlt & Heq).
  unfold F64.geb, SFleb. rewrite Hc.
  destruct (key_lt_total (F64.key x) (F64.key y)) as [H|[H|H]].
  - split; [|tauto]. intros Hle Hxy. destruct c; try discriminate.
    + rewrite (proj1 Heq eq_refl) in H. by apply key_lt_irrefl in H.
    + eapply key_lt_irrefl, key_lt_trans; [apply H|]. by apply Hlt.
  - rewrite (proj2 Heq (eq_sym H)). split; [|done].
    intros _. rewrite H. apply key_lt_irrefl.
  - rewrite (proj2 Hlt H). split; [|done].
    intros _ H'. eapply key_lt_irrefl, key_lt_trans; [apply H|apply H'].
Qed.

Lemma eqb_nan_l x y : F64.is_nan x = true → F64.eqb x y = false.
Proof. by destruct x. Qed.

Lemma eqb_nan_r x y : F64.is_nan y = true → F64.eqb x y = false.
Proof. by destruct x, y. Qed.

Lemma gtb_nan_l x y : F64.is_nan x = true → F64.gtb x y = false.
Proof. by destruct x, y. Qed.

Lemma gtb_nan_r x y : F64.is_nan y = true → F64.gtb x y = false.
Proof. by destruct y. Qed.

Lemma bool_iff_true (b : bool) (P : Prop) :
  (b = true ↔ P) → (b = true ∧ P) ∨ (b = false ∧ ¬ P).
Proof. destruct b; intros [H1 H2]; [left|right]; split; auto. intros HP. by apply H2 in HP. Qed.

(** The three popularity categories: exactly one holds of a value that is
    not NaN. *)
Lemma category_exactly_one x :
  F64.is_nan x = false →
  Z.b2z (is_mega_hit x) + Z.b2z (is_popular x) + Z.b2z (is_moderate x) = 1.
Proof.
  intros Hx.
  assert (H89 : F64.key_lt (F64.key F64.c1e8) (F64.key F64.c1e9))
    by (unfold F64.key_lt; simpl; lia).
  unfold is_mega_hit, is_popular, is_moderate.
  destruct (bool_iff_true _ _ (geb_key x F64.c1e9 Hx eq_refl)) as [[-> G9]|[-> G9]];
  destruct (bool_iff_true _ _ (geb_key x F64.c1e8 Hx eq_refl)) as [[-> G8]|[-> G8]];
  destruct (bool_iff_true _ _ (ltb_key x F64.c1e9 Hx eq_refl)) as [[-> L9]|[-> L9]];
  destruct (bool_iff_true _ _ (ltb_key x F64.c1e8 Hx eq_refl)) as [[-> L8]|[-> L8]];
  simpl; try reflexivity; exfalso; try tauto.
  all: apply G9; eapply key_lt_trans; eassumption.
Qed.

(** ** Series and frames *)

Lemma zip_with_map_same {A B C} (g : A → B → C) (f : A → B) (l : list A) :
  zip_with g l (map f l) = map (λ x, g x (f x)) l.
Proof. induction l as [|x l IH]; simpl; [done|by rewrite IH]. Qed.

Lemma getitem_present df c :
  c ∈ columns df → getitem df c = inr (map (λ r, cell_at r c) (rows df)).
Proof. intros H. unfold getitem. by rewrite decide_True. Qed.

Lemma getitem_absent df c :
  c ∉ columns df → getitem df c = inl (KeyError [c]).
Proof. intros H. unfold getitem. by rewrite decide_False. Qed.

Lemma add_column_present c header : c ∈ header → add_column c header = header.
Proof. intros H. unfold add_column. by rewrite decide_True. Qed.

Lemma elem_of_add_column c d header :
  c ∈ add_column d header ↔ c = d ∨ c ∈ header.
Proof.
  unfold add_column. destruct (decide (d ∈ header)) as [H|H].
  - split; [auto|]. by intros [->|?].
  - rewrite elem_of_app, list_elem_of_singleton. tauto.
Qed.

Lemma setitem_rowwise df c (f : nat * gmap string cell → cell) :
  setitem df c (map f (rows df))
  = {| columns := add_column c (columns df);
       rows := map (λ r, set_cell c (f r) r) (rows df) |}.
Proof. unfold setitem. by rewrite zip_with_map_same. Qed.


Lemma floats_num (s : list cell) :
  Forall is_num s → floats s = inr (map num_value s).
Proof.
  induction 1 as [|c s [x ->] _ IH]; simpl; [done|]. by rewrite IH.
Qed.

Lemma series_div_num (s : list cell) k :
  Forall is_num s →
  series_div s k = inr (map (λ c, Num (F64.div (num_value c) k)) s).
Proof.
  induction 1 as [|c s [x ->] _ IH]; simpl; [done|]. by rewrite IH.
Qed.

Lemma cell_at_set_cell_eq c v r : cell_at (set_cell c v r) c = v.
Proof. unfold cell_at, set_cell. simpl. by rewrite lookup_insert_eq. Qed.

Lemma cell_at_set_cell_ne c d v r : c ≠ d → cell_at (set_cell c v r) d = cell_at r d.
Proof. intros H. unfold cell_at, set_cell. simpl. by rewrite lookup_insert_ne. Qed.

Lemma coerce_is_num parse c : is_num (coerce parse c).
Proof. destruct c; eexists; reflexivity. Qed.

(** ** Running methods *)

Lemma bind_run {A B} (m : M A) (f : A → M B) w :
  (m ≫= f) w = match m w with
               | (inl e, w') => (inl e, w')
               | (inr x, w') => f x w'
               end.
Proof. reflexivity. Qed.

Lemma assign_run c f df s w :
  self_df w = Some df → f df = inr s →
  assign c f w = (inr tt, with_df (setitem df c s) w).
Proof.
  intros Hdf Hf. unfold assign, get_df, get_df_or, lift, set_df.
  rewrite !bind_run, Hdf, Hf. reflexivity.
Qed.

Lemma assign_raise c f df e w :
  self_df w = Some df → f df = inl e → assign c f w = (inl e, w).
Proof.
  intros Hdf Hf. unfold assign, get_df, get_df_or, lift.
  rewrite !bind_run, Hdf, Hf. reflexivity.
Qed.

Lemma print_run ev w : print ev w = (inr tt, with_output [ev] w).
Proof. reflexivity. Qed.

Lemma read_csv_run env path header lines :
  csv_contents env path = inr (header, lines) →
  read_csv env path = inr {| columns := header; rows := zip (seq 0 (length lines)) lines |}.
Proof. intros H. unfold read_csv. rewrite H. reflexivity. Qed.

Lemma assign_coerce_run parse c df w :
  self_df w = Some df → c ∈ columns df →
  assign c (λ df, s ← getitem df c; mret (to_numeric parse s)) w
  = (inr tt, with_df {| columns := columns df;
                        rows := map (coerce_column parse c) (rows df) |} w).
Proof.
  intros Hdf Hc. erewrite assign_run; [|done|].
  2:{ rewrite getitem_present by done. reflexivity. }
  unfold to_numeric. rewrite map_map.
  rewrite (setitem_rowwise df c (λ r, coerce parse (cell_at r c))).
  by rewrite add_column_present.
Qed.

Lemma assign_quotient_run c src k df w :
  self_df w = Some df → src ∈ columns df →
  Forall (λ r, is_num (cell_at r src)) (rows df) →
  assign c (λ df, s ← getitem df src; series_div s k) w
  = (inr tt, with_df {| columns := add_column c (columns df);
                        rows := map (quotient_column c src k) (rows df) |} w).
Proof.
  intros Hdf Hc Hnum. erewrite assign_run; [|done|].
  2:{ rewrite getitem_present by done. cbn.
      apply series_div_num. by apply Forall_map. }
  rewrite map_map.
  by rewrite (setitem_rowwise df c
                (λ r, Num (F64.div (num_value (cell_at r src)) k))).
Qed.

Lemma dropna_run subset df :
  Forall (λ c, c ∈ columns df) subset →
  dropna subset df
  = inr {| columns := columns df;
           rows := List.filter (complete subset) (rows df) |}.
Proof.
  intros H. unfold dropna.
  replace (List.filter _ subset) with (@nil string); [done|].
  symmetry. induction H as [|c l Hc _ IH]; [done|]. simpl.
  rewrite bool_decide_eq_false_2; [exact IH|]. by intros ?.
Qed.

Lemma coerce_row_num parse r c :
  c ∈ ["view_count"; "duration"; "channel_follower_count"] →
  is_num (cell_at (coerce_row parse r) c).
Proof.
  intros Hc. unfold coerce_row, coerce_column.
  repeat (apply elem_of_cons in Hc as [->|Hc]);
    [ | |  | by apply elem_of_nil in Hc].
  - rewrite !cell_at_set_cell_ne by done. rewrite cell_at_set_cell_eq.
    apply coerce_is_num.
  - rewrite cell_at_set_cell_ne by done. rewrite cell_at_set_cell_eq.
    apply coerce_is_num.
  - rewrite cell_at_set_cell_eq. apply coerce_is_num.
Qed.

Lemma length_labelled {A} (l : list A) : length (zip (seq 0 (length l)) l) = length l.
Proof. rewrite length_zip_with, length_seq. lia. Qed.

Lemma coerced_num parse (l : list (nat * gmap string cell)) c :
  c ∈ ["view_count"; "duration"; "channel_follower_count"] →
  Forall (λ r, is_num (cell_at r c))
    (List.filter (complete required) (map (coerce_row parse) l)).
Proof.
  intros Hc. apply Forall_forall. intros r Hr.
  apply list_elem_of_In, filter_In in Hr as [Hr _].
  apply in_map_iff in Hr as (r0 & <- & _). by apply coerce_row_num.
Qed.

Lemma quotient_column_other c src k r d :
  c ≠ d → cell_at (quotient_column c src k r) d = cell_at r d.
Proof. intros H. unfold quotient_column. by rewrite cell_at_set_cell_ne. Qed.

Lemma add_derived_features_run df w :
  self_df w = Some df →
  "duration" ∈ columns df → "view_count" ∈ columns df →
  Forall (λ r, is_num (cell_at r "duration")) (rows df) →
  Forall (λ r, is_num (cell_at r "view_count")) (rows df) →
  add_derived_features w
  = (inr tt,
     with_df {| columns := add_column "views_in_millions"
                             (add_column "views_in_billions"
                                (add_column "duration_minutes" (columns df)));
                rows := map derive_row (rows df) |} w).
Proof.
  intros Hdf Hd Hv Nd Nv. unfold add_derived_features.
  unfold add_duration_minutes, add_views_in_billions, add_views_in_millions.
  rewrite bind_run; erewrite assign_quotient_run; [|done..].
  rewrite bind_run; erewrite assign_quotient_run; [|reflexivity|..].
  2:{ cbn [columns]. apply elem_of_add_column. by right. }
  2:{ cbn [rows]. apply Forall_map. eapply Forall_impl; [exact Nv|].
      intros r Hr. cbn beta. by rewrite quotient_column_other. }
  erewrite assign_quotient_run; [|reflexivity|..].
  2:{ cbn [columns]. rewrite !elem_of_add_column. auto. }
  2:{ cbn [rows]. rewrite map_map. apply Forall_map.
      eapply Forall_impl; [exact Nv|].
      intros r Hr. cbn beta. by rewrite !quotient_column_other. }
  cbn [columns rows]. rewrite !map_map. reflexivity.
Qed.

Lemma with_df_with_df d1 d2 w : with_df d2 (with_df d1 w) = with_df d2 w.
Proof. reflexivity. Qed.

Lemma with_df_with_output d es w :
  with_output es (with_df d w) = with_df d (with_output es w).
Proof. reflexivity. Qed.

Lemma with_output_app es1 es2 w :
  with_output es2 (with_output es1 w) = with_output (es1 ++ es2) w.
Proof. unfold with_output. cbn. by rewrite <- app_assoc. Qed.

Lemma get_df_with_df d w : get_df (with_df d w) = (inr d, with_df d w).
Proof. reflexivity. Qed.

Lemma load_and_clean_data_run env path w header lines :
  csv_contents env path = inr (header, lines) →
  "view_count" ∈ header → "duration" ∈ header →
  "channel_follower_count" ∈ header → "channel" ∈ header →
  let df := cleaned_frame (parse_float env) header lines in
  let removed := Z.of_nat (length lines) - len df in
  load_and_clean_data env path w
  = (inr df,
     {| self_df := Some df;
        self_insights := self_insights w;
        stdout := stdout w
          ++ [Line "YOUTUBE MUSIC ANALYTICS DASHBOARD";
              Line "[1/6] Loading and cleaning data...";
              Loaded (Z.of_nat (length lines)) (Z.of_nat (length header))]
          ++ (if 0 <? removed then [Removed removed] else [])
          ++ [Line "Data cleaning completed"];
        stderr := stderr w;
        files := files w |}).
Proof.
  intros Hcsv Hv Hd Hf Hc df removed.
  unfold load_and_clean_data.
  rewrite bind_run, print_run.
  rewrite bind_run, print_run.
  rewrite bind_run. unfold lift at 1. rewrite (read_csv_run _ _ _ _ Hcsv).
  rewrite bind_run. unfold set_df at 1.
  rewrite bind_run, print_run.
  rewrite bind_run; erewrite assign_coerce_run; [|reflexivity|done].
  cbn [columns rows].
  rewrite bind_run; erewrite assign_coerce_run; [|reflexivity|done].
  cbn [columns rows].
  rewrite bind_run; erewrite assign_coerce_run; [|reflexivity|done].
  cbn [columns rows]. rewrite !map_map.
  change (λ x, coerce_column ?p "channel_follower_count"
                 (coerce_column ?p "duration" (coerce_column ?p "view_count" x)))
    with (coerce_row p).
  rewrite bind_run, get_df_with_df.
  rewrite bind_run. unfold lift at 1.
  rewrite dropna_run by (cbn [columns]; repeat constructor; done).
  cbn [columns rows].
  rewrite bind_run. unfold set_df at 1.
  assert (Hlen : len {| columns := header;
                         rows := List.filter (complete ["view_count"; "duration"; "channel"])
                                   (map (coerce_row (parse_float env))
                                      (zip (seq 0 (length lines)) lines)) |}
                 = len df).
  { unfold len, df, cleaned_frame, cleaned_rows. cbn [rows].
    by rewrite length_map. }
  rewrite Hlen.
  replace (len {| columns := header;
                  rows := map (coerce_row (parse_float env))
                            (zip (seq 0 (length lines)) lines) |})
    with (Z.of_nat (length lines))
    by (unfold len; cbn [rows]; by rewrite length_map, length_labelled).
  fold removed.
  assert (Hderive : ∀ w0 : World,
    self_df w0 = Some {| columns := header;
                         rows := List.filter (complete required)
                                   (map (coerce_row (parse_float env))
                                      (zip (seq 0 (length lines)) lines)) |} →
    add_derived_features w0 = (inr tt, with_df df w0)).
  { intros w0 Hw0. rewrite (add_derived_features_run _ _ Hw0);
      cbn [columns rows]; try done.
    - apply coerced_num. set_solver.
    - apply coerced_num. set_solver. }
  rewrite bind_run.
  destruct (0 <? removed).
  - rewrite print_run. rewrite bind_run, Hderive by reflexivity.
    rewrite bind_run, print_run.
    repeat first [ rewrite with_df_with_output | rewrite with_df_with_df
                 | rewrite with_output_app ].
    rewrite get_df_with_df.
    unfold len at 1. cbn [rows]. rewrite length_labelled.
    reflexivity.
  - cbn [mret M_ret]. rewrite bind_run, Hderive by reflexivity.
    rewrite bind_run, print_run.
    repeat first [ rewrite with_df_with_output | rewrite with_df_with_df
                 | rewrite with_output_app ].
    rewrite get_df_with_df.
    unfold len at 1. cbn [rows]. rewrite length_labelled.
    reflexivity.
Qed.

(** ** Failures of the loader *)

Lemma load_and_clean_data_unreadable env path w e :
  csv_contents env path = inl e →
  (load_and_clean_data env path w).1 = inl e.
Proof.
  intros H. unfold load_and_clean_data.
  rewrite bind_run, print_run, bind_run, print_run, bind_run.
  unfold lift at 1, read_csv. rewrite H. reflexivity.
Qed.

Lemma assign_coerce_absent parse c df w :
  self_df w = Some df → c ∉ columns df →
  assign c (λ df, s ← getitem df c; mret (to_numeric parse s)) w
  = (inl (KeyError [c]), w).
Proof.
  intros Hdf Hc. eapply assign_raise; [done|].
  by rewrite getitem_absent.
Qed.

Lemma load_and_clean_data_absent env path w header lines c rest :
  csv_contents env path = inr (header, lines) →
  List.filter (λ c, bool_decide (c ∉ header))
    ["view_count"; "duration"; "channel_follower_count"; "channel"] = c :: rest →
  (load_and_clean_data env path w).1 = inl (KeyError [c]).
Proof.
  intros Hcsv Hfilter.
  unfold load_and_clean_data.
  rewrite bind_run, print_run.
  rewrite bind_run, print_run.
  rewrite bind_run. unfold lift at 1. rewrite (read_csv_run _ _ _ _ Hcsv).
  rewrite bind_run. unfold set_df at 1.
  rewrite bind_run, print_run.
  rewrite bind_run.
  cbn [List.filter] in Hfilter.
  destruct (decide ("view_count" ∈ header)) as [Hv|Hv].
  2:{ rewrite bool_decide_eq_true_2 in Hfilter by done.
      injection Hfilter as <- _.
      erewrite assign_coerce_absent; [reflexivity|reflexivity|done]. }
  rewrite bool_decide_eq_false_2 in Hfilter by (by intros ?).
  erewrite assign_coerce_run; [|reflexivity|done]. cbn [columns rows].
  rewrite bind_run.
  destruct (decide ("duration" ∈ header)) as [Hd|Hd].
  2:{ rewrite bool_decide_eq_true_2 in Hfilter by done.
      injection Hfilter as <- _.
      erewrite assign_coerce_absent; [reflexivity|reflexivity|done]. }
  rewrite bool_decide_eq_false_2 in Hfilter by (by intros ?).
  erewrite assign_coerce_run; [|reflexivity|done]. cbn [columns rows].
  rewrite bind_run.
  destruct (decide ("channel_follower_count" ∈ header)) as [Hf|Hf].
  2:{ rewrite bool_decide_eq_true_2 in Hfilter by done.
      injection Hfilter as <- _.
      erewrite assign_coerce_absent; [reflexivity|reflexivity|done]. }
  rewrite bool_decide_eq_false_2 in Hfilter by (by intros ?).
  erewrite assign_coerce_run; [|reflexivity|done]. cbn [columns rows].
  destruct (decide ("channel" ∈ header)) as [Hc|Hc].
  { rewrite bool_decide_eq_false_2 in Hfilter by (by intros ?). done. }
  rewrite bool_decide_eq_true_2 in Hfilter by done.
  injection Hfilter as <- _.
  rewrite bind_run. unfold get_df, get_df_or. cbn [self_df with_df].
  rewrite bind_run. unfold lift at 1, dropna. cbn [columns List.filter].
  rewrite (bool_decide_eq_false_2 ("view_count" ∉ header)) by (by intros ?).
  rewrite (bool_decide_eq_false_2 ("duration" ∉ header)) by (by intros ?).
  rewrite (bool_decide_eq_true_2 ("channel" ∉ header)) by done.
  reflexivity.
Qed.

Lemma filter_absent_nil (header cs : list string) :
  List.filter (λ c, bool_decide (c ∉ header)) cs = [] ↔ Forall (λ c, c ∈ header) cs.
Proof.
  induction cs as [|c cs IH]; simpl; [by split|].
  destruct (decide (c ∈ header)) as [H|H].
  - rewrite bool_decide_eq_false_2 by (by intros ?). rewrite IH.
    split; [by constructor|by inversion 1].
  - rewrite bool_decide_eq_true_2 by done. split; [done|].
    by inversion 1.
Qed.

(** The loader returns a frame exactly when the file parses and holds the
    four columns it reads. *)
Lemma load_and_clean_data_returns env path w df w' :
  load_and_clean_data env path w = (inr df, w') →
  ∃ header lines,
    csv_contents env path = inr (header, lines) ∧
    Forall (λ c, c ∈ header)
      ["view_count"; "duration"; "channel_follower_count"; "channel"].
Proof.
  intros Hrun.
  destruct (csv_contents env path) as [e|[header lines]] eqn:Hcsv.
  { pose proof (load_and_clean_data_unreadable env path w e Hcsv) as H.
    rewrite Hrun in H. discriminate. }
  exists header, lines. split; [done|].
  apply filter_absent_nil.
  destruct (List.filter _ _) as [|c rest] eqn:Hf; [done|].
  pose proof (load_and_clean_data_absent env path w _ _ _ _ Hcsv Hf) as H.
  rewrite Hrun in H. discriminate.
Qed.

(** ** What the cleaned frame holds *)

Lemma derive_row_base r c :
  c ∈ ["view_count"; "duration"; "channel"; "channel_follower_count"] →
  cell_at (derive_row r) c = cell_at r c.
Proof.
  intros Hc. unfold derive_row.
  repeat (apply elem_of_cons in Hc as [->|Hc]);
    [ | | | | by apply elem_of_nil in Hc];
    by rewrite !quotient_column_other.
Qed.

Lemma complete_label subset (i j : nat) (m : gmap string cell) :
  complete subset (i, m) = complete subset (j, m).
Proof. reflexivity. Qed.

Lemma coerce_row_label parse (i : nat) (m : gmap string cell) :
  (coerce_row parse (i, m)).2 = (coerce_row parse (0%nat, m)).2.
Proof. reflexivity. Qed.

Lemma cleaned_rows_complete parse lines r c :
  r ∈ cleaned_rows parse lines → c ∈ required → isna (cell_at r c) = false.
Proof.
  unfold cleaned_rows. intros Hr Hc.
  apply list_elem_of_In, in_map_iff in Hr as (r0 & <- & Hr0).
  apply filter_In in Hr0 as [_ Hcomplete].
  rewrite derive_row_base.
  2:{ unfold required in Hc. rewrite !elem_of_cons in *. tauto. }
  unfold complete in Hcomplete. rewrite forallb_forall in Hcomplete.
  apply list_elem_of_In, Hcomplete in Hc. unfold notna in Hc.
  by destruct (isna _).
Qed.

Lemma length_cleaned_rows_le parse lines :
  (length (cleaned_rows parse lines) ≤ length lines)%nat.
Proof.
  unfold cleaned_rows. rewrite length_map.
  etrans; [apply List.filter_length_le|].
  by rewrite length_map, length_labelled.
Qed.

(** The rows the loader drops are the lines that lack a required column. *)
Lemma length_filter_labelled parse (lines : list (gmap string cell)) (labels : list nat) :
  length labels = length lines →
  (length (List.filter (complete required) (map (coerce_row parse) (zip labels lines)))
   + length (List.filter (λ line, negb (complete required (coerce_row parse (0%nat, line)))) lines)
   = length lines)%nat.
Proof.
  revert labels. induction lines as [|line lines IH]; intros [|i labels] Hlen;
    try discriminate; [done|].
  simpl in Hlen. injection Hlen as Hlen. specialize (IH labels Hlen).
  cbn [zip zip_with map List.filter].
  change (complete required (coerce_row parse (i, line)))
    with (complete required (coerce_row parse (0%nat, line))).
  destruct (complete required (coerce_row parse (0%nat, line)));
    cbn [negb length]; lia.
Qed.

Lemma length_cleaned_rows parse lines :
  (length (cleaned_rows parse lines)
   + length (List.filter (λ line, negb (complete required (coerce_row parse (0%nat, line)))) lines)
   = length lines)%nat.
Proof.
  unfold cleaned_rows. rewrite length_map.
  apply length_filter_labelled. by rewrite length_seq.
Qed.

Lemma filter_ext_Forall {A} (f g : A → bool) (l : list A) :
  Forall (λ x, f x = g x) l → List.filter f l = List.filter g l.
Proof.
  induction 1 as [|x l Hx _ IH]; simpl; [done|]. by rewrite Hx, IH.
Qed.

(** C1: the loader never adds rows, leaves no row with a missing
    view_count, duration or channel, and reports as removed the number of
    rows it dropped; five lines of which exactly one lacks view_count give
    four rows and a removed count of 1. *)
Theorem load_and_clean_data_cleans env path w header lines :
  csv_contents env path = inr (header, lines) →
  Forall (λ c, c ∈ header)
    ["view_count"; "duration"; "channel_follower_count"; "channel"] →
  ∃ df w',
    load_and_clean_data env path w = (inr df, w') ∧
    self_df w' = Some df ∧
    len df ≤ Z.of_nat (length lines) ∧
    (∀ r c, r ∈ rows df → c ∈ ["view_count"; "duration"; "channel"] →
            isna (cell_at r c) = false) ∧
    let removed_count := Z.of_nat (length lines) - len df in
    stdout w' = stdout w
      ++ [Line "YOUTUBE MUSIC ANALYTICS DASHBOARD";
          Line "[1/6] Loading and cleaning data...";
          Loaded (Z.of_nat (length lines)) (Z.of_nat (length header))]
      ++ (if 0 <? removed_count then [Removed removed_count] else [])
      ++ [Line "Data cleaning completed"] ∧
    (length lines = 5%nat →
     length (List.filter (lacks (parse_float env) "view_count") lines) = 1%nat →
     (∀ line, line ∈ lines →
        lacks (parse_float env) "duration" line = false ∧
        lacks (parse_float env) "channel" line = false) →
     len df = 4 ∧ removed_count = 1 ∧ Removed 1 ∈ stdout w').
Proof.
  intros Hcsv Hcols.
  pose proof Hcols as Hcols'.
  apply Forall_cons in Hcols' as [Hv Hcols'].
  apply Forall_cons in Hcols' as [Hd Hcols'].
  apply Forall_cons in Hcols' as [Hf Hcols'].
  apply Forall_cons in Hcols' as [Hc _].
  eexists _, _. split.
  { by apply load_and_clean_data_run with (header := header) (lines := lines). }
  cbn [self_df stdout]. split; [done|].
  assert (Hle : len (cleaned_frame (parse_float env) header lines)
                ≤ Z.of_nat (length lines)).
  { unfold len. cbn [rows cleaned_frame].
    pose proof (length_cleaned_rows_le (parse_float env) lines). lia. }
  split; [exact Hle|].
  split. { intros r c Hr Hc'. eapply cleaned_rows_complete; [exact Hr|exact Hc']. }
  split; [reflexivity|].
  intros H5 Hone Hrest.
  pose proof (length_cleaned_rows (parse_float env) lines) as Hcount.
  rewrite (filter_ext_Forall _ (lacks (parse_float env) "view_count")) in Hcount.
  2:{ apply Forall_forall. intros line Hline.
      destruct (Hrest line Hline) as [Hdur Hch].
      unfold lacks in *. unfold complete, required. cbn [forallb].
      unfold notna. rewrite Hdur, Hch. simpl.
      by destruct (isna (cell_at _ "view_count")). }
  rewrite Hone, H5 in Hcount.
  assert (Hlen : len (cleaned_frame (parse_float env) header lines) = 4).
  { unfold len. cbn [rows cleaned_frame]. lia. }
  rewrite Hlen, H5. split; [done|]. split; [done|].
  cbn. apply elem_of_app. right.
  do 3 apply list_elem_of_further. apply list_elem_of_here.
Qed.

Lemma load_and_clean_data_cleans_witness :
  ∃ df w',
    load_and_clean_data Sample.env "songs.csv" Sample.world = (inr df, w') ∧
    len df = 4 ∧ Removed 1 ∈ stdout w'.
Proof.
  destruct (load_and_clean_data_cleans Sample.env "songs.csv" Sample.world
              Sample.header Sample.five_songs)
    as (df & w' & Hrun & _ & _ & _ & _ & Hscenario).
  - reflexivity.
  - unfold Sample.header. repeat constructor; set_solver.
  - exists df, w'. split; [exact Hrun|].
    destruct Hscenario as (H4 & _ & Hprinted).
    + reflexivity.
    + vm_compute. reflexivity.
    + intros line Hline.
      unfold Sample.five_songs in Hline.
      repeat (apply elem_of_cons in Hline as [->|Hline]);
        [ | | | | | exfalso; by apply elem_of_nil in Hline];
        vm_compute; split; reflexivity.
    + by split.
Defined.

(** ** The error taxonomy *)

Lemma class_name_builtin e :
  class_name e ≠ "DataLoadError" ∧ class_name e ≠ "SchemaError".
Proof. by destruct e. Qed.

(** C3, as the specification states it, fails where the file does not exist:
    the loader ends with the exception of [pd.read_csv], which is no
    [DataLoadError]. *)
Lemma error_taxonomy_counterexample :
  ¬ error_taxonomy Sample.env "missing.csv" Sample.world.
Proof.
  intros [Hload _].
  destruct (proj2 Hload) as (e & _ & Hclass).
  - exists FileNotFoundError. reflexivity.
  - by destruct (class_name_builtin e) as [H _].
Qed.

(** C3, amended: the loader ends with the exception [pd.read_csv] raised
    when the file cannot be read, with a [KeyError] naming the first of
    view_count, duration, channel_follower_count and channel that the header
    lacks, and with the cleaned frame otherwise; it never raises a
    [DataLoadError] or a [SchemaError]. *)
Theorem load_and_clean_data_outcome env path w :
  (load_and_clean_data env path w).1 = load_outcome env path ∧
  ¬ raises_class "DataLoadError" (load_and_clean_data env path w) ∧
  ¬ raises_class "SchemaError" (load_and_clean_data env path w).
Proof.
  split.
  - unfold load_outcome.
    destruct (csv_contents env path) as [e|[header lines]] eqn:Hcsv.
    { by apply load_and_clean_data_unreadable. }
    destruct (List.filter _ _) as [|c rest] eqn:Hf.
    + apply filter_absent_nil in Hf.
      pose proof Hf as Hcols.
      apply Forall_cons in Hf as [Hv Hf].
      apply Forall_cons in Hf as [Hd Hf].
      apply Forall_cons in Hf as [Hf' Hf].
      apply Forall_cons in Hf as [Hc _].
      by rewrite (load_and_clean_data_run env path w header lines).
    + by eapply load_and_clean_data_absent.
  - split; intros (e & _ & Hclass); by destruct (class_name_builtin e).
Qed.

(** ** Derived columns *)

Lemma set_cell_same c v (r : nat * gmap string cell) :
  r.2 !! c = Some v → set_cell c v r = r.
Proof.
  intros H. destruct r as [i m]. unfold set_cell. simpl in *.
  by rewrite insert_id.
Qed.

Lemma map_id_Forall {A} (f : A → A) (l : list A) :
  Forall (λ x, f x = x) l → map f l = l.
Proof. induction 1 as [|x l Hx _ IH]; simpl; [done|]. by rewrite Hx, IH. Qed.

Lemma derive_row_duration_minutes r :
  (derive_row r).2 !! "duration_minutes"
  = Some (Num (F64.div (num_value (cell_at r "duration")) F64.c60)).
Proof.
  unfold derive_row, quotient_column, set_cell. cbn [fst snd].
  rewrite !lookup_insert_ne by done. by rewrite lookup_insert_eq.
Qed.

Lemma derive_row_views_in_billions r :
  (derive_row r).2 !! "views_in_billions"
  = Some (Num (F64.div (num_value (cell_at r "view_count")) F64.c1e9)).
Proof.
  unfold derive_row, quotient_column at 1 2, set_cell. cbn [fst snd].
  rewrite !lookup_insert_ne by done. rewrite lookup_insert_eq.
  by rewrite quotient_column_other.
Qed.

Lemma derive_row_views_in_millions r :
  (derive_row r).2 !! "views_in_millions"
  = Some (Num (F64.div (num_value (cell_at r "view_count")) F64.c1e6)).
Proof.
  unfold derive_row, quotient_column at 1, set_cell. cbn [fst snd].
  rewrite lookup_insert_eq. by rewrite !quotient_column_other.
Qed.

Lemma cleaned_rows_inv parse lines r :
  r ∈ cleaned_rows parse lines →
  ∃ r0, r = derive_row r0 ∧
        is_num (cell_at r0 "duration") ∧ is_num (cell_at r0 "view_count") ∧
        is_num (cell_at r0 "channel_follower_count") ∧
        complete required r0 = true.
Proof.
  unfold cleaned_rows. intros Hr.
  apply list_elem_of_In, in_map_iff in Hr as (r0 & <- & Hr0).
  exists r0. split; [done|].
  apply filter_In in Hr0 as [Hr0 Hcomplete].
  apply in_map_iff in Hr0 as (r1 & <- & _).
  repeat split; try done; apply coerce_row_num;
    rewrite !elem_of_cons; auto.
Qed.

(** Recomputing a quotient column on rows that already hold it changes
    nothing. *)
Lemma assign_quotient_again c src k df w :
  self_df w = Some df → c ∈ columns df → src ∈ columns df →
  Forall (λ r, is_num (cell_at r src) ∧
               r.2 !! c = Some (Num (F64.div (num_value (cell_at r src)) k)))
         (rows df) →
  assign c (λ df, s ← getitem df src; series_div s k) w = (inr tt, with_df df w).
Proof.
  intros Hdf Hc Hsrc Hrows.
  rewrite (assign_quotient_run c src k df w Hdf Hsrc).
  2:{ eapply Forall_impl; [exact Hrows|]. by intros r [? _]. }
  rewrite add_column_present by done.
  rewrite map_id_Forall.
  - by destruct df.
  - eapply Forall_impl; [exact Hrows|]. intros r [_ Hr].
    unfold quotient_column. by apply set_cell_same.
Qed.

Lemma with_df_same df w : self_df w = Some df → with_df df w = w.
Proof. destruct w. simpl. by intros ->. Qed.

Lemma load_and_clean_data_frame env path w df w' :
  load_and_clean_data env path w = (inr df, w') →
  self_df w' = Some df ∧
  ∃ header lines,
    df = cleaned_frame (parse_float env) header lines ∧
    Forall (λ c, c ∈ header)
      ["view_count"; "duration"; "channel_follower_count"; "channel"].
Proof.
  intros Hrun.
  destruct (load_and_clean_data_returns _ _ _ _ _ Hrun)
    as (header & lines & Hcsv & Hcols).
  pose proof Hcols as Hcols'.
  apply Forall_cons in Hcols' as [Hv Hcols'].
  apply Forall_cons in Hcols' as [Hd Hcols'].
  apply Forall_cons in Hcols' as [Hf Hcols'].
  apply Forall_cons in Hcols' as [Hc _].
  rewrite (load_and_clean_data_run env path w header lines) in Hrun by done.
  injection Hrun as <- <-. split; [done|]. by exists header, lines.
Qed.

(** C6: the derived columns are the quotients of the base columns, and
    computing any of them again on the cleaned frame leaves every value as
    it was. *)
Theorem derived_columns_idempotent env path w df w' :
  load_and_clean_data env path w = (inr df, w') →
  (∀ r, r ∈ rows df →
     ∃ d v, cell_at r "duration" = Num d ∧ cell_at r "view_count" = Num v ∧
            cell_at r "duration_minutes" = Num (F64.div d F64.c60) ∧
            cell_at r "views_in_billions" = Num (F64.div v F64.c1e9) ∧
            cell_at r "views_in_millions" = Num (F64.div v F64.c1e6)) ∧
  add_duration_minutes w' = (inr tt, w') ∧
  add_views_in_billions w' = (inr tt, w') ∧
  add_views_in_millions w' = (inr tt, w') ∧
  add_derived_features w' = (inr tt, w').
Proof.
  intros Hrun.
  destruct (load_and_clean_data_frame _ _ _ _ _ Hrun)
    as (Hdf & header & lines & -> & Hcols).
  apply Forall_cons in Hcols as [Hv Hcols].
  apply Forall_cons in Hcols as [Hd _].
  assert (Hrows : ∀ r, r ∈ cleaned_rows (parse_float env) lines →
    ∃ d v, cell_at r "duration" = Num d ∧ cell_at r "view_count" = Num v ∧
           r.2 !! "duration_minutes" = Some (Num (F64.div d F64.c60)) ∧
           r.2 !! "views_in_billions" = Some (Num (F64.div v F64.c1e9)) ∧
           r.2 !! "views_in_millions" = Some (Num (F64.div v F64.c1e6))).
  { intros r Hr.
    destruct (cleaned_rows_inv _ _ _ Hr) as (r0 & -> & [d Hd0] & [v Hv0] & _).
    exists d, v.
    rewrite !derive_row_base by (rewrite !elem_of_cons; auto).
    rewrite derive_row_duration_minutes, derive_row_views_in_billions,
      derive_row_views_in_millions, Hd0, Hv0. done. }
  assert (H1 : add_duration_minutes w' = (inr tt, w')).
  { unfold add_duration_minutes.
    rewrite (assign_quotient_again _ _ _ _ _ Hdf);
      [by rewrite with_df_same| | |]; cbn [columns rows cleaned_frame].
    - rewrite !elem_of_add_column. auto.
    - rewrite !elem_of_add_column. auto.
    - apply Forall_forall. intros r Hr.
      destruct (Hrows r Hr) as (d & v & Hd' & Hv' & Hm & _).
      rewrite Hd'. split; [by eexists|done]. }
  assert (H2 : add_views_in_billions w' = (inr tt, w')).
  { unfold add_views_in_billions.
    rewrite (assign_quotient_again _ _ _ _ _ Hdf);
      [by rewrite with_df_same| | |]; cbn [columns rows cleaned_frame].
    - rewrite !elem_of_add_column. auto.
    - rewrite !elem_of_add_column. auto.
    - apply Forall_forall. intros r Hr.
      destruct (Hrows r Hr) as (d & v & Hd' & Hv' & _ & Hb & _).
      rewrite Hv'. split; [by eexists|done]. }
  assert (H3 : add_views_in_millions w' = (inr tt, w')).
  { unfold add_views_in_millions.
    rewrite (assign_quotient_again _ _ _ _ _ Hdf);
      [by rewrite with_df_same| | |]; cbn [columns rows cleaned_frame].
    - rewrite !elem_of_add_column. auto.
    - rewrite !elem_of_add_column. auto.
    - apply Forall_forall. intros r Hr.
      destruct (Hrows r Hr) as (d & v & Hd' & Hv' & _ & _ & Hm).
      rewrite Hv'. split; [by eexists|done]. }
  split; [|split; [exact H1|split; [exact H2|split; [exact H3|]]]].
  - intros r Hr. destruct (Hrows r Hr) as (d & v & Hd' & Hv' & Hm & Hb & Hmi).
    exists d, v. unfold cell_at in *. rewrite Hm, Hb, Hmi. done.
  - unfold add_derived_features.
    rewrite bind_run, H1. cbn beta iota.
    rewrite bind_run, H2. cbn beta iota. exact H3.
Qed.

Lemma derived_columns_idempotent_witness :
  add_derived_features
    (load_and_clean_data Sample.env "songs.csv" Sample.world).2
  = (inr tt, (load_and_clean_data Sample.env "songs.csv" Sample.world).2).
Proof.
  destruct (load_and_clean_data Sample.env "songs.csv" Sample.world)
    as [[e|df] w'] eqn:Hrun.
  - vm_compute in Hrun. discriminate Hrun.
  - apply (derived_columns_idempotent Sample.env "songs.csv" Sample.world df w').
    exact Hrun.
Defined.

(** ** Popularity categories *)

Lemma length_boolean_index {A} df (p : A → bool) (xs : list A) :
  length xs = length (rows df) →
  len (boolean_index df (map p xs)) = Z.of_nat (length (List.filter p xs)).
Proof.
  unfold len, boolean_index. cbn [rows]. generalize (rows df) as l.
  intros l Hlen. f_equal. rewrite length_map.
  revert l Hlen. induction xs as [|x xs IH]; intros [|r l] Hlen;
    try discriminate; [done|].
  cbn [map zip zip_with List.filter snd].
  destruct (p x); cbn [length]; rewrite IH; auto.
Qed.

Lemma category_sum (xs : list float64) :
  Forall (λ x, F64.is_nan x = false) xs →
  Z.of_nat (length (List.filter is_mega_hit xs))
  + Z.of_nat (length (List.filter is_popular xs))
  + Z.of_nat (length (List.filter is_moderate xs))
  = Z.of_nat (length xs).
Proof.
  induction 1 as [|x xs Hx _ IH]; [done|].
  pose proof (category_exactly_one x Hx) as H1.
  cbn [List.filter].
  destruct (is_mega_hit x), (is_popular x), (is_moderate x);
    cbn [Z.b2z] in H1; cbn [length]; lia.
Qed.

Lemma views_clean_floats df :
  views_clean df →
  ∃ xs, (vs ← getitem df "view_count"; floats vs) = inr xs ∧
        length xs = length (rows df) ∧
        Forall (λ x, F64.is_nan x = false) xs.
Proof.
  intros [Hcol Hrows].
  exists (map (λ r, num_value (cell_at r "view_count")) (rows df)).
  rewrite getitem_present by done. cbn.
  split; [|split].
  - rewrite floats_num; [by rewrite map_map|].
    apply Forall_map. eapply Forall_impl; [exact Hrows|].
    intros r (x & Hx & _). by exists x.
  - by rewrite length_map.
  - apply Forall_map. eapply Forall_impl; [exact Hrows|].
    intros r (x & -> & Hx). exact Hx.
Qed.

Lemma exact_percentage_sum (a b c n : Z) :
  a + b + c = n → 0 < n →
  (exact_percentage a n + exact_percentage b n + exact_percentage c n == 100)%Q.
Proof.
  intros Hsum Hn. unfold exact_percentage.
  assert (Hn' : ¬ (inject_Z n == 0)%Q).
  { unfold Qeq. simpl. lia. }
  assert (Hc : (inject_Z c == inject_Z n - inject_Z a - inject_Z b)%Q).
  { rewrite <- Hsum, !inject_Z_plus. ring. }
  rewrite Hc. field. exact Hn'.
Qed.

(** ** Rankings *)

Lemma gtb_asym x y :
  F64.is_nan x = false → F64.is_nan y = false →
  F64.gtb y x = true → F64.gtb x y = false ∧ F64.eqb y x = false.
Proof.
  intros Hx Hy H. unfold F64.gtb in *.
  change (SFltb x y) with (F64.ltb x y) in H.
  apply (ltb_key x y Hx Hy) in H. split.
  - destruct (SFltb y x) eqn:E; [|done].
    change (SFltb y x) with (F64.ltb y x) in E.
    apply (ltb_key y x Hy Hx) in E.
    exfalso. eapply key_lt_irrefl, key_lt_trans; eassumption.
  - destruct (F64.eqb y x) eqn:E; [|done].
    apply (eqb_key y x Hy Hx) in E. rewrite E in H.
    by apply key_lt_irrefl in H.
Qed.

Lemma not_gtb_trans x y z :
  F64.is_nan x = false → F64.is_nan y = false → F64.is_nan z = false →
  F64.gtb y x = false → F64.gtb z y = false → F64.gtb z x = false.
Proof.
  intros Hx Hy Hz Hyx Hzy.
  destruct (F64.gtb z x) eqn:E; [|done]. exfalso.
  unfold F64.gtb in *.
  change (SFltb ?a ?b) with (F64.ltb a b) in *.
  apply (ltb_key x z Hx Hz) in E.
  assert (Nxy : ¬ F64.key_lt (F64.key x) (F64.key y)).
  { intros H. apply (ltb_key x y Hx Hy) in H. congruence. }
  assert (Nyz : ¬ F64.key_lt (F64.key y) (F64.key z)).
  { intros H. apply (ltb_key y z Hy Hz) in H. congruence. }
  destruct (key_lt_total (F64.key x) (F64.key y)) as [H|[H|H]]; [done| |].
  - apply Nyz. by rewrite <- H.
  - apply Nyz. eapply key_lt_trans; eassumption.
Qed.

Lemma Forall_insert_desc {A} (P : float64 * A → Prop) x l :
  Forall P (insert_desc x l) ↔ P x ∧ Forall P l.
Proof.
  induction l as [|y l IH]; simpl.
  - rewrite Forall_singleton, Forall_nil. tauto.
  - destruct (F64.gtb y.1 x.1).
    + rewrite !Forall_cons, IH. tauto.
    + rewrite !Forall_cons. tauto.
Qed.

Lemma Forall_sort_desc {A} (P : float64 * A → Prop) l :
  Forall P (sort_desc l) ↔ Forall P l.
Proof.
  induction l as [|x l IH]; simpl; [done|].
  by rewrite Forall_insert_desc, Forall_cons, IH.
Qed.

Section Ranking.

Context {A : Type} (T : A → A → Prop).

Let valid (x : float64 * A) : Prop := F64.is_nan x.1 = false.

Lemma insert_desc_sorted x l :
  valid x → Forall valid l →
  Forall (λ y, T x.2 y.2) l →
  StronglySorted (ranked_before T) l →
  StronglySorted (ranked_before T) (insert_desc x l).
Proof.
  intros Hx Hl Hx_first Hsorted.
  induction Hsorted as [|y l Hsorted IH Hy]; simpl.
  - repeat constructor.
  - apply Forall_cons in Hl as [Hvy Hl].
    apply Forall_cons in Hx_first as [Hxy Hx_first].
    destruct (F64.gtb y.1 x.1) eqn:Hgt.
    + constructor; [by apply IH|].
      apply Forall_insert_desc. split; [|done].
      destruct (gtb_asym _ _ Hx Hvy Hgt) as [H1 H2].
      split; [done|]. intros H. congruence.
    + constructor; [by constructor|].
      constructor; [by split|].
      rewrite Forall_forall in Hy, Hl, Hx_first.
      apply Forall_forall. intros z Hz.
      destruct (Hy z Hz) as [Hzy _]. split.
      * eapply not_gtb_trans; [exact Hx|exact Hvy|by apply Hl|done|done].
      * intros _. by apply Hx_first.
Qed.

Lemma sort_desc_sorted l :
  Forall valid l →
  StronglySorted (λ a b, T a.2 b.2) l →
  StronglySorted (ranked_before T) (sort_desc l).
Proof.
  intros Hl Hsorted.
  induction Hsorted as [|x l Hsorted IH Hx]; simpl; [constructor|].
  apply Forall_cons in Hl as [Hvx Hl].
  apply insert_desc_sorted; [done| | |by apply IH].
  - by apply Forall_sort_desc.
  - by apply Forall_sort_desc.
Qed.

Lemma StronglySorted_app (R : float64 * A → float64 * A → Prop) l1 l2 :
  StronglySorted R l1 → StronglySorted R l2 →
  Forall (λ a, Forall (R a) l2) l1 →
  StronglySorted R (l1 ++ l2).
Proof.
  intros H1 H2 H12. induction H1 as [|a l1 H1 IH Ha]; simpl; [done|].
  apply Forall_cons in H12 as [Ha2 H12].
  constructor; [by apply IH|]. apply Forall_app. by split.
Qed.

Lemma nan_keys_sorted l :
  Forall (λ x : float64 * A, F64.is_nan x.1 = true) l →
  StronglySorted (ranked_before T) l.
Proof.
  induction 1 as [|x l Hx Hl IH]; constructor; [done|].
  eapply Forall_impl; [exact Hl|]. intros y Hy. split.
  - by apply gtb_nan_l.
  - by rewrite eqb_nan_l.
Qed.

Lemma StronglySorted_filter {B} (R : B → B → Prop) (p : B → bool) l :
  StronglySorted R l → StronglySorted R (List.filter p l).
Proof.
  induction 1 as [|x l Hl IH Hx]; simpl; [constructor|].
  destruct (p x); [|done]. constructor; [done|].
  apply Forall_forall. intros y Hy.
  apply list_elem_of_In, filter_In in Hy as [Hy _].
  rewrite Forall_forall in Hx. by apply Hx, list_elem_of_In.
Qed.

(** The order of [nlargest] and of a descending [sort_values]: no entry is
    greater than one before it, and entries with equal keys stay in the
    order they had. *)
Lemma order_desc_sorted l :
  StronglySorted (λ a b, T a.2 b.2) l →
  StronglySorted (ranked_before T) (order_desc l).
Proof.
  intros Hsorted. unfold order_desc. apply StronglySorted_app.
  - apply sort_desc_sorted.
    + apply Forall_forall. intros x Hx.
      apply list_elem_of_In, filter_In in Hx as [_ Hx].
      unfold valid. by destruct (F64.is_nan x.1).
    + by apply StronglySorted_filter.
  - apply nan_keys_sorted. apply Forall_forall. intros x Hx.
    by apply list_elem_of_In, filter_In in Hx as [_ Hx].
  - apply Forall_forall. intros a _. apply Forall_forall. intros b Hb.
    apply list_elem_of_In, filter_In in Hb as [_ Hb]. split.
    + by apply gtb_nan_l.
    + by rewrite eqb_nan_r.
Qed.

End Ranking.

Lemma StronglySorted_take {B} (R : B → B → Prop) n l :
  StronglySorted R l → StronglySorted R (take n l).
Proof.
  intros H. revert n. induction H as [|x l Hl IH Hx]; intros [|n]; simpl;
    try constructor; [by apply IH|].
  apply Forall_forall. intros y Hy. rewrite Forall_forall in Hx.
  apply Hx. by eapply subseteq_take.
Qed.

Lemma StronglySorted_lookup {B} (R : B → B → Prop) l i j a b :
  StronglySorted R l → l !! i = Some a → l !! j = Some b → (i < j)%nat → R a b.
Proof.
  intros H. revert i j. induction H as [|x l Hl IH Hx]; intros i j Hi Hj Hij.
  - done.
  - destruct j as [|j]; [lia|]. destruct i as [|i]; simpl in *.
    + injection Hi as ->. rewrite Forall_forall in Hx.
      by eapply Hx, list_elem_of_lookup_2.
    + eapply IH; [exact Hi|exact Hj|lia].
Qed.

Lemma StronglySorted_zip {A B} (T : B → B → Prop) (ks : list A) (l : list B) :
  StronglySorted T l →
  StronglySorted (λ a b : A * B, T a.2 b.2) (zip ks l).
Proof.
  intros H. revert ks. induction H as [|x l Hl IH Hx]; intros [|k ks]; simpl;
    try constructor; [by apply IH|].
  apply Forall_forall. intros [k' y] Hy.
  apply elem_of_zip_r in Hy. rewrite Forall_forall in Hx. by apply Hx.
Qed.

Lemma floats_inv s ks : floats s = inr ks → ks = map num_value s.
Proof.
  revert ks. induction s as [|[x|t] s IH]; intros ks; simpl.
  - by intros [= <-].
  - destruct (floats s) as [e|ks']; [done|]. intros [= <-].
    by rewrite (IH ks' eq_refl).
  - done.
Qed.

Lemma Forall_zip_map {A B} (f : B → A) (P : A * B → Prop) (l : list B) :
  (∀ x, P (f x, x)) → Forall P (zip (map f l) l).
Proof. intros H. induction l; simpl; constructor; auto. Qed.

Lemma Forall_order_desc {A} (P : float64 * A → Prop) l :
  Forall P l → Forall P (order_desc l).
Proof.
  intros H. unfold order_desc. apply Forall_app. split.
  - apply Forall_sort_desc. apply Forall_forall. intros x Hx.
    apply list_elem_of_In, filter_In in Hx as [Hx _].
    rewrite Forall_forall in H. by apply H, list_elem_of_In.
  - apply Forall_forall. intros x Hx.
    apply list_elem_of_In, filter_In in Hx as [Hx _].
    rewrite Forall_forall in H. by apply H, list_elem_of_In.
Qed.

Lemma cell_at_select (cs : list string) (r : nat * gmap string cell) c :
  c ∈ cs →
  cell_at (r.1, filter (λ kv : string * cell, kv.1 ∈ cs) r.2) c = cell_at r c.
Proof.
  intros Hc. unfold cell_at. cbn [snd].
  destruct (r.2 !! c) as [v|] eqn:E.
  - by rewrite (map_lookup_filter_Some_2 _ _ _ v E Hc).
  - rewrite (proj2 (map_lookup_filter_None _ _ _)); [done|]. by left.
Qed.

(** The rows of [nlargest], with the key beside each row. *)
Lemma nlargest_rows n c df top :
  nlargest n c df = inr top →
  columns top = columns df ∧
  rows top = map snd (take n (order_desc
               (zip (map (λ r, num_value (cell_at r c)) (rows df)) (rows df)))).
Proof.
  unfold nlargest. destruct (getitem df c) as [e|s] eqn:Hs; [done|].
  destruct (floats s) as [e|ks] eqn:Hks; [done|]. intros [= <-].
  split; [done|]. cbn [rows].
  apply floats_inv in Hks. subst ks.
  unfold getitem in Hs. destruct (decide _); [|done].
  injection Hs as <-. by rewrite map_map.
Qed.

Lemma select_rows cs df top :
  select cs df = inr top →
  rows top = map (λ r, (r.1, filter (λ kv : string * cell, kv.1 ∈ cs) r.2)) (rows df).
Proof.
  unfold select. destruct (List.filter _ cs); [|done]. by intros [= <-].
Qed.

Lemma top_songs_stable df : in_file_order df → songs_stable df.
Proof.
  intros Horder top i j ri rj Htop Hi Hj Hij Heq.
  unfold top_songs in Htop.
  destruct (nlargest 20 "view_count" df) as [e|t] eqn:Ht; [done|].
  cbn in Htop. apply select_rows in Htop.
  apply nlargest_rows in Ht as [_ Ht].
  rewrite Htop, Ht in Hi, Hj.
  set (L := take 20 (order_desc _)) in *.
  assert (Hsorted : StronglySorted
            (ranked_before (λ a b : nat * gmap string cell, (a.1 < b.1)%nat)) L).
  { apply StronglySorted_take, order_desc_sorted.
    by apply (StronglySorted_zip
                (λ a b : nat * gmap string cell, (a.1 < b.1)%nat)). }
  assert (Hkeys : Forall (λ kr : float64 * (nat * gmap string cell),
                            kr.1 = views kr.2) L).
  { apply Forall_forall. intros kr Hkr. apply subseteq_take in Hkr.
    revert kr Hkr. apply Forall_forall, Forall_order_desc.
    by apply (Forall_zip_map (λ r, num_value (cell_at r "view_count"))). }
  rewrite !list_lookup_fmap in Hi, Hj.
  destruct (L !! i) as [[ki r_i]|] eqn:Li; [|done].
  destruct (L !! j) as [[kj r_j]|] eqn:Lj; [|done].
  cbn in Hi, Hj. injection Hi as <-. injection Hj as <-.
  destruct (StronglySorted_lookup _ _ _ _ _ _ Hsorted Li Lj Hij) as [_ Htie].
  cbn [fst snd] in *. apply Htie.
  rewrite Forall_forall in Hkeys.
  pose proof (Hkeys _ (list_elem_of_lookup_2 _ _ _ Li)) as Hki.
  pose proof (Hkeys _ (list_elem_of_lookup_2 _ _ _ Lj)) as Hkj.
  cbn [fst snd] in Hki, Hkj. rewrite Hki, Hkj.
  unfold views in Heq. rewrite !cell_at_select in Heq; [done|..];
    rewrite !elem_of_cons; auto.
Qed.

Lemma StronglySorted_trivial {B} (l : list B) :
  StronglySorted (λ _ _, True) l.
Proof. induction l; constructor; [done|]. by apply Forall_forall. Qed.

Lemma top_channels_descending env df : channels_descending env df.
Proof.
  intros top i j a b Htop Hi Hj Hij.
  unfold top_channels in Htop.
  destruct (groupby_agg (series_sum env) df) as [e|agg]; [done|].
  cbn in Htop. injection Htop as <-.
  assert (Hsorted : StronglySorted
            (ranked_before (λ _ _ : cell * Z, True))
            (take 10 (sort_values env agg))).
  { apply StronglySorted_take, order_desc_sorted.
    apply StronglySorted_trivial. }
  by destruct (StronglySorted_lookup _ _ _ _ _ _ Hsorted Hi Hj Hij).
Qed.

(** ** Rounding to binary64 *)

(** The number of binary digits of a mantissa. *)
Lemma digits2_pos_bounds (p : positive) :
  2 ^ (Z.pos (digits2_pos p) - 1) ≤ Z.pos p < 2 ^ Z.pos (digits2_pos p).
Proof.
  induction p as [p IH|p IH|]; cbn [digits2_pos].
  - rewrite Pos2Z.inj_succ.
    replace (Z.succ (Z.pos (digits2_pos p)) - 1) with (Z.pos (digits2_pos p) - 1 + 1)
      by lia.
    rewrite Z.pow_succ_r by lia. rewrite Z.pow_add_r by lia.
    change (2 ^ 1) with 2. lia.
  - rewrite Pos2Z.inj_succ.
    replace (Z.succ (Z.pos (digits2_pos p)) - 1) with (Z.pos (digits2_pos p) - 1 + 1)
      by lia.
    rewrite Z.pow_succ_r by lia. rewrite Z.pow_add_r by lia.
    change (2 ^ 1) with 2. lia.
  - cbn. lia.
Qed.

Lemma Zdigits2_bounds (m : Z) :
  0 < m → 0 < Zdigits2 m ∧ 2 ^ (Zdigits2 m - 1) ≤ m < 2 ^ Zdigits2 m.
Proof.
  destruct m as [|p|p]; try lia. intros _. cbn [Zdigits2].
  split; [lia|apply digits2_pos_bounds].
Qed.

(** The number of digits is fixed by the two bounds. *)
Lemma Zdigits2_unique (m d : Z) :
  0 < m → 2 ^ (d - 1) ≤ m < 2 ^ d → Zdigits2 m = d.
Proof.
  intros Hm [Hlo Hhi].
  destruct (Zdigits2_bounds m Hm) as (Hd & Hlo' & Hhi').
  assert (Hpos : 0 < d).
  { destruct (Z.lt_trichotomy d 0) as [Hneg|[->|?]]; [|cbn in Hhi; lia|done].
    rewrite Z.pow_neg_r in Hhi by lia. lia. }
  destruct (Z.lt_trichotomy (Zdigits2 m) d) as [Hlt|[Heq|Hgt]]; [|done|].
  - assert (2 ^ Zdigits2 m ≤ 2 ^ (d - 1)) by (apply Z.pow_le_mono_r; lia). lia.
  - assert (2 ^ d ≤ 2 ^ (Zdigits2 m - 1)) by (apply Z.pow_le_mono_r; lia). lia.
Qed.

(** Shifting a mantissa to the right. *)
Lemma shr_1_m mrs : 0 ≤ shr_m mrs → shr_m (shr_1 mrs) = shr_m mrs / 2.
Proof.
  destruct mrs as [m r s]. cbn [shr_m shr_1]. intros Hm.
  rewrite <- Z.div2_div.
  destruct m as [|[p|p|]|p]; cbn [shr_m]; try reflexivity. lia.
Qed.

Lemma iter_shr_1_m (n : positive) mrs :
  0 ≤ shr_m mrs →
  shr_m (SpecFloat.iter_pos shr_1 n mrs) = shr_m mrs / 2 ^ Z.pos n.
Proof.
  revert mrs. induction n as [n IH|n IH|]; intros mrs Hm; cbn [SpecFloat.iter_pos].
  - assert (H1 : 0 ≤ shr_m (shr_1 mrs)).
    { rewrite shr_1_m by done. apply Z.div_pos; lia. }
    assert (H2 : 0 ≤ shr_m (SpecFloat.iter_pos shr_1 n (shr_1 mrs))).
    { rewrite IH by done. apply Z.div_pos; [done|]. apply Z.pow_pos_nonneg; lia. }
    rewrite IH, IH, shr_1_m by done.
    rewrite !Z.div_div by (try apply Z.pow_pos_nonneg; lia).
    replace (2 ^ Z.pos n~1) with (2 * (2 ^ Z.pos n * 2 ^ Z.pos n)); [done|].
    rewrite Pos2Z.inj_xI, <- Z.pow_add_r, <- Z.pow_succ_r by lia.
    f_equal. lia.
  - assert (H2 : 0 ≤ shr_m (SpecFloat.iter_pos shr_1 n mrs)).
    { rewrite IH by done. apply Z.div_pos; [done|]. apply Z.pow_pos_nonneg; lia. }
    rewrite IH, IH by done.
    rewrite !Z.div_div by (try apply Z.pow_pos_nonneg; lia).
    replace (2 ^ Z.pos n~0) with (2 ^ Z.pos n * 2 ^ Z.pos n); [done|].
    rewrite Pos2Z.inj_xO, <- Z.pow_add_r by lia. f_equal. lia.
  - rewrite shr_1_m by done. by change (2 ^ 1) with 2.
Qed.

Lemma shr_record_of_loc_m m l : shr_m (shr_record_of_loc m l) = m.
Proof. by destruct l as [|[]]. Qed.

Lemma shr_spec mrs e n :
  0 ≤ shr_m mrs →
  shr_m (shr mrs e n).1 = shr_m mrs / 2 ^ Z.max 0 n ∧
  (shr mrs e n).2 = e + Z.max 0 n.
Proof.
  intros Hm. destruct n as [|p|p]; cbn [shr fst snd].
  - rewrite Z.max_l by lia. cbn. rewrite Z.div_1_r. split; [done|lia].
  - rewrite Z.max_r by lia. split; [by apply iter_shr_1_m|done].
  - rewrite Z.max_l by lia. cbn. rewrite Z.div_1_r. split; [done|lia].
Qed.

Lemma round_nearest_even_cases m l :
  round_nearest_even m l = m ∨ round_nearest_even m l = m + 1.
Proof.
  destruct l as [|[]]; cbn; auto. destruct (Z.even m); auto.
Qed.

Section Rounding.

Variables prec emax : Z.
Hypothesis Hprec : 0 < prec.

Lemma shr_fexp_spec m e l :
  0 < m →
  shr_m (shr_fexp prec emax m e l).1
  = m / 2 ^ Z.max 0 (fexp prec emax (Zdigits2 m + e) - e) ∧
  (shr_fexp prec emax m e l).2
  = e + Z.max 0 (fexp prec emax (Zdigits2 m + e) - e).
Proof.
  intros Hm. unfold shr_fexp.
  pose proof (shr_spec (shr_record_of_loc m l) e
                (fexp prec emax (Zdigits2 m + e) - e)) as H.
  rewrite shr_record_of_loc_m in H. apply H. lia.
Qed.

(** Rounding a mantissa of at least [prec] digits in the range of the
    normal numbers: the mantissa is cut to [prec] digits and is then kept
    or moved up by one. *)
Lemma binary_round_aux_spec s m e l :
  0 < m → prec ≤ Zdigits2 m →
  emin prec emax ≤ Zdigits2 m + e - prec →
  Zdigits2 m + e + 1 ≤ emax →
  let k := Zdigits2 m - prec in
  let m1 := m / 2 ^ k in
  ∃ M E,
    binary_round_aux prec emax s m e l = S754_finite s M E ∧
    2 ^ (prec - 1) ≤ Z.pos M < 2 ^ prec ∧
    2 ^ (prec - 1) ≤ m1 ∧
    m1 * 2 ^ k ≤ m < (m1 + 1) * 2 ^ k ∧
    (E = e + k ∨ E = e + k + 1) ∧
    (Z.pos M * 2 ^ (E - e) = m1 * 2 ^ k
     ∨ Z.pos M * 2 ^ (E - e) = (m1 + 1) * 2 ^ k).
Proof.
  intros Hm Hd Hlo Hhi k m1.
  destruct (Zdigits2_bounds m Hm) as (_ & Hm_lo & Hm_hi).
  assert (Hk : 0 ≤ k) by (unfold k; lia).
  assert (H2k : 0 < 2 ^ k) by (apply Z.pow_pos_nonneg; lia).
  assert (Hsplit : 2 ^ Zdigits2 m = 2 ^ prec * 2 ^ k).
  { rewrite <- Z.pow_add_r by lia. f_equal. unfold k. lia. }
  assert (Hsplit' : 2 ^ (Zdigits2 m - 1) = 2 ^ (prec - 1) * 2 ^ k).
  { rewrite <- Z.pow_add_r by lia. f_equal. unfold k. lia. }
  assert (Hm1 : m1 * 2 ^ k ≤ m < (m1 + 1) * 2 ^ k).
  { unfold m1. pose proof (Z.div_mod m (2 ^ k)).
    pose proof (Z.mod_pos_bound m (2 ^ k)). lia. }
  assert (Hm1_lo : 2 ^ (prec - 1) ≤ m1).
  { unfold m1. apply Z.div_le_lower_bound; lia. }
  assert (Hm1_hi : m1 < 2 ^ prec).
  { unfold m1. apply Z.div_lt_upper_bound; lia. }
  assert (Hpp : 0 < 2 ^ (prec - 1)) by (apply Z.pow_pos_nonneg; lia).
  assert (Hfexp : fexp prec emax (Zdigits2 m + e) - e = k).
  { unfold fexp, k. lia. }
  unfold binary_round_aux.
  destruct (shr_fexp prec emax m e l) as [mrs1 e1] eqn:H1.
  destruct (shr_fexp_spec m e l Hm) as [Hmrs1 He1].
  rewrite H1 in Hmrs1, He1. cbn [fst snd] in Hmrs1, He1.
  rewrite Hfexp, Z.max_r in Hmrs1, He1 by lia.
  fold m1 in Hmrs1. rewrite Hmrs1.
  set (m2 := round_nearest_even m1 (loc_of_shr_record mrs1)).
  assert (Hm2 : m2 = m1 ∨ m2 = m1 + 1) by apply round_nearest_even_cases.
  assert (Hm2pos : 0 < m2) by lia.
  destruct (shr_fexp prec emax m2 e1 loc_Exact) as [mrs2 e2] eqn:H2.
  destruct (shr_fexp_spec m2 e1 loc_Exact Hm2pos) as [Hmrs2 He2].
  rewrite H2 in Hmrs2, He2. cbn [fst snd] in Hmrs2, He2.
  assert (Hdouble : 2 ^ prec = 2 * 2 ^ (prec - 1)).
  { rewrite <- Z.pow_succ_r by lia. f_equal. lia. }
  destruct (Z.lt_ge_cases m2 (2 ^ prec)) as [Hfit|Hcarry].
  - (* the rounded mantissa still has [prec] digits *)
    assert (Hd2 : Zdigits2 m2 = prec) by (apply Zdigits2_unique; lia).
    assert (Hn2 : fexp prec emax (Zdigits2 m2 + e1) - e1 = 0).
    { unfold fexp. rewrite Hd2. unfold emin in *. lia. }
    rewrite Hn2 in Hmrs2, He2.
    change (Z.max 0 0) with 0 in Hmrs2, He2.
    change (2 ^ 0) with 1 in Hmrs2. rewrite Z.div_1_r in Hmrs2.
    rewrite Hmrs2.
    destruct m2 as [|M|M] eqn:HM; try lia.
    assert (Hle : (e2 <=? emax - prec) = true) by (apply Z.leb_le; lia).
    rewrite Hle. exists M, e2.
    split; [done|]. split; [lia|]. split; [done|]. split; [done|].
    split; [left; lia|].
    replace (e2 - e) with k by lia. lia.
  - (* the mantissa reached [2 ^ prec] and is halved *)
    assert (Hm2' : m2 = 2 ^ prec) by lia.
    assert (Hd2 : Zdigits2 m2 = prec + 1).
    { apply Zdigits2_unique; [done|].
      replace (prec + 1 - 1) with prec by lia.
      rewrite Z.pow_add_r by lia. change (2 ^ 1) with 2. lia. }
    assert (Hn2 : fexp prec emax (Zdigits2 m2 + e1) - e1 = 1).
    { unfold fexp. rewrite Hd2. unfold emin in *. lia. }
    rewrite Hn2 in Hmrs2, He2.
    change (Z.max 0 1) with 1 in Hmrs2, He2.
    change (2 ^ 1) with 2 in Hmrs2.
    assert (Hhalf : m2 / 2 = 2 ^ (prec - 1)).
    { rewrite Hm2', Hdouble. rewrite Z.mul_comm. by apply Z.div_mul. }
    rewrite Hhalf in Hmrs2. rewrite Hmrs2.
    destruct (2 ^ (prec - 1)) as [|M|M] eqn:HM; try lia.
    assert (Hle : (e2 <=? emax - prec) = true) by (apply Z.leb_le; lia).
    rewrite Hle. exists M, e2.
    split; [done|]. split; [lia|]. split; [lia|]. split; [done|].
    split; [right; lia|].
    right. replace (e2 - e) with (k + 1) by lia.
    rewrite Z.pow_add_r by lia. change (2 ^ 1) with 2. lia.
Qed.

(** A mantissa of [prec] digits in the range of the normal numbers is not
    changed by the rounding. *)
Lemma binary_round_aux_exact s (p : positive) e :
  Zdigits2 (Z.pos p) = prec →
  emin prec emax ≤ e → e ≤ emax - prec →
  binary_round_aux prec emax s (Z.pos p) e loc_Exact = S754_finite s p e.
Proof.
  intros Hd Hlo Hhi.
  assert (Hn : fexp prec emax (Zdigits2 (Z.pos p) + e) - e = 0).
  { unfold fexp. rewrite Hd. lia. }
  unfold binary_round_aux, shr_fexp. rewrite Hn.
  cbn [shr_record_of_loc shr shr_m loc_of_shr_record round_nearest_even].
  rewrite Hn. cbn [shr shr_m].
  assert (Hle : (e <=? emax - prec) = true) by (apply Z.leb_le; lia).
  by rewrite Hle.
Qed.

Lemma iter_xO (p n : positive) :
  Z.pos (Pos.iter xO p n) = Z.pos p * 2 ^ Z.pos n.
Proof.
  induction n as [|n IH] using Pos.peano_ind.
  - cbn [Pos.iter]. rewrite Pos2Z.inj_xO. change (2 ^ 1) with 2. lia.
  - rewrite Pos.iter_succ, Pos2Z.inj_xO, IH, Pos2Z.inj_succ.
    rewrite Z.pow_succ_r by lia. lia.
Qed.

(** Converting a positive integer below [2 ^ prec]: the mantissa is the
    integer moved up to [prec] digits, and no bit is lost. *)
Lemma binary_normalize_exact (z : Z) :
  0 < z < 2 ^ prec → prec < emax →
  ∃ M,
    binary_normalize prec emax z 0 false
    = S754_finite false M (Zdigits2 z - prec) ∧
    Zdigits2 (Z.pos M) = prec ∧
    Z.pos M = z * 2 ^ (prec - Zdigits2 z).
Proof.
  intros [Hz Hlt] Hemax. destruct z as [|p|p]; try lia.
  destruct (Zdigits2_bounds (Z.pos p) Hz) as (Hd & Hlo & Hhi).
  assert (Hdp : Zdigits2 (Z.pos p) ≤ prec).
  { destruct (Z.le_gt_cases (Zdigits2 (Z.pos p)) prec) as [?|Hgt]; [done|].
    assert (2 ^ prec ≤ 2 ^ (Zdigits2 (Z.pos p) - 1))
      by (apply Z.pow_le_mono_r; lia). lia. }
  cbn [binary_normalize]. unfold binary_round.
  change (Z.pos (digits2_pos p)) with (Zdigits2 (Z.pos p)).
  assert (Hfexp : fexp prec emax (Zdigits2 (Z.pos p) + 0)
                  = Zdigits2 (Z.pos p) - prec).
  { unfold fexp, emin. lia. }
  rewrite Hfexp. unfold shl_align.
  destruct (Zdigits2 (Z.pos p) - prec - 0) as [|n|n] eqn:Hn; try lia.
  - (* the integer has [prec] digits already *)
    assert (Hfull : Zdigits2 (Z.pos p) = prec) by lia.
    exists p. rewrite Hfull, Z.sub_diag.
    split; [|split; [done|cbn; lia]].
    apply binary_round_aux_exact; [done|unfold emin; lia|lia].
  - (* moved up by [n] digits *)
    assert (Hshift : Z.pos n = prec - Zdigits2 (Z.pos p)) by lia.
    exists (Pos.iter xO p n).
    assert (Hval : Z.pos (Pos.iter xO p n)
                   = Z.pos p * 2 ^ (prec - Zdigits2 (Z.pos p))).
    { by rewrite iter_xO, Hshift. }
    assert (Hdigits : Zdigits2 (Z.pos (Pos.iter xO p n)) = prec).
    { apply Zdigits2_unique; [lia|]. rewrite Hval.
      assert (H2n : 0 < 2 ^ (prec - Zdigits2 (Z.pos p)))
        by (apply Z.pow_pos_nonneg; lia).
      replace (2 ^ (prec - 1))
        with (2 ^ (Zdigits2 (Z.pos p) - 1) * 2 ^ (prec - Zdigits2 (Z.pos p))).
      2:{ rewrite <- Z.pow_add_r by lia. f_equal. lia. }
      replace (2 ^ prec)
        with (2 ^ Zdigits2 (Z.pos p) * 2 ^ (prec - Zdigits2 (Z.pos p))).
      2:{ rewrite <- Z.pow_add_r by lia. f_equal. lia. }
      nia. }
    split; [|split; [exact Hdigits|exact Hval]].
    apply binary_round_aux_exact; [exact Hdigits|unfold emin; lia|lia].
Qed.

End Rounding.

(** ** Counts as doubles *)

(** Below [2 ^ 53] the doubles of two counts compare as the counts do: the
    order and the ties of a column of such integers are those of its
    doubles. *)
Lemma of_Z_compare (a b : Z) :
  0 ≤ a < 2 ^ 53 → 0 ≤ b < 2 ^ 53 →
  SFcompare (F64.of_Z a) (F64.of_Z b) = Some (a ?= b).
Proof.
  intros Ha Hb. unfold F64.of_Z, F64.prec, F64.emax.
  destruct (Z.eq_dec a 0) as [->|Ha0], (Z.eq_dec b 0) as [->|Hb0].
  - reflexivity.
  - destruct (binary_normalize_exact 53 1024 ltac:(lia) b ltac:(lia) ltac:(lia))
      as (Mb & -> & _).
    cbn [SFcompare binary_normalize]. symmetry. f_equal.
    apply Z.compare_lt_iff. lia.
  - destruct (binary_normalize_exact 53 1024 ltac:(lia) a ltac:(lia) ltac:(lia))
      as (Ma & -> & _).
    cbn [SFcompare binary_normalize]. symmetry. f_equal.
    apply Z.compare_gt_iff. lia.
  - destruct (binary_normalize_exact 53 1024 ltac:(lia) a ltac:(lia) ltac:(lia))
      as (Ma & -> & _ & HMa).
    destruct (binary_normalize_exact 53 1024 ltac:(lia) b ltac:(lia) ltac:(lia))
      as (Mb & -> & _ & HMb).
    destruct (Zdigits2_bounds a ltac:(lia)) as (Hda & Ha1 & Ha2).
    destruct (Zdigits2_bounds b ltac:(lia)) as (Hdb & Hb1 & Hb2).
    cbn [SFcompare]. f_equal.
    destruct (Z.compare_spec (Zdigits2 a - 53) (Zdigits2 b - 53)) as [He|He|He].
    + assert (Hd : Zdigits2 a = Zdigits2 b) by lia.
      change (Pos.compare_cont Eq Ma Mb) with (Z.pos Ma ?= Z.pos Mb).
      rewrite HMa, HMb, Hd.
      assert (HK : 0 < 2 ^ (53 - Zdigits2 b)).
      { apply Z.pow_pos_nonneg; [lia|].
        destruct (Z.le_gt_cases (Zdigits2 b) 53) as [?|Hgt]; [lia|].
        assert (2 ^ 53 ≤ 2 ^ (Zdigits2 b - 1)) by (apply Z.pow_le_mono_r; lia).
        lia. }
      destruct (Z.compare_spec a b) as [->|Hlt|Hgt].
      * apply Z.compare_refl.
      * apply Z.compare_lt_iff. nia.
      * apply Z.compare_gt_iff. nia.
    + symmetry. apply Z.compare_lt_iff.
      assert (2 ^ Zdigits2 a ≤ 2 ^ (Zdigits2 b - 1))
        by (apply Z.pow_le_mono_r; lia).
      lia.
    + symmetry. apply Z.compare_gt_iff.
      assert (2 ^ Zdigits2 b ≤ 2 ^ (Zdigits2 a - 1))
        by (apply Z.pow_le_mono_r; lia).
      lia.
Qed.

Lemma of_Z_order (a b : Z) :
  0 ≤ a < 2 ^ 53 → 0 ≤ b < 2 ^ 53 →
  F64.eqb (F64.of_Z a) (F64.of_Z b) = (a =? b) ∧
  F64.gtb (F64.of_Z a) (F64.of_Z b) = (b <? a).
Proof.
  intros Ha Hb. unfold F64.eqb, F64.gtb, SFeqb, SFltb.
  rewrite (of_Z_compare a b Ha Hb), (of_Z_compare b a Hb Ha). split.
  - destruct (Z.compare_spec a b), (Z.eqb_spec a b); try lia; reflexivity.
  - destruct (Z.compare_spec b a), (Z.ltb_spec b a); try lia; reflexivity.
Qed.

(** ** The cleaned frame is in file order and has clean views *)

Lemma labelled_in_order {B} (s : nat) (l : list B) :
  StronglySorted (λ a b : nat * B, (a.1 < b.1)%nat) (zip (seq s (length l)) l).
Proof.
  revert s. induction l as [|x l IH]; intros s; simpl; constructor; [apply IH|].
  apply Forall_forall. intros [i y] Hy. apply elem_of_zip_l in Hy.
  apply list_elem_of_In, in_seq in Hy. simpl. lia.
Qed.

Lemma StronglySorted_map_label {B} (f : nat * B → nat * B) (l : list (nat * B)) :
  (∀ r, (f r).1 = r.1) →
  StronglySorted (λ a b : nat * B, (a.1 < b.1)%nat) l →
  StronglySorted (λ a b : nat * B, (a.1 < b.1)%nat) (map f l).
Proof.
  intros Hf. induction 1 as [|x l Hl IH Hx]; simpl; constructor; [done|].
  apply Forall_map. eapply Forall_impl; [exact Hx|].
  intros y Hy. cbn beta. by rewrite !Hf.
Qed.

Lemma cleaned_frame_in_file_order parse header lines :
  in_file_order (cleaned_frame parse header lines).
Proof.
  unfold in_file_order, cleaned_frame, cleaned_rows. cbn [rows].
  apply StronglySorted_map_label; [done|].
  apply StronglySorted_filter.
  apply StronglySorted_map_label; [done|].
  apply labelled_in_order.
Qed.

Lemma cleaned_frame_views_clean parse header lines :
  "view_count" ∈ header → views_clean (cleaned_frame parse header lines).
Proof.
  intros Hv. split.
  - cbn [columns cleaned_frame]. rewrite !elem_of_add_column. auto.
  - cbn [rows cleaned_frame]. apply Forall_forall. intros r Hr.
    pose proof (cleaned_rows_complete parse lines r "view_count" Hr) as Hna.
    destruct (cleaned_rows_inv _ _ _ Hr) as (r0 & -> & _ & [v Hv0] & _).
    rewrite derive_row_base in * by (rewrite !elem_of_cons; auto).
    exists v. split; [done|]. rewrite Hv0 in Hna. apply Hna.
    unfold required. rewrite !elem_of_cons. auto.
Qed.

(** ** The rankings of the descriptive statistics *)

(** [groupby] arranges the groups by channel name: the two orders of the
    same two songs give the same grouped table. *)
Lemma groupby_agg_tied summation :
  summation [Sample.views_tied] = Sample.views_tied →
  groupby_agg summation Sample.tied = inr Sample.tied_totals ∧
  groupby_agg summation Sample.tied_swapped = inr Sample.tied_totals.
Proof.
  intros Hsum.
  assert (H1 : groupby_agg summation Sample.tied
               = inr [(summation [Sample.views_tied], (Str "Channel A", 1));
                      (summation [Sample.views_tied], (Str "Channel B", 1))])
    by (vm_compute; reflexivity).
  assert (H2 : groupby_agg summation Sample.tied_swapped
               = inr [(summation [Sample.views_tied], (Str "Channel A", 1));
                      (summation [Sample.views_tied], (Str "Channel B", 1))])
    by (vm_compute; reflexivity).
  rewrite H1, H2, Hsum. by split.
Qed.

(** Whichever way the library orders equal totals, the ranking of the two
    channels is the same for both frames. *)
Lemma top_channels_tied env :
  rearranges env →
  series_sum env [Sample.views_tied] = Sample.views_tied →
  ∃ top,
    (top = Sample.tied_totals ∨ top = reverse Sample.tied_totals) ∧
    top_channels env Sample.tied = inr top ∧
    top_channels env Sample.tied_swapped = inr top.
Proof.
  intros Hperm Hsum.
  destruct (groupby_agg_tied _ Hsum) as [H1 H2].
  unfold top_channels. rewrite H1, H2. cbn [mbind result_bind mret result_ret].
  unfold sort_values.
  specialize (Hperm Sample.tied_totals). symmetry in Hperm.
  apply Permutation_length_2_inv in Hperm as [->| ->].
  - exists Sample.tied_totals. split; [by left|]. by split.
  - exists (reverse Sample.tied_totals). split; [by right|]. by split.
Qed.

Lemma channels_unstable env :
  rearranges env →
  series_sum env [Sample.views_tied] = Sample.views_tied →
  ¬ (channels_stable env Sample.tied ∧ channels_stable env Sample.tied_swapped).
Proof.
  intros Hperm Hsum [Htied Hswapped].
  destruct (top_channels_tied env Hperm Hsum) as (top & [->| ->] & H1 & H2).
  - destruct (Htied _ 0%nat 1%nat (Sample.views_tied, (Str "Channel A", 1))
                (Sample.views_tied, (Str "Channel B", 1)) H1)
      as (la & lb & Ha & Hb & Hlt); try reflexivity; [lia|].
    vm_compute in Ha, Hb. injection Ha as <-. injection Hb as <-. lia.
  - destruct (Hswapped _ 0%nat 1%nat (Sample.views_tied, (Str "Channel B", 1))
                (Sample.views_tied, (Str "Channel A", 1)) H2)
      as (la & lb & Ha & Hb & Hlt); try reflexivity; [lia|].
    vm_compute in Ha, Hb. injection Ha as <-. injection Hb as <-. lia.
Qed.

(** C5, as the specification states it, fails for the ranking of channels.
    Two channels total the same views.  With a sort that leaves equal
    totals in the order of the grouped table, which is the order of the
    channel names, channel A is ranked first although its song comes second
    in the frame; with a sort that leaves them in the opposite order,
    channel B is ranked first although its song comes second in the other
    frame.  Whatever the sort does, the ranking is the same for both frames
    and is out of the order of the rows in one of them. *)
Lemma rankings_stable_counterexample :
  ¬ rankings_stable Sample.env Sample.tied ∧
  ¬ rankings_stable (Sample.sorting reverse) Sample.tied_swapped ∧
  ¬ ∃ env,
      rearranges env ∧
      series_sum env [Sample.views_tied] = Sample.views_tied ∧
      rankings_stable env Sample.tied ∧
      rankings_stable env Sample.tied_swapped.
Proof.
  split; [|split].
  - intros [_ H].
    destruct (H Sample.tied_totals 0%nat 1%nat
                (Sample.views_tied, (Str "Channel A", 1))
                (Sample.views_tied, (Str "Channel B", 1)))
      as (la & lb & Ha & Hb & Hlt); try reflexivity; [lia|].
    vm_compute in Ha, Hb. injection Ha as <-. injection Hb as <-. lia.
  - intros [_ H].
    destruct (H (reverse Sample.tied_totals) 0%nat 1%nat
                (Sample.views_tied, (Str "Channel B", 1))
                (Sample.views_tied, (Str "Channel A", 1)))
      as (la & lb & Ha & Hb & Hlt); try reflexivity; [lia|].
    vm_compute in Ha, Hb. injection Ha as <-. injection Hb as <-. lia.
  - intros (env & Hperm & Hsum & [_ H1] & [_ H2]).
    by apply (channels_unstable env Hperm Hsum).
Qed.

(** C5, amended: the ranking of songs is stable: songs of equal view count
    stand in the order of the frame; the ranking of channels is in
    descending order of the totals, whatever the library's sort does with
    equal totals, and says nothing of their order.  The view counts are
    compared as doubles; for counts below [2 ^ 53] this is the comparison
    of the integers, ties included. *)
Theorem rankings_ordered env df :
  in_file_order df →
  songs_stable df ∧ channels_descending env df ∧
  ∀ a b, 0 ≤ a < 2 ^ 53 → 0 ≤ b < 2 ^ 53 →
         F64.eqb (F64.of_Z a) (F64.of_Z b) = (a =? b) ∧
         F64.gtb (F64.of_Z a) (F64.of_Z b) = (b <? a).
Proof.
  intros Horder. split; [|split].
  - by apply top_songs_stable.
  - apply top_channels_descending.
  - apply of_Z_order.
Qed.

(** The two songs of [Sample.tied] have the same view count, and the
    ranking has them in the order of the file. *)
Lemma rankings_ordered_witness :
  ∃ top r0 r1,
    top_songs Sample.tied = inr top ∧
    rows top !! 0%nat = Some r0 ∧ rows top !! 1%nat = Some r1 ∧
    F64.eqb (views r0) (views r1) = true ∧
    r0.1 = 0%nat ∧ r1.1 = 1%nat ∧ (r0.1 < r1.1)%nat.
Proof.
  destruct (rankings_ordered Sample.env Sample.tied) as [Hsongs _].
  { apply cleaned_frame_in_file_order. }
  destruct (top_songs Sample.tied) as [e|top] eqn:Htop.
  { vm_compute in Htop. discriminate Htop. }
  assert (Hrows : map fst (rows top) = [0%nat; 1%nat]).
  { vm_compute in Htop. injection Htop as <-. reflexivity. }
  destruct (rows top) as [|r0 [|r1 [|r2 l]]] eqn:Hl; try discriminate Hrows.
  injection Hrows as H0 H1.
  assert (Heq : F64.eqb (views r0) (views r1) = true).
  { vm_compute in Htop. injection Htop as <-. cbn [rows] in Hl.
    injection Hl as <- <-. vm_compute. reflexivity. }
  exists top, r0, r1.
  split; [reflexivity|]. rewrite Hl. split; [reflexivity|].
  split; [reflexivity|]. split; [exact Heq|]. split; [exact H0|].
  split; [exact H1|].
  apply (Hsongs top 0%nat 1%nat r0 r1).
  - exact Htop.
  - by rewrite Hl.
  - by rewrite Hl.
  - lia.
  - exact Heq.
Defined.

(** ** The pipeline *)

Lemma try_except_run {A} (body : M A) handler w :
  try_except body handler w
  = match body w with
    | (inl e, w') => if is_exception e then handler e w' else (inl e, w')
    | (inr x, w') => (inr x, w')
    end.
Proof. reflexivity. Qed.

Lemma handler_run {tty : Console} e w :
  is_exception e = true →
  (print (ErrorDuringAnalysis e);; print_exc e) w = report_failure e w.
Proof.
  intros He. unfold report_failure. rewrite He, bind_run.
  unfold print at 1.
  destruct (console (stdout w) (ErrorDuringAnalysis e)); [done|].
  unfold print_exc.
  by destruct (console (stderr (with_output [ErrorDuringAnalysis e] w))
                 (Traceback e)).
Qed.

Lemma caught_run {tty : Console} e w :
  (if is_exception e then (print (ErrorDuringAnalysis e);; print_exc e) w
   else (inl e, w))
  = report_failure e w.
Proof.
  destruct (is_exception e) eqn:He; [by apply handler_run|].
  unfold report_failure. by rewrite He.
Qed.

Lemma run_analysis_orchestrate {tty : Console} env csv_file w :
  run_analysis env csv_file w = orchestrate env csv_file w.
Proof.
  unfold run_analysis, orchestrate.
  rewrite try_except_run, bind_run.
  destruct (load_and_clean_data env csv_file w) as [[e|df] w1];
    [apply caught_run|].
  rewrite bind_run.
  destruct (exploratory_data_analysis env w1) as [[e|tops] w2];
    [apply caught_run|].
  rewrite bind_run.
  destruct (statistical_analysis w2) as [[e|[]] w3]; [apply caught_run|].
  rewrite bind_run.
  destruct (create_visualizations env w3) as [[e|[]] w4]; [apply caught_run|].
  rewrite bind_run.
  destruct (generate_insights_report env w4) as [[e|[]] w5];
    [apply caught_run|].
  rewrite bind_run.
  destruct (print (Line "[6/6] Analysis Complete!") w5) as [[e|[]] w6];
    [apply caught_run|].
  destruct (print (Line "ANALYSIS COMPLETED SUCCESSFULLY") w6) as [[e|[]] w7];
    [apply caught_run|done].
Qed.

(** An exception leaves the handler in two ways only: it is not an
    [Exception], or the console refused one of the handler's messages. *)
Lemma report_failure_propagates {tty : Console} e0 w e w' :
  report_failure e0 w = (inl e, w') →
  is_exception e = false ∨
  ∃ hist, console hist (ErrorDuringAnalysis e0) = Some e
          ∨ console hist (Traceback e0) = Some e.
Proof.
  unfold report_failure. destruct (is_exception e0) eqn:He0.
  - destruct (console (stdout w) (ErrorDuringAnalysis e0)) as [e1|] eqn:H1.
    { intros [= <- <-]. right. eauto. }
    destruct (console _ (Traceback e0)) as [e2|] eqn:H2; [|done].
    intros [= <- <-]. right. eauto.
  - intros [= <- <-]. by left.
Qed.

Lemma report_failure_returns {tty : Console} e w :
  polite tty → is_exception e = true → (report_failure e w).1 = inr tt.
Proof.
  intros (_ & Herr & Htb) He. unfold report_failure.
  by rewrite He, Herr, Htb.
Qed.

(** ** Only [Exception]s are raised *)

Lemma fails_bind {A B} (r : exn + A) (f : A → exn + B) :
  fails_with_exception r → (∀ x, fails_with_exception (f x)) →
  fails_with_exception (r ≫= f).
Proof.
  intros Hr Hf e. destruct r as [e'|x]; cbn.
  - intros [= <-]. by apply Hr.
  - apply Hf.
Qed.

Lemma fails_ret {A} (x : A) : fails_with_exception (mret x).
Proof. by intros e. Qed.

Lemma fails_getitem df c : fails_with_exception (getitem df c).
Proof.
  intros e. unfold getitem. destruct (decide _); [done|]. by intros [= <-].
Qed.

Lemma fails_floats s : fails_with_exception (floats s).
Proof.
  induction s as [|[x|t] s IH]; intros e; cbn; [done| |by intros [= <-]].
  destruct (floats s) as [e'|xs]; [|done]. intros [= <-]. by apply IH.
Qed.

Lemma fails_series_div s k : fails_with_exception (series_div s k).
Proof.
  induction s as [|[x|t] s IH]; intros e; cbn; [done| |by intros [= <-]].
  destruct (series_div s k) as [e'|xs]; [|done]. intros [= <-]. by apply IH.
Qed.

Lemma fails_dropna subset df : fails_with_exception (dropna subset df).
Proof.
  intros e. unfold dropna. destruct (List.filter _ _); [done|].
  by intros [= <-].
Qed.

Lemma fails_select cs df : fails_with_exception (select cs df).
Proof.
  intros e. unfold select. destruct (List.filter _ _); [done|].
  by intros [= <-].
Qed.

Lemma fails_nlargest n c df : fails_with_exception (nlargest n c df).
Proof.
  intros e. unfold nlargest.
  destruct (getitem df c) as [e'|s] eqn:Hs.
  { intros [= <-]. by apply (fails_getitem df c). }
  destruct (floats s) as [e'|ks] eqn:Hk; [|done].
  intros [= <-]. by apply (fails_floats s).
Qed.

Lemma fails_idxmax l : fails_with_exception (idxmax l).
Proof.
  intros e. unfold idxmax. destruct l; [by intros [= <-]|].
  by destruct (List.filter _ _).
Qed.

Lemma fails_truediv a b : fails_with_exception (truediv a b).
Proof. intros e. unfold truediv. destruct (b =? 0); [by intros [= <-]|done]. Qed.

Lemma fails_str_of c : fails_with_exception (str_of c).
Proof. intros e. destruct c; [by intros [= <-]|done]. Qed.

Lemma fails_float_of c : fails_with_exception (float_of c).
Proof. intros e. destruct c; [done|by intros [= <-]]. Qed.

Ltac fails_step :=
  first
    [ apply fails_bind; [|intros ?]
    | apply fails_ret | apply fails_getitem | apply fails_floats
    | apply fails_series_div | apply fails_dropna | apply fails_select
    | apply fails_nlargest | apply fails_idxmax | apply fails_truediv
    | apply fails_str_of | apply fails_float_of ].

Lemma fails_groupby_sum f by_ value df :
  fails_with_exception (groupby_sum f by_ value df).
Proof. unfold groupby_sum. repeat fails_step. Qed.

Lemma fails_groupby_agg f df : fails_with_exception (groupby_agg f df).
Proof. unfold groupby_agg. repeat fails_step. Qed.

Lemma fails_top_songs df : fails_with_exception (top_songs df).
Proof. unfold top_songs. repeat fails_step. Qed.

Lemma fails_top_channels env df : fails_with_exception (top_channels env df).
Proof. unfold top_channels. apply fails_bind; [apply fails_groupby_agg|].
  intros ?. apply fails_ret. Qed.

Lemma fails_category_counts df : fails_with_exception (category_counts df).
Proof. unfold category_counts. repeat fails_step. Qed.

Lemma fails_percentage count df : fails_with_exception (percentage count df).
Proof. unfold percentage. repeat fails_step. Qed.

Lemma fails_correlation_data df : fails_with_exception (correlation_data df).
Proof. unfold correlation_data. repeat fails_step. Qed.

Lemma fails_read_csv env path :
  only_exceptions env → fails_with_exception (read_csv env path).
Proof.
  intros (Hcsv & _) e. unfold read_csv.
  destruct (csv_contents env path) as [e'|[header lines]] eqn:H; [|done].
  intros [= <-]. by eapply Hcsv.
Qed.

Lemma raises_ret {A} (x : A) : raises_exceptions (mret x).
Proof. by intros w e w'. Qed.

Lemma raises_bind {A B} (m : M A) (f : A → M B) :
  raises_exceptions m → (∀ x, raises_exceptions (f x)) →
  raises_exceptions (m ≫= f).
Proof.
  intros Hm Hf w e w'. rewrite bind_run.
  destruct (m w) as [[e1|x] w1] eqn:H1.
  - intros [= <- <-]. by eapply Hm.
  - apply Hf.
Qed.

Lemma raises_lift {A} (r : exn + A) :
  fails_with_exception r → raises_exceptions (lift r).
Proof. intros Hr w e w'. unfold lift. intros [= -> <-]. by apply Hr. Qed.

Lemma raises_raise {A} e : is_exception e = true → raises_exceptions (@raise A e).
Proof. intros He w e' w'. unfold raise. by intros [= <- <-]. Qed.

Lemma raises_print {tty : Console} ev : polite tty → raises_exceptions (print ev).
Proof.
  intros (Hc & _) w e w'. unfold print.
  destruct (console (stdout w) ev) as [e'|] eqn:H; [|done].
  intros [= <- <-]. by eapply Hc.
Qed.

Lemma raises_set_df df : raises_exceptions (set_df df).
Proof. by intros w e w'. Qed.

Lemma raises_get_df_or e0 : is_exception e0 = true → raises_exceptions (get_df_or e0).
Proof.
  intros He w e w'. unfold get_df_or. destruct (self_df w); [done|].
  by intros [= <- <-].
Qed.

Lemma raises_get_df : raises_exceptions get_df.
Proof. by apply raises_get_df_or. Qed.

Lemma raises_append_insight i : raises_exceptions (append_insight i).
Proof. by intros w e w'. Qed.

Lemma raises_get_insights : raises_exceptions get_insights.
Proof. by intros w e w'. Qed.

Lemma raises_path_exists p : raises_exceptions (path_exists p).
Proof. by intros w e w'. Qed.

Lemma raises_create_file p : raises_exceptions (create_file p).
Proof. by intros w e w'. Qed.

Lemma raises_for_each {A} (l : list A) (body : A → M unit) :
  (∀ x, raises_exceptions (body x)) → raises_exceptions (for_each l body).
Proof.
  intros H. induction l as [|x l IH]; cbn [for_each].
  - apply raises_ret.
  - apply raises_bind; [apply H|]. intros _. exact IH.
Qed.

Lemma raises_assign c f :
  (∀ df, fails_with_exception (f df)) → raises_exceptions (assign c f).
Proof.
  intros Hf. unfold assign. apply raises_bind; [apply raises_get_df|].
  intros df. apply raises_bind; [by apply raises_lift|]. intros s.
  apply raises_set_df.
Qed.

Lemma raises_draw {tty : Console} env c data n :
  only_exceptions env → polite tty → raises_exceptions (draw env c data n).
Proof.
  intros (_ & Hrender & _) Htty. unfold draw.
  destruct (render env c data) as [e|] eqn:H.
  - apply raises_raise. by eapply Hrender.
  - apply raises_bind; [apply raises_create_file|]. intros _.
    apply raises_bind; [by apply raises_print|]. intros _. apply raises_ret.
Qed.

Ltac raises_step :=
  first
    [ apply raises_bind; [|intros ?]
    | apply raises_print; assumption
    | apply raises_draw; assumption
    | apply raises_ret | apply raises_set_df | apply raises_get_df
    | apply raises_get_df_or; reflexivity
    | apply raises_raise; reflexivity
    | apply raises_append_insight | apply raises_get_insights
    | apply raises_path_exists | apply raises_create_file
    | apply raises_assign; intros ?; repeat fails_step
    | apply raises_for_each; intros ?
    | apply raises_lift;
      first [ apply fails_read_csv; assumption | apply fails_top_songs
            | apply fails_top_channels | apply fails_groupby_sum
            | apply fails_category_counts | apply fails_percentage
            | apply fails_correlation_data | repeat fails_step ]
    | match goal with
      | |- raises_exceptions (let '(_, _) := ?p in _) => destruct p
      end
    | match goal with
      | |- raises_exceptions (if ?b then _ else _) => destruct b
      end
    | match goal with
      | |- raises_exceptions (match ?x with _ => _ end) => destruct x
      end ].

Lemma raises_load_and_clean_data {tty : Console} env path :
  only_exceptions env → polite tty →
  raises_exceptions (load_and_clean_data env path).
Proof.
  intros Henv Htty.
  unfold load_and_clean_data, add_derived_features, add_duration_minutes,
    add_views_in_billions, add_views_in_millions.
  repeat raises_step.
Qed.

Lemma raises_exploratory_data_analysis {tty : Console} env :
  only_exceptions env → polite tty →
  raises_exceptions (exploratory_data_analysis env).
Proof.
  intros Henv Htty. unfold exploratory_data_analysis. repeat raises_step.
Qed.

Lemma raises_statistical_analysis {tty : Console} :
  polite tty → raises_exceptions statistical_analysis.
Proof.
  intros Htty. unfold statistical_analysis, correlation_analysis.
  repeat raises_step.
Qed.

Lemma raises_create_visualizations {tty : Console} env :
  only_exceptions env → polite tty →
  raises_exceptions (create_visualizations env).
Proof.
  intros Henv Htty. unfold create_visualizations. repeat raises_step.
Qed.

Lemma raises_generate_insights_report {tty : Console} env :
  only_exceptions env → polite tty →
  raises_exceptions (generate_insights_report env).
Proof.
  intros Henv Htty. pose proof Henv as (_ & _ & Hopen).
  unfold generate_insights_report.
  destruct (open_report env _) as [e|] eqn:H.
  - repeat raises_step. intros e' [= <-]. by eapply Hopen.
  - repeat raises_step.
Qed.

Lemma orchestrate_returns {tty : Console} env csv_file w :
  only_exceptions env → polite tty → (orchestrate env csv_file w).1 = inr tt.
Proof.
  intros Henv Htty. unfold orchestrate.
  destruct (load_and_clean_data env csv_file w) as [[e|df] w1] eqn:H1.
  { apply report_failure_returns; [done|].
    by eapply raises_load_and_clean_data. }
  destruct (exploratory_data_analysis env w1) as [[e|tops] w2] eqn:H2.
  { apply report_failure_returns; [done|].
    by eapply raises_exploratory_data_analysis. }
  destruct (statistical_analysis w2) as [[e|[]] w3] eqn:H3.
  { apply report_failure_returns; [done|].
    by eapply raises_statistical_analysis. }
  destruct (create_visualizations env w3) as [[e|[]] w4] eqn:H4.
  { apply report_failure_returns; [done|].
    by eapply raises_create_visualizations. }
  destruct (generate_insights_report env w4) as [[e|[]] w5] eqn:H5.
  { apply report_failure_returns; [done|].
    by eapply raises_generate_insights_report. }
  destruct (print (Line "[6/6] Analysis Complete!") w5) as [[e|[]] w6] eqn:H6.
  { apply report_failure_returns; [done|]. by eapply raises_print. }
  destruct (print (Line "ANALYSIS COMPLETED SUCCESSFULLY") w6)
    as [[e|[]] w7] eqn:H7; [|done].
  apply report_failure_returns; [done|]. by eapply raises_print.
Qed.

Lemma orchestrate_propagates {tty : Console} env csv_file w e :
  (orchestrate env csv_file w).1 = inl e →
  is_exception e = false ∨
  ∃ hist e0, console hist (ErrorDuringAnalysis e0) = Some e
             ∨ console hist (Traceback e0) = Some e.
Proof.
  assert (Hrf : ∀ e0 w0, (report_failure e0 w0).1 = inl e →
    is_exception e = false ∨
    ∃ hist e0, console hist (ErrorDuringAnalysis e0) = Some e
               ∨ console hist (Traceback e0) = Some e).
  { intros e0 w0 H. destruct (report_failure e0 w0) as [r w'] eqn:Hr.
    cbn in H. subst r.
    destruct (report_failure_propagates _ _ _ _ Hr) as [?|[hist ?]];
      [by left|right; eauto]. }
  unfold orchestrate.
  destruct (load_and_clean_data env csv_file w) as [[e1|df] w1]; [apply Hrf|].
  destruct (exploratory_data_analysis env w1) as [[e2|tops] w2]; [apply Hrf|].
  destruct (statistical_analysis w2) as [[e3|[]] w3]; [apply Hrf|].
  destruct (create_visualizations env w3) as [[e4|[]] w4]; [apply Hrf|].
  destruct (generate_insights_report env w4) as [[e5|[]] w5]; [apply Hrf|].
  destruct (print (Line "[6/6] Analysis Complete!") w5) as [[e6|[]] w6];
    [apply Hrf|].
  destruct (print (Line "ANALYSIS COMPLETED SUCCESSFULLY") w6)
    as [[e7|[]] w7]; [apply Hrf|done].
Qed.




(** ** Charts *)

(** Drawing the charts of a list one after the other, as the script does. *)
Lemma draw_run env c data n w :
  draw env c data n w
  = match render env c data with
    | Some e => (inl e, w)
    | None => (inr (n + 1),
               with_output [Created (n + 1) c] (with_file (chart_file c) w))
    end.
Proof. unfold draw. by destruct (render env c data). Qed.

Lemma with_file_present p w : p ∈ files w → with_file p w = w.
Proof. intros H. unfold with_file. rewrite decide_True by done. by destruct w. Qed.

Lemma create_visualizations_head env w :
  create_visualizations env w
  = (df ← get_df_or AttributeError;
     viz_count ← draw env TopSongs df 0;
     viz_count ← draw env TopChannels df viz_count;
     viz_count ← draw env ViewDistribution df viz_count;
     viz_count ← draw env DurationVsViews df viz_count;
     viz_count ← draw env DurationDistribution df viz_count;
     followers ← lift (getitem df "channel_follower_count");
     let followers_data := boolean_index df (map notna followers) in
     viz_count ← (if 100 <? len followers_data
                  then draw env FollowersVsViews followers_data viz_count
                  else mret viz_count);
     viz_count ← draw env PopularityDistribution df viz_count;
     viz_count ← draw env TopChannelsByCount df viz_count;
     viz_count ← draw env CorrelationHeatmap df viz_count;
     print (AllSaved viz_count)) (studio w).
Proof.
  unfold create_visualizations, studio.
  rewrite bind_run, print_run, bind_run.
  unfold path_exists. cbn [files with_output].
  destruct (decide ("analytics_output" ∈ files w)) as [H|H].
  - rewrite bool_decide_eq_true_2 by done. rewrite bind_run. cbn [mret M_ret].
    by rewrite with_file_present.
  - rewrite bool_decide_eq_false_2 by done. by rewrite bind_run.
Qed.

Lemma self_df_studio w : self_df (studio w) = self_df w.
Proof. reflexivity. Qed.

Lemma create_visualizations_plan env w df followers :
  self_df w = Some df →
  getitem df "channel_follower_count" = inr followers →
  create_visualizations env w
  = match draw_all env (planned_charts df followers) 0 (studio w) with
    | (inl e, w') => (inl e, w')
    | (inr viz_count, w') => (inr tt, with_output [AllSaved viz_count] w')
    end.
Proof.
  intros Hdf Hfollowers. rewrite create_visualizations_head.
  generalize (studio w) (self_df_studio w). intros w0 Hw0.
  rewrite Hdf in Hw0. clear w Hdf.
  rewrite bind_run. unfold get_df_or. rewrite Hw0.
  unfold planned_charts.
  cbn [app draw_all].
  rewrite bind_run, draw_run. destruct (render env TopSongs df); [done|].
  rewrite bind_run, draw_run. destruct (render env TopChannels df); [done|].
  rewrite bind_run, draw_run. destruct (render env ViewDistribution df); [done|].
  rewrite bind_run, draw_run. destruct (render env DurationVsViews df); [done|].
  rewrite bind_run, draw_run. destruct (render env DurationDistribution df); [done|].
  rewrite bind_run. unfold lift at 1. rewrite Hfollowers.
  cbn zeta. rewrite bind_run.
  destruct (100 <? len (boolean_index df (map notna followers))).
  - cbn [app draw_all]. rewrite draw_run.
    destruct (render env FollowersVsViews _); [done|].
    rewrite bind_run, draw_run. destruct (render env PopularityDistribution df); [done|].
    rewrite bind_run, draw_run. destruct (render env TopChannelsByCount df); [done|].
    rewrite bind_run, draw_run. destruct (render env CorrelationHeatmap df); [done|].
    by rewrite print_run.
  - cbn [app draw_all mret M_ret].
    rewrite bind_run, draw_run. destruct (render env PopularityDistribution df); [done|].
    rewrite bind_run, draw_run. destruct (render env TopChannelsByCount df); [done|].
    rewrite bind_run, draw_run. destruct (render env CorrelationHeatmap df); [done|].
    by rewrite print_run.
Qed.

Lemma draw_all_ok env l n w :
  Forall (draws env) l →
  draw_all env l n w = (inr (n + Z.of_nat (length l)), saved l n w).
Proof.
  intros H. revert n w. induction H as [|[c d] l Hc _ IH]; intros n w.
  - cbn. f_equal. f_equal. lia.
  - cbn [draw_all saved]. unfold draws in Hc. cbn in Hc. rewrite Hc, IH.
    f_equal. f_equal. cbn [length]. lia.
Qed.

Lemma draw_all_abort env pre c d post e n w :
  Forall (draws env) pre → render env c d = Some e →
  draw_all env (pre ++ (c, d) :: post) n w = (inl e, saved pre n w).
Proof.
  intros H He. revert n w. induction H as [|[c' d'] l Hc _ IH]; intros n w.
  - cbn. by rewrite He.
  - cbn [app draw_all saved]. unfold draws in Hc. cbn in Hc. by rewrite Hc, IH.
Qed.

Lemma stdout_saved l n w : stdout (saved l n w) = stdout w ++ created l n.
Proof.
  revert n w. induction l as [|[c d] l IH]; intros n w; cbn [saved created].
  - by rewrite app_nil_r.
  - rewrite IH. cbn. by rewrite <- app_assoc.
Qed.

Lemma files_with_file p q w : p ∈ files (with_file q w) ↔ p ∈ files w ∨ p = q.
Proof.
  unfold with_file. cbn. destruct (decide (q ∈ files w)) as [H|H].
  - split; [auto|]. by intros [?| ->].
  - by rewrite elem_of_app, list_elem_of_singleton.
Qed.

Lemma files_saved l n w p :
  p ∈ files (saved l n w) ↔ p ∈ files w ∨ ∃ cd, cd ∈ l ∧ p = chart_file cd.1.
Proof.
  revert n w. induction l as [|[c d] l IH]; intros n w; cbn [saved].
  - split; [auto|]. intros [?|(cd & H & _)]; [done|]. by apply elem_of_nil in H.
  - rewrite IH. cbn [files with_output].
    rewrite files_with_file. split.
    + intros [[?| ->]|(cd & H & ->)]; [by left| |].
      * right. exists (c, d). split; [apply list_elem_of_here|done].
      * right. exists cd. split; [by apply list_elem_of_further|done].
    + intros [?|(cd & H & ->)]; [by left; left|].
      apply elem_of_cons in H as [->|H]; [by left; right|].
      right. by exists cd.
Qed.

(** C2, as the specification states it, fails as soon as one drawing
    raises: with a library whose trend line fails, the fourth chart ends the
    whole stage. *)
Lemma charts_independent_counterexample :
  ¬ charts_independent Sample.failing_env Sample.loaded.
Proof. intros [H _]. vm_compute in H. discriminate H. Qed.

Lemma analysis_run env path w0 w :
  analysis env path w0 = (inr tt, w) →
  ∃ df w1 tops w2,
    load_and_clean_data env path w0 = (inr df, w1) ∧
    exploratory_data_analysis env w1 = (inr tops, w2) ∧
    statistical_analysis w2 = (inr tt, w).
Proof.
  unfold analysis. rewrite bind_run.
  destruct (load_and_clean_data env path w0) as [[e|df] w1] eqn:H1; [done|].
  rewrite bind_run.
  destruct (exploratory_data_analysis env w1) as [[e|tops] w2] eqn:H2; [done|].
  intros H. exists df, w1, tops, w2.
  split; [reflexivity|]. split; [exact H2|]. exact H.
Qed.

Lemma report_failure_quiet e w :
  report_failure e w
  = if is_exception e
    then (inr tt, with_error [Traceback e] (with_output [ErrorDuringAnalysis e] w))
    else (inl e, w).
Proof. reflexivity. Qed.

(** The run of the pipeline when the fourth stage raises. *)
Lemma run_analysis_charts_fail env path w0 w e w' :
  analysis env path w0 = (inr tt, w) →
  create_visualizations env w = (inl e, w') →
  run_analysis env path w0
  = if is_exception e
    then (inr tt, with_error [Traceback e] (with_output [ErrorDuringAnalysis e] w'))
    else (inl e, w').
Proof.
  intros Hw He.
  destruct (analysis_run _ _ _ _ Hw) as (df & w1 & tops & w2 & H1 & H2 & H3).
  rewrite run_analysis_orchestrate. unfold orchestrate.
  rewrite H1, H2, H3, He. apply report_failure_quiet.
Qed.

(** C2, amended: an exception raised while a chart is drawn is not caught
    in [create_visualizations]; it leaves the method, the charts before it
    are saved, and no chart after it is drawn.  In the pipeline the
    exception reaches the handler of [run_analysis], which prints it and
    ends the run there: the charts after it and the report are not made. *)
Theorem create_visualizations_aborts env w df followers pre c data post e :
  self_df w = Some df →
  getitem df "channel_follower_count" = inr followers →
  planned_charts df followers = pre ++ (c, data) :: post →
  Forall (draws env) pre →
  render env c data = Some e →
  create_visualizations env w = (inl e, saved pre 0 (studio w)) ∧
  stdout (saved pre 0 (studio w))
  = stdout w ++ Line "[4/6] Creating Visualizations..." :: created pre 0 ∧
  (∀ p, p ∈ files (saved pre 0 (studio w)) ↔
        p ∈ files w ∨ p = "analytics_output"
        ∨ ∃ cd, cd ∈ pre ∧ p = chart_file cd.1) ∧
  ∀ path w0,
    analysis env path w0 = (inr tt, w) →
    run_analysis env path w0
    = if is_exception e
      then (inr tt,
            with_error [Traceback e]
              (with_output [ErrorDuringAnalysis e] (saved pre 0 (studio w))))
      else (inl e, saved pre 0 (studio w)).
Proof.
  intros Hdf Hfollowers Hplan Hpre He.
  assert (Hstage : create_visualizations env w = (inl e, saved pre 0 (studio w))).
  { rewrite (create_visualizations_plan env w df followers Hdf Hfollowers).
    by rewrite Hplan, (draw_all_abort env pre c data post e 0 _ Hpre He). }
  split; [exact Hstage|]. split; [|split].
  - rewrite stdout_saved. cbn. by rewrite <- app_assoc.
  - intros p. rewrite files_saved. unfold studio.
    rewrite files_with_file. cbn [files with_output]. tauto.
  - intros path w0 Hw. by apply run_analysis_charts_fail with (w := w).
Qed.

Lemma create_visualizations_aborts_witness :
  let w := (analysis Sample.failing_env "songs.csv" Sample.world).2 in
  (create_visualizations Sample.failing_env w).1 = inl ValueError ∧
  (run_analysis Sample.failing_env "songs.csv" Sample.world).1 = inr tt ∧
  stderr (run_analysis Sample.failing_env "songs.csv" Sample.world).2
  = [Traceback ValueError].
Proof.
  intros w.
  assert (Hw : analysis Sample.failing_env "songs.csv" Sample.world = (inr tt, w)).
  { subst w. destruct (analysis _ _ _) as [[e|[]] w] eqn:H; [|reflexivity].
    vm_compute in H. discriminate H. }
  assert (Hdf : self_df w = Some Sample.cleaned).
  { subst w. vm_compute. reflexivity. }
  pose proof (create_visualizations_aborts Sample.failing_env w
    Sample.cleaned
    (map (λ r, cell_at r "channel_follower_count") (rows Sample.cleaned))
    [(TopSongs, Sample.cleaned); (TopChannels, Sample.cleaned);
     (ViewDistribution, Sample.cleaned)]
    DurationVsViews Sample.cleaned
    [(DurationDistribution, Sample.cleaned);
     (PopularityDistribution, Sample.cleaned);
     (TopChannelsByCount, Sample.cleaned);
     (CorrelationHeatmap, Sample.cleaned)]
    ValueError) as H.
  destruct H as (Hstage & _ & _ & Hrun).
  - exact Hdf.
  - reflexivity.
  - reflexivity.
  - repeat constructor.
  - reflexivity.
  - rewrite Hstage. split; [reflexivity|].
    rewrite (Hrun "songs.csv" Sample.world Hw). cbn [is_exception fst snd].
    split; [reflexivity|]. subst w. vm_compute. reflexivity.
Defined.

Lemma getitem_length df c s : getitem df c = inr s → length s = length (rows df).
Proof.
  unfold getitem. destruct (decide _); [|done]. intros [= <-].
  by rewrite length_map.
Qed.

Lemma planned_charts_few df followers :
  length followers = length (rows df) →
  Z.of_nat (length (List.filter notna followers)) ≤ 100 →
  planned_charts df followers = unconditional_charts df.
Proof.
  intros Hlen Hfew. unfold planned_charts.
  rewrite (length_boolean_index df notna followers Hlen).
  destruct (Z.ltb_spec 100 (Z.of_nat (length (List.filter notna followers))));
    [lia|reflexivity].
Qed.

Lemma unconditional_charts_draw env df :
  (∀ c, c ≠ FollowersVsViews → render env c df = None) →
  Forall (draws env) (unconditional_charts df).
Proof.
  intros H. unfold unconditional_charts, draws.
  repeat (apply List.Forall_cons; [by apply H|]). apply List.Forall_nil.
Qed.

Lemma unconditional_charts_all df c :
  c ≠ FollowersVsViews → (c, df) ∈ unconditional_charts df.
Proof.
  intros Hc. unfold unconditional_charts.
  destruct c; try (by destruct Hc);
    repeat first [ apply list_elem_of_here | apply list_elem_of_further ].
Qed.

Lemma stdout_with_output es w : stdout (with_output es w) = stdout w ++ es.
Proof. reflexivity. Qed.

Lemma files_with_output es w : files (with_output es w) = files w.
Proof. reflexivity. Qed.

Lemma stdout_studio w :
  stdout (studio w) = stdout w ++ [Line "[4/6] Creating Visualizations..."].
Proof. reflexivity. Qed.

Lemma created_unconditional df :
  created (unconditional_charts df) 0
  = [Created 1 TopSongs; Created 2 TopChannels;
     Created 3 ViewDistribution; Created 4 DurationVsViews;
     Created 5 DurationDistribution; Created 6 PopularityDistribution;
     Created 7 TopChannelsByCount; Created 8 CorrelationHeatmap].
Proof. reflexivity. Qed.

Lemma draw_all_prefix env l n w :
  ∃ pre post, l = pre ++ post ∧ (draw_all env l n w).2 = saved pre n w.
Proof.
  revert n w. induction l as [|[c d] l IH]; intros n w.
  - by exists [], [].
  - cbn [draw_all]. destruct (render env c d) as [e|].
    + by exists [], ((c, d) :: l).
    + destruct (IH (n + 1)
                  (with_output [Created (n + 1) c] (with_file (chart_file c) w)))
        as (pre & post & -> & H).
      by exists ((c, d) :: pre), post.
Qed.

Lemma elem_of_created n c l k :
  Created n c ∈ created l k → ∃ d, (c, d) ∈ l.
Proof.
  revert k. induction l as [|[c' d'] l IH]; intros k; cbn [created].
  - intros H. by apply elem_of_nil in H.
  - intros [[= _ <-]|H]%elem_of_cons.
    + exists d'. apply list_elem_of_here.
    + destruct (IH _ H) as [d Hd]. exists d. by apply list_elem_of_further.
Qed.

Lemma unconditional_charts_others df c d :
  (c, d) ∈ unconditional_charts df → c ≠ FollowersVsViews.
Proof.
  unfold unconditional_charts. intros H.
  repeat (apply elem_of_cons in H as [[= -> _]|H]; [done|]).
  by apply elem_of_nil in H.
Qed.

Lemma chart_file_followers c :
  chart_file FollowersVsViews = chart_file c → c = FollowersVsViews.
Proof. by destruct c. Qed.

(** What [create_visualizations] leaves behind when the guard of the sixth
    chart is false: the charts of a prefix of the eight others. *)
Lemma create_visualizations_few env w df followers :
  self_df w = Some df →
  getitem df "channel_follower_count" = inr followers →
  Z.of_nat (length (List.filter notna followers)) ≤ 100 →
  create_visualizations env w
  = match draw_all env (unconditional_charts df) 0 (studio w) with
    | (inl e, w') => (inl e, w')
    | (inr viz_count, w') => (inr tt, with_output [AllSaved viz_count] w')
    end.
Proof.
  intros Hdf Hfollowers Hfew.
  rewrite (create_visualizations_plan env w df followers Hdf Hfollowers).
  by rewrite planned_charts_few by (by eapply getitem_length || lia).
Qed.

Lemma with_output_nil w : with_output [] w = w.
Proof. unfold with_output. rewrite app_nil_r. by destruct w. Qed.

Lemma create_visualizations_world env w df followers :
  self_df w = Some df →
  getitem df "channel_follower_count" = inr followers →
  Z.of_nat (length (List.filter notna followers)) ≤ 100 →
  ∃ pre post evs,
    unconditional_charts df = pre ++ post ∧
    (evs = [] ∨ ∃ n, evs = [AllSaved n]) ∧
    (create_visualizations env w).2
    = with_output evs (saved pre 0 (studio w)).
Proof.
  intros Hdf Hfollowers Hfew.
  rewrite (create_visualizations_few env w df followers) by done.
  destruct (draw_all_prefix env (unconditional_charts df) 0 (studio w))
    as (pre & post & Hsplit & Hw).
  exists pre, post.
  destruct (draw_all env (unconditional_charts df) 0 (studio w))
    as [[e|n] w'] eqn:H; cbn [snd] in *; subst w'.
  - exists []. split; [done|]. split; [by left|].
    by rewrite with_output_nil.
  - exists [AllSaved n]. split; [done|]. split; [right; by exists n|done].
Qed.

(** C8, as the specification states it, fails when one of the other charts
    cannot be drawn: with a view count that is infinite the histogram of
    the third chart raises, and the charts from the third on are missing. *)
Lemma followers_chart_only_skipped_counterexample :
  (create_visualizations Sample.histogram_env
     (with_df Sample.boundless Sample.world)).1 = inl ValueError ∧
  files (create_visualizations Sample.histogram_env
           (with_df Sample.boundless Sample.world)).2
  = ["analytics_output"; "analytics_output/01_top_15_songs.png";
     "analytics_output/02_top_10_channels.png"] ∧
  ¬ followers_chart_only_skipped Sample.histogram_env
      (with_df Sample.boundless Sample.world).
Proof.
  assert (Hfiles : files (create_visualizations Sample.histogram_env
                            (with_df Sample.boundless Sample.world)).2
    = ["analytics_output"; "analytics_output/01_top_15_songs.png";
       "analytics_output/02_top_10_channels.png"]) by (by vm_compute).
  split; [by vm_compute|]. split; [exact Hfiles|].
  intros H.
  destruct (H Sample.boundless
              (map (λ r, cell_at r "channel_follower_count")
                 (rows Sample.boundless))) as [_ Hall].
  - reflexivity.
  - reflexivity.
  - by vm_compute.
  - specialize (Hall ViewDistribution). rewrite Hfiles in Hall.
    assert (Hin : chart_file ViewDistribution
                  ∈ ["analytics_output"; "analytics_output/01_top_15_songs.png";
                     "analytics_output/02_top_10_channels.png"])
      by (by apply Hall).
    repeat (apply elem_of_cons in Hin as [Hin|Hin]; [discriminate Hin|]).
    by apply elem_of_nil in Hin.
Qed.

(** C8, amended: when at most 100 rows have a follower count, the chart of
    followers against views is not drawn, whatever else happens: the stage
    goes through the eight other charts only.  These are all drawn and
    saved when the library draws each of them; the first of them that
    raises ends the stage, and the charts from it on are not made. *)
Theorem followers_chart_skipped env w df followers :
  self_df w = Some df →
  getitem df "channel_follower_count" = inr followers →
  Z.of_nat (length (List.filter notna followers)) ≤ 100 →
  (∀ n, Created n FollowersVsViews ∈ stdout (create_visualizations env w).2 →
        Created n FollowersVsViews ∈ stdout w) ∧
  (chart_file FollowersVsViews ∈ files (create_visualizations env w).2 →
   chart_file FollowersVsViews ∈ files w) ∧
  ((∀ c, c ≠ FollowersVsViews → render env c df = None) →
   ∃ w',
     create_visualizations env w = (inr tt, w') ∧
     stdout w' = stdout w
       ++ [Line "[4/6] Creating Visualizations...";
           Created 1 TopSongs; Created 2 TopChannels;
           Created 3 ViewDistribution; Created 4 DurationVsViews;
           Created 5 DurationDistribution; Created 6 PopularityDistribution;
           Created 7 TopChannelsByCount; Created 8 CorrelationHeatmap;
           AllSaved 8] ∧
     ∀ c, c ≠ FollowersVsViews → chart_file c ∈ files w') ∧
  (∀ pre c data post e,
     unconditional_charts df = pre ++ (c, data) :: post →
     Forall (draws env) pre →
     render env c data = Some e →
     create_visualizations env w = (inl e, saved pre 0 (studio w)) ∧
     ∀ p, p ∈ files (saved pre 0 (studio w)) ↔
          p ∈ files w ∨ p = "analytics_output"
          ∨ ∃ cd, cd ∈ pre ∧ p = chart_file cd.1).
Proof.
  intros Hdf Hfollowers Hfew.
  destruct (create_visualizations_world env w df followers Hdf Hfollowers Hfew)
    as (pre0 & post0 & evs & Hsplit & Hevs & Hworld).
  split; [|split; [|split]].
  - intros n. rewrite Hworld, stdout_with_output, stdout_saved, stdout_studio.
    rewrite !elem_of_app. intros [[[H|H]|H]|H]; [done| | |].
    + apply list_elem_of_singleton in H. discriminate H.
    + apply elem_of_created in H as [d Hd].
      exfalso. apply (unconditional_charts_others df FollowersVsViews d); [|done].
      rewrite Hsplit. apply elem_of_app. by left.
    + destruct Hevs as [->|[k ->]]; [by apply elem_of_nil in H|].
      apply list_elem_of_singleton in H. discriminate H.
  - rewrite Hworld, files_with_output. intros H.
    apply files_saved in H as [H|(cd & Hcd & Heq)].
    + unfold studio in H. apply files_with_file in H as [H|H]; [done|].
      discriminate H.
    + exfalso. apply chart_file_followers in Heq.
      destruct cd as [c d]. cbn in Heq. subst c.
      apply (unconditional_charts_others df FollowersVsViews d); [|done].
      rewrite Hsplit. apply elem_of_app. by left.
  - intros Hdraws.
    exists (with_output [AllSaved 8]
              (saved (unconditional_charts df) 0 (studio w))).
    split; [|split].
    + rewrite (create_visualizations_few env w df followers) by done.
      by rewrite (draw_all_ok env _ 0 (studio w)
                    (unconditional_charts_draw env df Hdraws)).
    + rewrite stdout_with_output, stdout_saved, created_unconditional,
        stdout_studio.
      by rewrite <- !app_assoc.
    + intros c Hc. rewrite files_with_output.
      apply files_saved. right.
      exists (c, df). split; [|done]. by apply unconditional_charts_all.
  - intros pre c data post e Hplan Hpre He. split.
    + rewrite (create_visualizations_few env w df followers) by done.
      by rewrite Hplan, (draw_all_abort env pre c data post e 0 _ Hpre He).
    + intros p. rewrite files_saved. unfold studio.
      rewrite files_with_file. cbn [files with_output]. tauto.
Qed.

Lemma followers_chart_skipped_witness :
  (∃ w',
    create_visualizations Sample.env Sample.loaded = (inr tt, w') ∧
    stdout w' = stdout Sample.loaded
      ++ [Line "[4/6] Creating Visualizations...";
          Created 1 TopSongs; Created 2 TopChannels;
          Created 3 ViewDistribution; Created 4 DurationVsViews;
          Created 5 DurationDistribution; Created 6 PopularityDistribution;
          Created 7 TopChannelsByCount; Created 8 CorrelationHeatmap;
          AllSaved 8] ∧
    ∀ c, c ≠ FollowersVsViews → chart_file c ∈ files w') ∧
  (chart_file FollowersVsViews
   ∈ files (create_visualizations Sample.env Sample.loaded).2 →
   chart_file FollowersVsViews ∈ files Sample.loaded).
Proof.
  destruct (followers_chart_skipped Sample.env Sample.loaded Sample.cleaned
           (map (λ r, cell_at r "channel_follower_count") (rows Sample.cleaned)))
    as (_ & Hfile & Hall & _).
  - reflexivity.
  - reflexivity.
  - vm_compute. discriminate.
  - split; [|exact Hfile]. apply Hall. reflexivity.
Defined.

(** ** Correlations *)

Lemma complete_select cs (r : nat * gmap string cell) :
  complete cs (r.1, filter (λ kv : string * cell, kv.1 ∈ cs) r.2) = complete cs r.
Proof.
  unfold complete.
  assert (H : ∀ l : list string, l ⊆ cs →
    forallb (λ c, notna (cell_at (r.1, filter (λ kv : string * cell, kv.1 ∈ cs) r.2) c)) l
    = forallb (λ c, notna (cell_at r c)) l).
  { induction l as [|c l IH]; intros Hl; simpl; [done|].
    rewrite cell_at_select by (apply Hl, list_elem_of_here).
    rewrite IH; [done|]. intros x Hx. by apply Hl, list_elem_of_further. }
  by apply H.
Qed.

Lemma filter_map_comm {A B} (p : B → bool) (f : A → B) (l : list A) :
  List.filter p (map f l) = map f (List.filter (λ x, p (f x)) l).
Proof.
  induction l as [|x l IH]; simpl; [done|]. destruct (p (f x)); simpl; by rewrite IH.
Qed.

Lemma correlation_data_run df :
  Forall (λ c, c ∈ columns df) three →
  correlation_data df
  = inr {| columns := three;
           rows := map (λ r, (r.1, filter (λ kv : string * cell, kv.1 ∈ three) r.2))
                     (paired_rows df) |}.
Proof.
  intros Hcols. unfold correlation_data, select. fold three.
  rewrite (proj2 (filter_absent_nil (columns df) three) Hcols).
  cbn [mbind result_bind columns].
  rewrite dropna_run by (cbn [columns]; repeat constructor; rewrite !elem_of_cons; auto).
  cbn [columns rows]. f_equal. f_equal.
  rewrite filter_map_comm. f_equal. unfold paired_rows. fold three.
  apply filter_ext. intros r. apply complete_select.
Qed.

Lemma paired_rows_complete df r c :
  r ∈ paired_rows df → c ∈ three → isna (cell_at r c) = false.
Proof.
  unfold paired_rows. intros Hr Hc.
  apply list_elem_of_In, filter_In in Hr as [_ Hcomplete].
  unfold complete in Hcomplete. rewrite forallb_forall in Hcomplete.
  apply list_elem_of_In, Hcomplete in Hc. unfold notna in Hc.
  by destruct (isna _).
Qed.

Lemma selected_floats df c l :
  numeric c df → c ∈ three → l ⊆ rows df →
  floats (map (λ r, cell_at r c)
            (map (λ r : nat * gmap string cell,
                    (r.1, filter (λ kv : string * cell, kv.1 ∈ three) r.2)) l))
  = inr (values c l).
Proof.
  intros [_ Hnum] Hc Hl. rewrite map_map.
  rewrite floats_num.
  - rewrite map_map. unfold values. f_equal. apply map_ext. intros r.
    by rewrite cell_at_select.
  - apply Forall_map, Forall_forall. intros r Hr. cbn beta.
    rewrite cell_at_select by done.
    rewrite Forall_forall in Hnum. by apply Hnum, Hl.
Qed.

Lemma paired_rows_subseteq df : paired_rows df ⊆ rows df.
Proof.
  intros r Hr. unfold paired_rows in Hr.
  by apply list_elem_of_In, filter_In in Hr as [Hr%list_elem_of_In _].
Qed.

Lemma existsb_notna_complete (l : list (nat * gmap string cell)) c :
  l ≠ [] → Forall (λ r, isna (cell_at r c) = false) l →
  existsb notna (map (λ r, cell_at r c) l) = true.
Proof.
  intros Hne H. destruct H as [|r l Hr _]; [done|].
  simpl. unfold notna. by rewrite Hr.
Qed.

(** The correlation block on a frame whose three columns are numeric: both
    coefficients are computed on the paired rows as soon as there is one. *)
Lemma correlation_analysis_run df w :
  numeric "view_count" df → numeric "duration" df →
  numeric "channel_follower_count" df →
  correlation_analysis df w
  = (inr tt,
     with_output
       (Line "Correlation Analysis:" ::
        if 0 <? Z.of_nat (length (paired_rows df)) then
          [Correlation "Duration vs Views"
             (values "duration" (paired_rows df))
             (values "view_count" (paired_rows df));
           Correlation "Channel Followers vs Views"
             (values "channel_follower_count" (paired_rows df))
             (values "view_count" (paired_rows df))]
        else []) w).
Proof.
  intros Hv Hd Hf.
  assert (Hcols : Forall (λ c, c ∈ columns df) three).
  { unfold three. repeat constructor; [apply Hv|apply Hd|apply Hf]. }
  unfold correlation_analysis.
  rewrite bind_run, print_run, bind_run. unfold lift at 1.
  rewrite (correlation_data_run df Hcols).
  unfold len at 1. cbn [rows]. rewrite length_map.
  destruct (0 <? Z.of_nat (length (paired_rows df))) eqn:Hpos.
  - assert (Hne : paired_rows df ≠ []).
    { intros E. rewrite E in Hpos. discriminate Hpos. }
    rewrite bind_run. unfold lift at 1.
    rewrite getitem_present by (cbn [columns]; unfold three; rewrite !elem_of_cons; auto).
    cbn [rows mbind result_bind].
    rewrite (selected_floats df "duration" _ Hd)
      by (first [apply paired_rows_subseteq | unfold three; rewrite !elem_of_cons; auto]).
    rewrite bind_run. unfold lift at 1.
    rewrite getitem_present by (cbn [columns]; unfold three; rewrite !elem_of_cons; auto).
    cbn [rows mbind result_bind].
    rewrite (selected_floats df "view_count" _ Hv)
      by (first [apply paired_rows_subseteq | unfold three; rewrite !elem_of_cons; auto]).
    rewrite bind_run, print_run.
    rewrite bind_run. unfold lift at 1.
    rewrite getitem_present by (cbn [columns]; unfold three; rewrite !elem_of_cons; auto).
    cbn [rows].
    rewrite existsb_notna_complete.
    + rewrite bind_run. unfold lift at 1.
      rewrite (selected_floats df "channel_follower_count" _ Hf)
        by (first [apply paired_rows_subseteq | unfold three; rewrite !elem_of_cons; auto]).
      rewrite print_run, !with_output_app. reflexivity.
    + intros E. apply Hne. by destruct (paired_rows df).
    + apply Forall_map, Forall_forall. intros r Hr. cbn beta.
      rewrite cell_at_select by (unfold three; rewrite !elem_of_cons; auto).
      apply (paired_rows_complete df r _ Hr).
      unfold three; rewrite !elem_of_cons; auto.
  - cbn [mret M_ret]. by rewrite app_nil_r || reflexivity.
Qed.

(** C7, as the specification states it, fails on a frame of which no row
    has all three values: the guard of the script is on zero rows, and
    below it nothing is reported, not even as undefined. *)
Lemma correlation_guarded_counterexample :
  len Sample.unfollowed = 2 ∧
  paired_rows Sample.unfollowed = [] ∧
  stdout (correlation_analysis Sample.unfollowed Sample.world).2
  = [Line "Correlation Analysis:"] ∧
  ¬ correlation_guarded Sample.unfollowed Sample.world.
Proof.
  assert (Hout : stdout (correlation_analysis Sample.unfollowed Sample.world).2
                 = [Line "Correlation Analysis:"]) by (by vm_compute).
  split; [by vm_compute|]. split; [by vm_compute|]. split; [exact Hout|].
  intros H.
  destruct (correlation_data Sample.unfollowed) as [e|data] eqn:E.
  { vm_compute in E. discriminate E. }
  destruct (H data E) as [(xs & ys & Hin & _) _].
  - vm_compute in E. injection E as <-. by vm_compute.
  - rewrite Hout in Hin. apply list_elem_of_singleton in Hin. discriminate Hin.
Qed.

(** C7, amended: the coefficients are computed on the rows that have no NaN
    in view_count, duration and channel_follower_count; when there is no
    such row nothing is computed or printed, and when there is at least one,
    also exactly one, both coefficients are computed. *)
Theorem correlation_analysis_pairs df w :
  numeric "view_count" df → numeric "duration" df →
  numeric "channel_follower_count" df →
  correlation_analysis df w
  = (inr tt,
     with_output
       (Line "Correlation Analysis:" ::
        if 0 <? Z.of_nat (length (paired_rows df)) then
          [Correlation "Duration vs Views"
             (values "duration" (paired_rows df))
             (values "view_count" (paired_rows df));
           Correlation "Channel Followers vs Views"
             (values "channel_follower_count" (paired_rows df))
             (values "view_count" (paired_rows df))]
        else []) w) ∧
  (∀ r c, r ∈ paired_rows df →
          c ∈ ["view_count"; "duration"; "channel_follower_count"] →
          isna (cell_at r c) = false) ∧
  (∀ r, r ∈ paired_rows df → r ∈ rows df).
Proof.
  intros Hv Hd Hf. split; [by apply correlation_analysis_run|]. split.
  - intros r c Hr Hc. by apply (paired_rows_complete df r c Hr).
  - apply paired_rows_subseteq.
Qed.

Lemma numeric_cleaned_frame parse header lines c :
  c ∈ header → c ∈ three → numeric c (cleaned_frame parse header lines).
Proof.
  intros Hh Hc. split.
  - cbn [columns cleaned_frame]. rewrite !elem_of_add_column. auto.
  - cbn [rows cleaned_frame]. apply Forall_forall. intros r Hr.
    destruct (cleaned_rows_inv _ _ _ Hr) as (r0 & -> & Hd0 & Hv0 & Hf0 & _).
    unfold three in Hc.
    rewrite derive_row_base by (rewrite !elem_of_cons in *; tauto).
    repeat (apply elem_of_cons in Hc as [->|Hc]); try done.
    by apply elem_of_nil in Hc.
Qed.

Lemma correlation_analysis_pairs_witness :
  (correlation_analysis Sample.single Sample.world).1 = inr tt.
Proof.
  destruct (correlation_analysis_pairs Sample.single Sample.world) as [H _].
  - apply numeric_cleaned_frame; unfold Sample.header, three; rewrite !elem_of_cons; auto 10.
  - apply numeric_cleaned_frame; unfold Sample.header, three; rewrite !elem_of_cons; auto 10.
  - apply numeric_cleaned_frame; unfold Sample.header, three; rewrite !elem_of_cons; auto 10.
  - by rewrite H.
Defined.

(** ** The statistics of an empty frame *)

Lemma for_each_print {A} (f : A → event) (l : list A) w :
  for_each l (λ x, print (f x)) w = (inr tt, with_output (map f l) w).
Proof.
  revert w. induction l as [|x l IH]; intros w; cbn [for_each map].
  - unfold with_output. cbn. rewrite app_nil_r. by destruct w.
  - rewrite bind_run, print_run, IH, with_output_app. reflexivity.
Qed.

Lemma get_df_run w df : self_df w = Some df → get_df w = (inr df, w).
Proof. intros H. unfold get_df, get_df_or. by rewrite H. Qed.

Lemma self_df_with_output es w : self_df (with_output es w) = self_df w.
Proof. reflexivity. Qed.

Lemma percentage_raises count df :
  (∃ e, percentage count df = inl e) ↔ rows df = [].
Proof.
  unfold percentage, truediv, len. split.
  - intros [e H]. destruct (rows df); [done|]. by cbn in H.
  - intros ->. by exists ZeroDivisionError.
Qed.

Lemma percentage_empty count df :
  rows df = [] → percentage count df = inl ZeroDivisionError.
Proof. intros H. unfold percentage, truediv, len. by rewrite H. Qed.

Lemma floats_column_empty df c :
  rows df = [] → c ∈ columns df →
  (s ← getitem df c; floats s) = inr [].
Proof. intros Hrows Hc. rewrite getitem_present by done. by rewrite Hrows. Qed.

(** C10: on a frame without rows [statistical_analysis] raises
    [ZeroDivisionError] when it computes the first percentage, right after
    the heading of the popularity categories; a percentage raises exactly
    when the frame has no row. *)
Theorem statistical_analysis_empty w df :
  self_df w = Some df → rows df = [] →
  Forall (λ c, c ∈ columns df)
    ["view_count"; "duration_minutes"; "duration"; "channel_follower_count"] →
  ∃ w',
    statistical_analysis w = (inl ZeroDivisionError, w') ∧
    last (stdout w') = Some (Line "Popularity Categories:") ∧
    ∀ count df', (∃ e, percentage count df' = inl e) ↔ rows df' = [].
Proof.
  intros Hdf Hrows Hcols.
  apply Forall_cons in Hcols as [Hv Hcols].
  apply Forall_cons in Hcols as [Hm Hcols].
  apply Forall_cons in Hcols as [Hd Hcols].
  apply Forall_cons in Hcols as [Hf _].
  unfold statistical_analysis.
  rewrite bind_run, print_run, bind_run, print_run.
  rewrite bind_run, print_run.
  rewrite bind_run, (get_df_run _ df) by done.
  rewrite bind_run. unfold lift at 1. rewrite (floats_column_empty df) by done.
  rewrite bind_run, for_each_print.
  rewrite bind_run, print_run.
  rewrite bind_run. unfold lift at 1. rewrite (floats_column_empty df) by done.
  rewrite bind_run, for_each_print.
  rewrite bind_run, correlation_analysis_run;
    [|split; [done|rewrite Hrows; constructor]..].
  unfold paired_rows. rewrite Hrows. cbn [List.filter length].
  rewrite bind_run. unfold lift at 1, category_counts.
  rewrite getitem_present by done. rewrite Hrows.
  cbn [map mbind result_bind floats mret result_ret].
  rewrite bind_run, print_run.
  rewrite bind_run. unfold lift at 1. rewrite percentage_empty by done.
  eexists. split; [reflexivity|]. split.
  - rewrite !with_output_app, stdout_with_output. by rewrite last_app.
  - intros count df'. apply percentage_raises.
Qed.

Lemma statistical_analysis_empty_witness :
  (statistical_analysis (with_df Sample.empty Sample.world)).1
  = inl ZeroDivisionError.
Proof.
  destruct (statistical_analysis_empty (with_df Sample.empty Sample.world)
              Sample.empty) as (w' & H & _).
  - reflexivity.
  - reflexivity.
  - cbn [columns Sample.empty cleaned_frame].
    repeat constructor; rewrite !elem_of_add_column;
      unfold Sample.header; rewrite !elem_of_cons; auto 10.
  - by rewrite H.
Defined.

(** ** The value of a rounded number *)

Lemma Qpow2_pos (e : Z) : (0 < 2 ^ e)%Q.
Proof. by apply Qpower_0_lt. Qed.

Lemma Qpow2_add (a b : Z) : (2 ^ (a + b) == 2 ^ a * 2 ^ b)%Q.
Proof. by apply Qpower_plus. Qed.

Lemma Qpow2_inject (e : Z) : 0 ≤ e → (2 ^ e == inject_Z (2 ^ e))%Q.
Proof. intros He. symmetry. by apply (Zpower_Qpower 2 e). Qed.

(** The integer form of the error of one rounding: [V] is the rounded
    mantissa, [a / b] the exact one, both at the scale of the input. *)
Lemma round_error (P K m1 m a b V : Z) :
  0 < P → P ≤ m1 → 0 < K → 0 < b →
  m1 * K ≤ m < (m1 + 1) * K →
  m * b ≤ a < (m + 1) * b →
  V = m1 * K ∨ V = (m1 + 1) * K →
  a * (P - 1) ≤ V * b * P ∧ V * b * P ≤ a * (P + 1).
Proof.
  intros HP Hm1 HK Hb [Hlo Hhi] [Halo Hahi] HV.
  assert (Ha1 : m1 * K * b ≤ a) by nia.
  assert (Ha2 : a ≤ (m1 + 1) * K * b) by nia.
  assert (HKb : 0 < K * b) by nia.
  destruct HV as [-> | ->].
  - split; [|nia].
    (* a (P - 1) ≤ (m1 + 1) K b (P - 1) ≤ m1 K b P *)
    assert ((m1 + 1) * (P - 1) ≤ m1 * P) by lia.
    assert ((m1 + 1) * K * b * (P - 1) ≤ m1 * K * b * P) by nia.
    nia.
  - split; [nia|].
    assert ((m1 + 1) * P ≤ m1 * (P + 1)) by lia.
    assert ((m1 + 1) * K * b * P ≤ m1 * K * b * (P + 1)) by nia.
    nia.
Qed.

Lemma close_of_bounds (qa qb qV T : Q) :
  (0 < qb)%Q → (0 < T)%Q →
  (qa * (4503599627370496 - 1) <= qV * qb * 4503599627370496)%Q →
  (qV * qb * 4503599627370496 <= qa * (4503599627370496 + 1))%Q →
  F64.close (qa / qb * T) (qV * T).
Proof.
  intros Hb HT Hlo Hhi. unfold F64.close, F64.eps.
  set (y := (qa / qb)%Q).
  assert (Hy : (y * qb == qa)%Q) by (unfold y; field; lra).
  assert (H1 : (y * (4503599627370496 - 1) <= qV * 4503599627370496)%Q).
  { apply (Qmult_le_r _ _ qb Hb). rewrite <- Hy in Hlo. lra. }
  assert (H2 : (qV * 4503599627370496 <= y * (4503599627370496 + 1))%Q).
  { apply (Qmult_le_r _ _ qb Hb). rewrite <- Hy in Hhi. lra. }
  assert (H3 : (y * (1 - (1 # 4503599627370496)) <= qV)%Q) by lra.
  assert (H4 : (qV <= y * (1 + (1 # 4503599627370496)))%Q) by lra.
  split.
  - assert (E : (y * T * (1 - (1 # 4503599627370496))
                 == y * (1 - (1 # 4503599627370496)) * T)%Q) by ring.
    rewrite E. by apply Qmult_le_r.
  - assert (E : (y * T * (1 + (1 # 4503599627370496))
                 == y * (1 + (1 # 4503599627370496)) * T)%Q) by ring.
    rewrite E. by apply Qmult_le_r.
Qed.

Lemma close_proper (x x' r r' : Q) :
  (x == x')%Q → (r == r')%Q → F64.close x r → F64.close x' r'.
Proof. unfold F64.close. intros -> ->. done. Qed.

(** One rounding of binary64: the exact value is [a / b * 2 ^ e], its
    integer part at the scale [2 ^ e] is the mantissa [m]. *)
Lemma F64_round m e l a b :
  0 < m → 53 ≤ Zdigits2 m →
  -1074 ≤ Zdigits2 m + e - 53 → Zdigits2 m + e + 1 ≤ 1024 →
  0 < b → m * b ≤ a < (m + 1) * b →
  ∃ M E,
    binary_round_aux F64.prec F64.emax false m e l = S754_finite false M E ∧
    Zdigits2 (Z.pos M) = 53 ∧
    Zdigits2 m + e - 53 ≤ E ≤ Zdigits2 m + e - 52 ∧
    F64.close (inject_Z a / inject_Z b * 2 ^ e)
      (F64.to_Q (S754_finite false M E)).
Proof.
  intros Hm Hd Hlo Hhi Hb Ha.
  destruct (binary_round_aux_spec 53 1024 ltac:(lia) false m e l
              Hm Hd Hlo Hhi) as (M & E & Hr & HM & Hm1 & Hcut & HE & HV).
  set (k := Zdigits2 m - 53) in *. set (m1 := m / 2 ^ k) in *.
  assert (Hk : 0 ≤ k) by (unfold k; lia).
  assert (HK : 0 < 2 ^ k) by (apply Z.pow_pos_nonneg; lia).
  exists M, E. split; [exact Hr|]. split; [|split].
  - apply Zdigits2_unique; [lia|]. exact HM.
  - unfold k in HE. lia.
  - change (53 - 1) with 52 in Hm1.
    change (2 ^ 52) with 4503599627370496 in Hm1.
    destruct (round_error 4503599627370496 (2 ^ k) m1 m a b
                (Z.pos M * 2 ^ (E - e))) as [Hlow Hupp];
      [lia|exact Hm1|exact HK|exact Hb|exact Hcut|exact Ha|exact HV|].
    assert (HEe : 0 ≤ E - e) by lia.
    assert (Hval : (F64.to_Q (S754_finite false M E)
                    == inject_Z (Z.pos M * 2 ^ (E - e)) * 2 ^ e)%Q).
    { cbn [F64.to_Q]. rewrite inject_Z_mult, <- (Qpow2_inject (E - e) HEe).
      replace E with ((E - e) + e) at 1 by lia. rewrite Qpow2_add. ring. }
    apply (close_proper _ _ _ _ (Qeq_refl _) (Qeq_sym _ _ Hval)).
    apply close_of_bounds.
    + change 0%Q with (inject_Z 0). rewrite <- Zlt_Qlt. exact Hb.
    + apply Qpow2_pos.
    + rewrite Zle_Qle in Hlow.
      change (4503599627370496 - 1) with (4503599627370496 + -1) in Hlow.
      rewrite !inject_Z_mult, inject_Z_plus in Hlow. exact Hlow.
    + rewrite Zle_Qle in Hupp.
      rewrite !inject_Z_mult, inject_Z_plus in Hupp. exact Hupp.
Qed.

Lemma Zdigits2_between (q lo hi : Z) :
  0 ≤ lo → 2 ^ lo ≤ q < 2 ^ hi → lo + 1 ≤ Zdigits2 q ≤ hi.
Proof.
  intros Hlo [Hq1 Hq2].
  assert (Hq : 0 < q).
  { assert (0 < 2 ^ lo) by (apply Z.pow_pos_nonneg; lia). lia. }
  destruct (Zdigits2_bounds q Hq) as (Hd & Hd1 & Hd2). split.
  - destruct (Z.le_gt_cases (lo + 1) (Zdigits2 q)) as [?|Hgt]; [done|].
    assert (2 ^ Zdigits2 q ≤ 2 ^ lo) by (apply Z.pow_le_mono_r; lia). lia.
  - destruct (Z.le_gt_cases (Zdigits2 q) hi) as [?|Hgt]; [done|].
    assert (2 ^ hi ≤ 2 ^ (Zdigits2 q - 1)) by (apply Z.pow_le_mono_r; lia).
    lia.
Qed.

Lemma mantissa_bounds (m : positive) :
  Zdigits2 (Z.pos m) = 53 → 4503599627370496 ≤ Z.pos m < 9007199254740992.
Proof.
  intros Hd. destruct (Zdigits2_bounds (Z.pos m)) as (_ & H1 & H2); [lia|].
  rewrite Hd in H1, H2. exact (conj H1 H2).
Qed.

(** The quotient of two positive normal numbers. *)
Lemma F64_div mx ex my ey :
  Zdigits2 (Z.pos mx) = 53 → Zdigits2 (Z.pos my) = 53 →
  -1021 ≤ ex - ey ≤ 1021 →
  ∃ M E,
    F64.div (S754_finite false mx ex) (S754_finite false my ey)
    = S754_finite false M E ∧
    Zdigits2 (Z.pos M) = 53 ∧
    ex - ey - 53 ≤ E ≤ ex - ey - 51 ∧
    F64.close
      (F64.to_Q (S754_finite false mx ex) / F64.to_Q (S754_finite false my ey))
      (F64.to_Q (S754_finite false M E)).
Proof.
  intros Hdx Hdy Hrange.
  pose proof (mantissa_bounds mx Hdx) as Hmx.
  pose proof (mantissa_bounds my Hdy) as Hmy.
  unfold F64.div, SFdiv, SFdiv_core_binary. cbn [xorb].
  rewrite Hdx, Hdy.
  assert (Hfexp : fexp F64.prec F64.emax (53 + ex - (53 + ey)) = ex - ey - 53).
  { unfold fexp, emin, F64.prec, F64.emax. lia. }
  rewrite Hfexp, Z.min_l by lia.
  replace (ex - ey - (ex - ey - 53)) with 53 by lia.
  cbv iota.
  rewrite Z.shiftl_mul_pow2 by lia.
  change (2 ^ 53) with 9007199254740992.
  set (a := Z.pos mx * 9007199254740992).
  pose proof (Z.div_eucl_eq a (Z.pos my) ltac:(lia)) as Hdiv.
  pose proof (Z.mod_pos_bound a (Z.pos my) ltac:(lia)) as Hmod.
  unfold Z.modulo in Hmod.
  destruct (Z.div_eucl a (Z.pos my)) as [q r] eqn:Hqr.
  assert (Hq : q * Z.pos my ≤ a < (q + 1) * Z.pos my) by lia.
  assert (Hqb : 2 ^ 52 ≤ q < 2 ^ 54).
  { change (2 ^ 52) with 4503599627370496.
    change (2 ^ 54) with 18014398509481984. unfold a in Hq. nia. }
  pose proof (Zdigits2_between q 52 54 ltac:(lia) Hqb) as Hdq.
  change (2 ^ 52) with 4503599627370496 in Hqb.
  destruct (F64_round q (ex - ey - 53) (new_location (Z.pos my) r) a (Z.pos my))
    as (M & E & Hr & HM & HE & Hclose); [lia..|].
  exists M, E. split; [exact Hr|]. split; [exact HM|]. split; [lia|].
  eapply close_proper; [|reflexivity|exact Hclose].
  cbn [F64.to_Q]. unfold a. rewrite inject_Z_mult.
  assert (Hpow : (2 ^ ex == 2 ^ 53 * 2 ^ (ex - ey - 53) * 2 ^ ey)%Q).
  { rewrite <- !Qpow2_add. by replace (53 + (ex - ey - 53) + ey) with ex by lia. }
  rewrite Hpow.
  change (inject_Z 9007199254740992) with (2 ^ 53)%Q.
  pose proof (Qpow2_pos ey). 
  assert (¬ (inject_Z (Z.pos my) == 0)%Q).
  { change 0%Q with (inject_Z 0). rewrite inject_Z_injective. lia. }
  field. split; [lra|done].
Qed.

(** The product of two positive normal numbers. *)
Lemma F64_mul mx ex my ey :
  Zdigits2 (Z.pos mx) = 53 → Zdigits2 (Z.pos my) = 53 →
  -1000 ≤ ex + ey ≤ 900 →
  ∃ M E,
    F64.mul (S754_finite false mx ex) (S754_finite false my ey)
    = S754_finite false M E ∧
    Zdigits2 (Z.pos M) = 53 ∧
    ex + ey + 52 ≤ E ≤ ex + ey + 54 ∧
    F64.close
      (F64.to_Q (S754_finite false mx ex) * F64.to_Q (S754_finite false my ey))
      (F64.to_Q (S754_finite false M E)).
Proof.
  intros Hdx Hdy Hrange.
  pose proof (mantissa_bounds mx Hdx) as Hmx.
  pose proof (mantissa_bounds my Hdy) as Hmy.
  unfold F64.mul, SFmul. cbn [xorb]. rewrite Pos2Z.inj_mul.
  set (m := Z.pos mx * Z.pos my).
  assert (Hmb : 2 ^ 104 ≤ m < 2 ^ 106).
  { change (2 ^ 104) with (4503599627370496 * 4503599627370496).
    change (2 ^ 106) with (9007199254740992 * 9007199254740992).
    unfold m. nia. }
  pose proof (Zdigits2_between m 104 106 ltac:(lia) Hmb) as Hdm.
  assert (Hmpos : 0 < m) by (unfold m; lia).
  destruct (F64_round m (ex + ey) loc_Exact m 1)
    as (M & E & Hr & HM & HE & Hclose); [lia..|].
  exists M, E. split; [exact Hr|]. split; [exact HM|]. split; [lia|].
  eapply close_proper; [|reflexivity|exact Hclose].
  cbn [F64.to_Q]. unfold m. rewrite inject_Z_mult, Qpow2_add.
  change (inject_Z 1) with 1%Q. field.
Qed.

(** ** The percentages of the popularity categories *)

(** A count below [2 ^ 53] is converted without error. *)
Lemma of_Z_exact (z : Z) :
  0 < z < 2 ^ 53 →
  ∃ M E,
    F64.of_Z z = S754_finite false M E ∧
    Zdigits2 (Z.pos M) = 53 ∧ -52 ≤ E ≤ 0 ∧
    (F64.to_Q (F64.of_Z z) == inject_Z z)%Q.
Proof.
  intros Hz.
  destruct (binary_normalize_exact 53 1024 ltac:(lia) z Hz ltac:(lia))
    as (M & Hof & HM & Hval).
  assert (Hd : 1 ≤ Zdigits2 z ≤ 53).
  { destruct (Zdigits2_bounds z) as (Hd & H1 & H2); [lia|]. split; [lia|].
    destruct (Z.le_gt_cases (Zdigits2 z) 53) as [?|Hgt]; [done|].
    assert (2 ^ 53 ≤ 2 ^ (Zdigits2 z - 1)) by (apply Z.pow_le_mono_r; lia).
    lia. }
  exists M, (Zdigits2 z - 53). unfold F64.of_Z, F64.prec, F64.emax.
  split; [exact Hof|]. split; [exact HM|]. split; [lia|].
  rewrite Hof. cbn [F64.to_Q]. rewrite Hval, inject_Z_mult.
  rewrite <- (Qpow2_inject (53 - Zdigits2 z)) by lia.
  assert (Hone : (2 ^ (53 - Zdigits2 z) * 2 ^ (Zdigits2 z - 53) == 1)%Q).
  { rewrite <- Qpow2_add.
    by replace (53 - Zdigits2 z + (Zdigits2 z - 53)) with 0 by lia. }
  transitivity
    (inject_Z z * (2 ^ (53 - Zdigits2 z) * 2 ^ (Zdigits2 z - 53)))%Q; [ring|].
  rewrite Hone. ring.
Qed.

Lemma c100_value : (F64.to_Q F64.c100 == 100)%Q.
Proof. reflexivity. Qed.

(** The percentage of a category: the double the script prints is the exact
    share up to two roundings, of the quotient and of the product. *)
Lemma percentage_close (count : Z) (df : DataFrame) :
  0 ≤ count ≤ len df → 0 < len df < 2 ^ 53 →
  ∃ p,
    percentage count df = inr p ∧
    F64.is_finite p = true ∧
    (0 <= exact_percentage count (len df) <= 100)%Q ∧
    (exact_percentage count (len df) * ((1 - F64.eps) * (1 - F64.eps))
     <= F64.to_Q p)%Q ∧
    (F64.to_Q p
     <= exact_percentage count (len df) * ((1 + F64.eps) * (1 + F64.eps)))%Q.
Proof.
  intros Hcount Hlen. set (n := len df) in *.
  unfold percentage, truediv. fold n.
  destruct (Z.eqb_spec n 0) as [?|_]; [lia|].
  cbn [mbind result_bind mret result_ret].
  assert (Hn : (0 < inject_Z n)%Q).
  { change 0%Q with (inject_Z 0). rewrite <- Zlt_Qlt. lia. }
  assert (Hexact : (0 <= exact_percentage count n <= 100)%Q).
  { unfold exact_percentage.
    assert (Hc0 : (0 <= inject_Z count)%Q).
    { change 0%Q with (inject_Z 0). rewrite <- Zle_Qle. lia. }
    assert (Hcn : (inject_Z count <= inject_Z n)%Q) by (rewrite <- Zle_Qle; lia).
    set (y := (inject_Z count / inject_Z n)%Q).
    assert (Hy : (y * inject_Z n == inject_Z count)%Q) by (unfold y; field; lra).
    assert (0 <= y)%Q.
    { apply (Qmult_le_r _ _ (inject_Z n) Hn). rewrite Hy. lra. }
    assert (y <= 1)%Q.
    { apply (Qmult_le_r _ _ (inject_Z n) Hn). rewrite Hy. lra. }
    lra. }
  destruct (Z.eq_dec count 0) as [->|Hpos].
  - (* an empty category *)
    destruct (of_Z_exact n Hlen) as (Mn & En & Hofn & _).
    exists (S754_zero false). rewrite Hofn.
    split; [reflexivity|]. split; [reflexivity|]. split; [exact Hexact|].
    assert (Hzero : (exact_percentage 0 n == 0)%Q).
    { unfold exact_percentage. change (inject_Z 0) with 0%Q. field. lra. }
    cbn [F64.to_Q]. rewrite Hzero. lra.
  - destruct (of_Z_exact count ltac:(lia)) as (Mc & Ec & Hofc & HMc & HEc & Hvc).
    destruct (of_Z_exact n Hlen) as (Mn & En & Hofn & HMn & HEn & Hvn).
    rewrite Hofc, Hofn in *.
    destruct (F64_div Mc Ec Mn En HMc HMn ltac:(lia))
      as (Mq & Eq & Hdiv & HMq & HEq & Hq).
    rewrite Hdiv.
    destruct (F64_mul Mq Eq 7036874417766400 (-46) HMq eq_refl ltac:(lia))
      as (Mp & Ep & Hmul & HMp & HEp & Hp).
    change (S754_finite false 7036874417766400 (-46)) with F64.c100 in Hmul, Hp.
    exists (S754_finite false Mp Ep).
    split; [by rewrite Hmul|]. split; [reflexivity|]. split; [exact Hexact|].
    unfold F64.close in Hq, Hp. rewrite Hvc, Hvn in Hq.
    rewrite c100_value in Hp.
    unfold exact_percentage in *. unfold F64.eps in *.
    set (y := (inject_Z count / inject_Z n)%Q) in *.
    set (q := F64.to_Q (S754_finite false Mq Eq)) in *.
    set (p := F64.to_Q (S754_finite false Mp Ep)) in *.
    lra.
Qed.

Lemma Qabs_within (x d : Q) : (- d <= x)%Q → (x <= d)%Q → (Qabs x <= d)%Q.
Proof. intros H1 H2. apply Qabs_Qle_condition. by split. Qed.

(** C4: on a cleaned frame the three popularity counts add up to the number
    of rows; on a frame that is not empty the three percentages, taken as
    exact fractions, add up to 100, and the three doubles the script
    computes for them, [count / len(self.df) * 100], are each within
    [10 ^ -13] of the exact percentage and add up to 100 within
    [10 ^ -13]. *)
Theorem category_counts_partition df :
  views_clean df →
  ∃ mega_hits popular moderate,
    category_counts df = inr (mega_hits, popular, moderate) ∧
    mega_hits + popular + moderate = len df ∧
    (0 < len df →
     (exact_percentage mega_hits (len df) + exact_percentage popular (len df)
      + exact_percentage moderate (len df) == 100)%Q) ∧
    (0 < len df < 2 ^ 53 →
     ∃ p1 p2 p3,
       percentage mega_hits df = inr p1 ∧
       percentage popular df = inr p2 ∧
       percentage moderate df = inr p3 ∧
       F64.is_finite p1 = true ∧ F64.is_finite p2 = true ∧
       F64.is_finite p3 = true ∧
       (Qabs (F64.to_Q p1 - exact_percentage mega_hits (len df))
        <= 1 # 10000000000000)%Q ∧
       (Qabs (F64.to_Q p2 - exact_percentage popular (len df))
        <= 1 # 10000000000000)%Q ∧
       (Qabs (F64.to_Q p3 - exact_percentage moderate (len df))
        <= 1 # 10000000000000)%Q ∧
       (Qabs (F64.to_Q p1 + F64.to_Q p2 + F64.to_Q p3 - 100)
        <= 1 # 10000000000000)%Q).
Proof.
  intros Hclean.
  destruct (views_clean_floats df Hclean) as (xs & Hxs & Hlen & Hnan).
  destruct Hclean as [Hcol _].
  rewrite getitem_present in Hxs by done. cbn in Hxs.
  eexists _, _, _. split.
  { unfold category_counts. rewrite getitem_present by done. cbn.
    rewrite Hxs. cbn. reflexivity. }
  rewrite !length_boolean_index by done.
  assert (Hsum := category_sum xs Hnan).
  set (a := Z.of_nat (length (List.filter is_mega_hit xs))) in *.
  set (b := Z.of_nat (length (List.filter is_popular xs))) in *.
  set (c := Z.of_nat (length (List.filter is_moderate xs))) in *.
  assert (Ha : 0 ≤ a) by (unfold a; lia).
  assert (Hb : 0 ≤ b) by (unfold b; lia).
  assert (Hc : 0 ≤ c) by (unfold c; lia).
  assert (Htotal : a + b + c = len df) by (unfold len; lia).
  split; [exact Htotal|]. split.
  - intros Hpos. by apply exact_percentage_sum.
  - intros Hn.
    pose proof (exact_percentage_sum a b c (len df) Htotal ltac:(lia)) as Hexact.
    destruct (percentage_close a df ltac:(lia) Hn)
      as (p1 & Hp1 & Hf1 & He1 & Hlo1 & Hhi1).
    destruct (percentage_close b df ltac:(lia) Hn)
      as (p2 & Hp2 & Hf2 & He2 & Hlo2 & Hhi2).
    destruct (percentage_close c df ltac:(lia) Hn)
      as (p3 & Hp3 & Hf3 & He3 & Hlo3 & Hhi3).
    exists p1, p2, p3.
    split; [exact Hp1|]. split; [exact Hp2|]. split; [exact Hp3|].
    split; [exact Hf1|]. split; [exact Hf2|]. split; [exact Hf3|].
    unfold F64.eps in *.
    set (e1 := exact_percentage a (len df)) in *.
    set (e2 := exact_percentage b (len df)) in *.
    set (e3 := exact_percentage c (len df)) in *.
    set (q1 := F64.to_Q p1) in *. set (q2 := F64.to_Q p2) in *.
    set (q3 := F64.to_Q p3) in *.
    split; [apply Qabs_within; lra|]. split; [apply Qabs_within; lra|].
    split; [apply Qabs_within; lra|]. apply Qabs_within; lra.
Qed.

Lemma category_counts_partition_witness :
  ∃ p1 p2 p3,
    category_counts Sample.cleaned = inr (2, 1, 1) ∧
    percentage 2 Sample.cleaned = inr p1 ∧
    percentage 1 Sample.cleaned = inr p2 ∧
    percentage 1 Sample.cleaned = inr p3 ∧
    (Qabs (F64.to_Q p1 + F64.to_Q p2 + F64.to_Q p3 - 100)
     <= 1 # 10000000000000)%Q.
Proof.
  destruct (category_counts_partition Sample.cleaned)
    as (a & b & c & Hcounts & _ & _ & Hpercent).
  { apply cleaned_frame_views_clean.
    unfold Sample.header. rewrite !elem_of_cons. auto. }
  assert (Habc : (a, b, c) = (2, 1, 1)).
  { vm_compute in Hcounts. by injection Hcounts as <- <- <-. }
  injection Habc as -> -> ->.
  destruct Hpercent as (p1 & p2 & p3 & H1 & H2 & H3 & _ & _ & _ & _ & _ & _ & H).
  { vm_compute. split; reflexivity. }
  exists p1, p2, p3. split; [exact Hcounts|]. by repeat split.
Defined.
